(** * GigaMart retail pipeline: batch loader and quality gate

    A shallow embedding of [Section_A/validation/check_data_quality.py] and
    [Section_A/src/ingest_gcp.py].  Python code that logs, calls the
    warehouse and may raise is written in a small state-and-exception monad;
    the SQL text of the four quality checks is embedded by its relational
    meaning over the fact and dimension tables; the warehouse's load job is
    embedded by the documented meaning of the options the loaders set.

    The transformation runner [Section_A/src/run_pipeline.py] and the task
    order of [Section_A/dags/retail_etl_dag.py], which schedules the loader
    and the quality gate, are embedded in the same way, as far as their
    behaviour does not depend on the SQL scripts. *)

From Stdlib Require Import ZArith DecimalString.
From Stdlib Require Import Floats.SpecFloat.
From stdpp Require Import base option list strings gmap.

Local Open Scope string_scope.
Local Open Scope list_scope.
Local Open Scope nat_scope.

(** ** Python: exceptions, logging, and the effect monad *)

Module Py.

(** An exception object: its class and [str(e)]. Only subclasses of
    [Exception] are modelled, which is what the client libraries and the
    interpreter raise for the calls made here. *)
Record Exn := { exn_class : string; exn_msg : string }.

Definition str_exn (e : Exn) : string := exn_msg e.

Inductive Level := INFO | WARNING | ERROR.

Record LogRecord := { levelname : Level; msg : string }.

Inductive Outcome (A : Type) :=
| Returned (a : A)
| Raised (e : Exn).
Arguments Returned {A} a.
Arguments Raised {A} e.

(** The interpreter state: the outside world [W] the module's clients
    talk to, and the records handed to [logging]. *)
Record St (W : Type) := { world : W; logs : list LogRecord }.
Arguments world {W} s.
Arguments logs {W} s.

Definition M (W A : Type) : Type := St W → Outcome A * St W.

Section Ops.
Context {W : Type}.

Definition ret {A} (a : A) : M W A := λ s, (Returned a, s).

Definition bind {A B} (m : M W A) (k : A → M W B) : M W B :=
  λ s, match m s with
       | (Returned a, s') => k a s'
       | (Raised e, s') => (Raised e, s')
       end.

Definition raise {A} (e : Exn) : M W A := λ s, (Raised e, s).

(** [try: body / except Exception as e: handler e] *)
Definition try_except {A} (body : M W A) (handler : Exn → M W A) : M W A :=
  λ s, match body s with
       | (Returned a, s') => (Returned a, s')
       | (Raised e, s') => handler e s'
       end.

Definition emit (l : Level) (text : string) : M W unit :=
  λ s, (Returned tt,
        {| world := world s;
           logs := logs s ++ [{| levelname := l; msg := text |}] |}).

Definition logging_info := emit INFO.
Definition logging_warning := emit WARNING.
Definition logging_error := emit ERROR.

(** A call to an external client: a function of the world that
    returns or raises. *)
Definition call {A} (f : W → Outcome A * W) : M W A :=
  λ s, let '(r, w') := f (world s) in
       (r, {| world := w'; logs := logs s |}).

(** [for x in xs: body x] *)
Fixpoint for_each {A} (xs : list A) (body : A → M W unit) : M W unit :=
  match xs with
  | [] => ret tt
  | x :: xs' => bind (body x) (λ _, for_each xs' body)
  end.

End Ops.

(** [str(n)] for the integers formatted into f-strings. *)
Definition str_nat (n : nat) : string := NilZero.string_of_uint (Nat.to_uint n).
Definition str_Z (z : Z) : string := NilZero.string_of_int (Z.to_int z).

(** [str(x)] of a value that is [None] when unset, as [os.getenv] gives. *)
Definition str_opt (o : option string) : string :=
  match o with Some s => s | None => "None" end.

(** [repr(s)] of a [str]. A string is a sequence of characters with
    code points below 256. The text is written between single quotes,
    or between double quotes when it holds a single quote and no double
    quote; the quote used and the backslash are escaped, tab, newline
    and carriage return are written [\t], [\n] and [\r], and every
    other character that is not printable as [\xhh]. *)
Definition backslash : Ascii.ascii := Ascii.ascii_of_N 92.
Definition squote : Ascii.ascii := Ascii.ascii_of_N 39.
Definition dquote : Ascii.ascii := Ascii.ascii_of_N 34.

Fixpoint char_in (c : Ascii.ascii) (s : string) : bool :=
  match s with
  | EmptyString => false
  | String d rest => Ascii.eqb c d || char_in c rest
  end.

Definition hex_digit (n : N) : Ascii.ascii :=
  Ascii.ascii_of_N (if (n <? 10)%N then 48 + n else 87 + n).

(** [str.isprintable] below 256: the ASCII characters from the space
    to the tilde, and those from 161 on except the soft hyphen. *)
Definition isprintable (n : N) : bool :=
  ((32 <=? n)%N && (n <? 127)%N) || ((161 <=? n)%N && negb (n =? 173)%N).

Definition repr_char (quote c : Ascii.ascii) : string :=
  let n := Ascii.N_of_ascii c in
  if Ascii.eqb c quote || Ascii.eqb c backslash then String backslash (String c "")
  else if (n =? 9)%N then String backslash "t"
  else if (n =? 10)%N then String backslash "n"
  else if (n =? 13)%N then String backslash "r"
  else if isprintable n then String c ""
  else String backslash
         ("x" +:+ String (hex_digit (n / 16)) (String (hex_digit (n mod 16)) "")).

Fixpoint repr_chars (quote : Ascii.ascii) (s : string) : string :=
  match s with
  | EmptyString => EmptyString
  | String c rest => repr_char quote c +:+ repr_chars quote rest
  end.

Definition repr_str (s : string) : string :=
  let quote := if char_in squote s && negb (char_in dquote s) then dquote else squote in
  String quote (repr_chars quote s +:+ String quote "").

(** [s.endswith(suffix)] *)
Definition endswith (s suffix : string) : bool :=
  let n := String.length s in
  let k := String.length suffix in
  (k <=? n)%nat && String.eqb (String.substring (n - k) k s) suffix.

End Py.

Import Py.

Notation "x <- m ;; k" := (Py.bind m (λ x, k))
  (at level 100, m at next level, right associativity).
Notation "m ;; k" := (Py.bind m (λ _, k))
  (at level 100, right associativity).

(** ** SQL: three-valued conditions and the relational operators used *)

Module Sql.

(** A condition evaluates to TRUE, FALSE or NULL ([None]). *)
Definition eq_Z (a b : option Z) : option bool :=
  match a, b with
  | Some x, Some y => Some (x =? y)%Z
  | _, _ => None
  end.

Definition lt_Z (a b : option Z) : option bool :=
  match a, b with
  | Some x, Some y => Some (x <? y)%Z
  | _, _ => None
  end.

Definition is_null {A} (a : option A) : option bool :=
  Some (match a with None => true | Some _ => false end).

Definition is_not_null {A} (a : option A) : option bool :=
  Some (match a with None => false | Some _ => true end).

Definition and3 (a b : option bool) : option bool :=
  match a, b with
  | Some false, _ | _, Some false => Some false
  | Some true, Some true => Some true
  | _, _ => None
  end.

Definition or3 (a b : option bool) : option bool :=
  match a, b with
  | Some true, _ | _, Some true => Some true
  | Some false, Some false => Some false
  | _, _ => None
  end.

(** WHERE, HAVING and ON keep a row only when the condition is TRUE. *)
Definition holds (c : option bool) : bool :=
  match c with Some true => true | _ => false end.

Definition where_ {R} (c : R → option bool) (rows : list R) : list R :=
  filter (λ r, holds (c r) = true) rows.

(** [FROM l LEFT JOIN r ON c]: every left row once per matching right
    row, or once with the right side all NULL when none matches. *)
Definition left_join {L R} (c : L → R → option bool)
    (l : list L) (r : list R) : list (L * option R) :=
  l ≫= (λ x,
    match filter (λ y, holds (c x y) = true) r with
    | [] => [(x, None)]
    | ys => (λ y, (x, Some y)) <$> ys
    end).

(** [GROUP BY key]: one group per distinct key, in order of first
    occurrence, with the rows that carry it. *)
Definition group_by {R K} `{EqDecision K} (key : R → K) (rows : list R)
    : list (K * list R) :=
  (λ k, (k, filter (λ r, key r = k) rows)) <$> remove_dups (key <$> rows).

(** [COUNT( * )] over a group or a whole result. *)
Definition count_star {R} (rows : list R) : Z := Z.of_nat (length rows).

End Sql.

(** ** [validation/check_data_quality.py] *)

Module CheckDataQuality.

(** [fact_transactions], as created in [run_pipeline.py]; a nullable
    column is an [option]. Dates are day numbers, timestamps are
    microseconds, FLOAT64 values are IEEE 754 binary floats. *)
Module Fact.
Record row := {
  transaction_id : string;
  customer_sk : option Z;
  product_id : option string;
  transaction_date : option Z;
  quantity : option Z;
  unit_price : option spec_float;
  total_amount : option spec_float;
  source_system : option string;
  created_at : option Z
}.
End Fact.

(** [dim_customers], as created in [run_pipeline.py]. *)
Module Dim.
Record row := {
  customer_sk : Z;
  customer_id : string;
  first_name : option string;
  last_name : option string;
  email : option string;
  loyalty_status : option string;
  city : option string;
  country : option string;
  valid_from : Z;
  valid_to : option Z;
  is_current : bool
}.
End Dim.

Record Warehouse := {
  fact_transactions : list Fact.row;
  dim_customers : list Dim.row
}.

(** A value in a result row, as the client hands it to Python. *)
Inductive Cell := CInt (z : Z) | CStr (s : string) | CNone.

Definition str_cell (c : Cell) : string :=
  match c with
  | CInt z => str_Z z
  | CStr s => s
  | CNone => "None"
  end.

(** [c == n] for an integer [n]. *)
Definition cell_eq_int (c : Cell) (n : Z) : bool :=
  match c with
  | CInt z => (z =? n)%Z
  | _ => false
  end.

Definition Row := list Cell.

(** A query is embedded by the result set it denotes on a warehouse. *)
Definition Query := Warehouse → list Row.

(** The process-wide [client]: the warehouse behind it, and which of
    its calls fail. The [n]-th call made through the client raises
    [faults n] when that is an exception. *)
Record Client := {
  warehouse : Warehouse;
  faults : nat → option Exn;
  calls : nat
}.

Definition api {A} (f : Warehouse → A) : M Client A :=
  call (λ c,
    let c' := {| warehouse := warehouse c; faults := faults c;
                 calls := S (calls c) |} in
    match faults c (calls c) with
    | Some e => (Raised e, c')
    | None => (Returned (f (warehouse c)), c')
    end).

(** [client.query(query)] submits the job, [query_job.result()] waits
    for its rows. *)
Definition client_query (query : Query) : M Client Query := api (λ _, query).
Definition job_result (query_job : Query) : M Client (list Row) :=
  api (λ w, query_job w).

(** [row[0]] *)
Definition row_first (r : Row) : M Client Cell :=
  match r with
  | c :: _ => ret c
  | [] => raise {| exn_class := "IndexError";
                   exn_msg := "tuple index out of range" |}
  end.

Definition run_test (test_name : string) (query : Query) (expected_result : Z)
    : M Client bool :=
  try_except
    (query_job <- client_query query;;
     results <- job_result query_job;;
     count <- match results with
              | r :: _ => row_first r
              | [] => ret (CInt 0)
              end;;
     if cell_eq_int count expected_result then
       logging_info ("[PASS] " +:+ test_name);;
       ret true
     else
       logging_error ("[FAIL] " +:+ test_name +:+ ": Expected "
                      +:+ str_Z expected_result +:+ ", Got " +:+ str_cell count);;
       ret false)
    (λ e,
       logging_error ("[ERROR] " +:+ test_name +:+ ": " +:+ str_exn e);;
       ret false).

(** Test 1: groups of [transaction_id] with more than one row. *)
Definition query_uniqueness : Query := λ w,
  let groups := Sql.group_by Fact.transaction_id (fact_transactions w) in
  let dup := filter (λ g, (1 < Sql.count_star g.2)%Z) groups in
  [[CInt (Sql.count_star dup)]].

(** Test 2: fact rows left without a dimension row by the left join. *)
Definition query_ref_integrity : Query := λ w,
  let joined :=
    Sql.left_join
      (λ f d, Sql.eq_Z (Fact.customer_sk f) (Some (Dim.customer_sk d)))
      (fact_transactions w) (dim_customers w) in
  let unmatched :=
    Sql.where_ (λ fd, Sql.is_null (Dim.customer_sk <$> fd.2)) joined in
  [[CInt (Sql.count_star unmatched)]].

(** Test 3: fact rows with a NULL critical column. *)
Definition query_nulls : Query := λ w,
  let bad :=
    Sql.where_
      (λ f, Sql.or3 (Sql.is_null (Fact.total_amount f))
                    (Sql.is_null (Fact.created_at f)))
      (fact_transactions w) in
  [[CInt (Sql.count_star bad)]].

(** Test 4: closed dimension rows that end before they start. *)
Definition query_scd_logic : Query := λ w,
  let bad :=
    Sql.where_
      (λ d, Sql.and3 (Sql.is_not_null (Dim.valid_to d))
                     (Sql.lt_Z (Dim.valid_to d) (Some (Dim.valid_from d))))
      (dim_customers w) in
  [[CInt (Sql.count_star bad)]].

Definition DATASET_ID : string := "gigmart".

Section Main.
Variable PROJECT_ID : option string.

Definition main : M Client bool :=
  let dataset_ref := str_opt PROJECT_ID +:+ "." +:+ DATASET_ID in
  logging_info ("Starting Data Quality Checks on " +:+ dataset_ref +:+ "...");;
  let all_tests_passed := true in
  t1 <- run_test "Uniqueness Check (Fact Transactions)" query_uniqueness 0;;
  let all_tests_passed := if negb t1 then false else all_tests_passed in
  t2 <- run_test "Referential Integrity (Customer FK)" query_ref_integrity 0;;
  let all_tests_passed := if negb t2 then false else all_tests_passed in
  t3 <- run_test "Null Value Check (Critical Columns)" query_nulls 0;;
  let all_tests_passed := if negb t3 then false else all_tests_passed in
  t4 <- run_test "SCD Logic Check (Time Travel)" query_scd_logic 0;;
  let all_tests_passed := if negb t4 then false else all_tests_passed in
  if all_tests_passed then
    logging_info "All Data Quality checks passed successfully!";;
    ret true
  else
    logging_error "Some Data Quality checks failed.";;
    ret false.

(** The wrapper the scheduler calls. *)
Definition run_checks : M Client unit :=
  ok <- main;;
  if negb ok then
    raise {| exn_class := "ValueError";
             exn_msg := "Data Quality checks failed!" |}
  else ret tt.

(** [if __name__ == "__main__"]: the exit status of the process.
    [sys.exit(0 if result else 1)]; an exception that reaches the top
    level ends the process with status 1. *)
Definition dunder_main (s : St Client) : Z * St Client :=
  match main s with
  | (Returned result, s') => (if result then 0%Z else 1%Z, s')
  | (Raised _, s') => (1%Z, s')
  end.

End Main.

(** A process that starts with no call made and nothing logged. *)
Definition start (w : Warehouse) (f : nat → option Exn) : St Client :=
  {| world := {| warehouse := w; faults := f; calls := 0 |}; logs := [] |}.

Definition no_faults : nat → option Exn := λ _, None.

End CheckDataQuality.

(** ** The warehouse's load job

    The loaders only build a job configuration and wait for the job; what
    the job does with it is the warehouse's. It is embedded by the
    documented meaning of the options the loaders set: schema
    auto-detection, the two schema-update options, the write disposition,
    the bad-record allowance and the treatment of unknown values. *)

Module BigQuery.

Inductive SourceFormat := CSV | NEWLINE_DELIMITED_JSON.
Inductive SchemaUpdateOption := ALLOW_FIELD_ADDITION | ALLOW_FIELD_RELAXATION.
Inductive WriteDisposition := WRITE_APPEND | WRITE_TRUNCATE | WRITE_EMPTY.
Inductive Mode := NULLABLE | REQUIRED.

#[global] Instance SchemaUpdateOption_eq_dec : EqDecision SchemaUpdateOption.
Proof. solve_decision. Defined.
#[global] Instance Mode_eq_dec : EqDecision Mode.
Proof. solve_decision. Defined.

Record SchemaField := {
  name : string;
  field_type : string;
  mode : Mode
}.

(** [bigquery.SchemaField(name, field_type)]: the mode defaults to
    NULLABLE. *)
Definition SchemaField_ (n t : string) : SchemaField :=
  {| name := n; field_type := t; mode := NULLABLE |}.

Record LoadJobConfig := {
  source_format : SourceFormat;
  skip_leading_rows : nat;
  schema : option (list SchemaField);
  autodetect : bool;
  schema_update_options : list SchemaUpdateOption;
  write_disposition : WriteDisposition;
  max_bad_records : nat;
  ignore_unknown_values : bool
}.

(** One record of a source file: its named values, or a record the
    reader cannot parse or convert, with the reason and the offending
    text. *)
Inductive SourceRecord :=
| Parsed (fields : list (string * string))
| Malformed (reason offending : string).

(** A source file as the job reads it: the columns (with the types)
    that auto-detection finds in it, and its records after the header. *)
Record SourceFile := {
  columns : list (string * string);
  records : list SourceRecord
}.

(** A stored row maps a column to its value; an absent column is NULL. *)
Record Table := {
  table_schema : list SchemaField;
  table_rows : list (gmap string string)
}.

Definition num_rows (t : Table) : nat := length (table_rows t).

(** An entry of [load_job.errors]. *)
Record ErrorEntry := {
  reason : string;
  location : string;
  message : string
}.

(** [str(error)] of the entry, a dict of three strings: each value is
    written by [repr]. *)
Definition str_error (e : ErrorEntry) : string :=
  "{'reason': " +:+ repr_str (reason e) +:+ ", 'location': " +:+ repr_str (location e)
  +:+ ", 'message': " +:+ repr_str (message e) +:+ "}".

Definition names (sch : list SchemaField) : list string := name <$> sch.

Definition lookup_field (n : string) (sch : list SchemaField) : option SchemaField :=
  List.find (λ f, String.eqb (name f) n) sch.

Definition detect_schema (file : SourceFile) : list SchemaField :=
  (λ c, SchemaField_ c.1 c.2) <$> columns file.

(** The schema the job loads with: the one supplied, else the detected
    one, else the destination's. *)
Definition job_schema (cfg : LoadJobConfig) (file : SourceFile)
    (dest : list SchemaField) : list SchemaField :=
  match schema cfg with
  | Some sch => sch
  | None => if autodetect cfg then detect_schema file else dest
  end.

(** A field of the job's schema that the destination cannot take: its
    type differs, or it would make a nullable column required. *)
Definition conflicts (dest : list SchemaField) (f : SchemaField) : bool :=
  match lookup_field (name f) dest with
  | Some g =>
      negb (String.eqb (field_type g) (field_type f))
      || (bool_decide (mode g = NULLABLE) && bool_decide (mode f = REQUIRED))
  | None => false
  end.

(** A required column of the destination that the job's schema leaves
    out or has as nullable. *)
Definition needs_relaxation (job : list SchemaField) (g : SchemaField) : bool :=
  bool_decide (mode g = REQUIRED) &&
  match lookup_field (name g) job with
  | Some f => bool_decide (mode f = NULLABLE)
  | None => true
  end.

Definition relax (job : list SchemaField) (g : SchemaField) : SchemaField :=
  if needs_relaxation job g
  then {| name := name g; field_type := field_type g; mode := NULLABLE |}
  else g.

(** The exceptions the client library raises for a refusal of the
    service. Their class follows the reason the service gives; the text
    is the service's, and the wording written here stands for it. *)
Definition BadRequest (msg : string) : Py.Exn :=
  {| Py.exn_class := "BadRequest"; Py.exn_msg := msg |}.

Definition NotFound (msg : string) : Py.Exn :=
  {| Py.exn_class := "NotFound"; Py.exn_msg := msg |}.

(** The destination's schema after the job, or why the job is refused:
    new fields need ALLOW_FIELD_ADDITION, relaxed ones need
    ALLOW_FIELD_RELAXATION, and no option allows a conflict. *)
Definition update_schema (opts : list SchemaUpdateOption)
    (dest job : list SchemaField) : Py.Exn + list SchemaField :=
  let added := filter (λ f, name f ∉ names dest) job in
  if existsb (conflicts dest) job then
    inl (BadRequest "Provided Schema does not match Table. Field has changed type or mode")
  else if negb (bool_decide (added = []))
          && negb (bool_decide (ALLOW_FIELD_ADDITION ∈ opts)) then
    inl (BadRequest "Provided Schema does not match Table. Cannot add fields")
  else if existsb (needs_relaxation job) dest
          && negb (bool_decide (ALLOW_FIELD_RELAXATION ∈ opts)) then
    inl (BadRequest
           "Provided Schema does not match Table. Field has changed mode")
  else inr ((relax job <$> dest) ++ added).

(** One record against the job's schema [job] and the destination's
    schema after the update [final]: a row to store, or an error entry
    for a bad record. Values outside the job's schema are dropped when
    unknown values are ignored and make the record bad otherwise. *)
Definition read_record (cfg : LoadJobConfig) (uri : string)
    (job final : list SchemaField) (r : SourceRecord)
    : ErrorEntry + gmap string string :=
  match r with
  | Malformed why text =>
      inl {| reason := why; location := uri; message := text |}
  | Parsed fields =>
      let unknown := filter (λ kv, kv.1 ∉ names job) fields in
      let known := filter (λ kv, kv.1 ∈ names job) fields in
      let missing :=
        filter (λ g, mode g = REQUIRED ∧ name g ∉ known.*1) final in
      match unknown, missing with
      | kv :: _, _ =>
          if ignore_unknown_values cfg then
            match missing with
            | [] => inr (list_to_map known)
            | g :: _ =>
                inl {| reason := "invalid"; location := uri;
                       message := "Missing required field: " +:+ name g |}
            end
          else
            inl {| reason := "invalid"; location := uri;
                   message := "No such field: " +:+ kv.1 |}
      | [], g :: _ =>
          inl {| reason := "invalid"; location := uri;
                 message := "Missing required field: " +:+ name g |}
      | [], [] => inr (list_to_map known)
      end
  end.

Fixpoint lefts {A B} (l : list (A + B)) : list A :=
  match l with
  | [] => []
  | inl a :: l' => a :: lefts l'
  | inr _ :: l' => lefts l'
  end.

Fixpoint rights {A B} (l : list (A + B)) : list B :=
  match l with
  | [] => []
  | inl _ :: l' => rights l'
  | inr b :: l' => b :: rights l'
  end.

(** What a finished job leaves on the job object. *)
Record JobStatus := {
  errors : list ErrorEntry;
  output_rows : nat
}.

Definition empty_table : Table := {| table_schema := []; table_rows := [] |}.

(** The destination's schema once the job is accepted, or why it is
    refused. A destination that does not exist is created with the
    job's schema, and WRITE_TRUNCATE replaces the schema. *)
Definition final_schema (cfg : LoadJobConfig) (file : SourceFile)
    (dest : option Table) : Py.Exn + list SchemaField :=
  let job := job_schema cfg file (table_schema (default empty_table dest)) in
  match dest, write_disposition cfg with
  | None, _ | _, WRITE_TRUNCATE => inr job
  | Some t, _ => update_schema (schema_update_options cfg) (table_schema t) job
  end.

(** Every record of the file read against the schemas. *)
Definition read_file (cfg : LoadJobConfig) (uri : string) (file : SourceFile)
    (dest : option Table) (final : list SchemaField)
    : list (ErrorEntry + gmap string string) :=
  let job := job_schema cfg file (table_schema (default empty_table dest)) in
  read_record cfg uri job final <$> records file.

(** The job: the destination after it and its status, or the
    exception [result()] raises. The job fails when the schema update
    is refused, when more than [max_bad_records] records are bad, or
    when WRITE_EMPTY meets a table that has rows. *)
Definition run_load (cfg : LoadJobConfig) (uri : string) (file : SourceFile)
    (dest : option Table) : Py.Exn + (Table * JobStatus) :=
  let old := default empty_table dest in
  match final_schema cfg file dest with
  | inl e => inl e
  | inr final =>
      let read := read_file cfg uri file dest final in
      let bad := lefts read in
      let good := rights read in
      if (max_bad_records cfg <? length bad)%nat then
        inl (BadRequest ("Error while reading data, error message: Too many errors encountered. Rows: "
                         +:+ Py.str_nat (length (records file)) +:+ "; errors: "
                         +:+ Py.str_nat (length bad) +:+ "; max bad: "
                         +:+ Py.str_nat (max_bad_records cfg)))
      else
        match write_disposition cfg with
        | WRITE_APPEND =>
            inr ({| table_schema := final; table_rows := table_rows old ++ good |},
                 {| errors := bad; output_rows := length good |})
        | WRITE_TRUNCATE =>
            inr ({| table_schema := final; table_rows := good |},
                 {| errors := bad; output_rows := length good |})
        | WRITE_EMPTY =>
            if bool_decide (table_rows old = []) then
              inr ({| table_schema := final; table_rows := good |},
                   {| errors := bad; output_rows := length good |})
            else inl {| Py.exn_class := "Conflict";
                        Py.exn_msg := "Already Exists: Table" |}
        end
  end.

End BigQuery.

(** ** [src/ingest_gcp.py] *)

Module IngestGcp.
Import BigQuery.

(** The calls the module makes on its two clients, with the
    arguments that identify them. *)
Inductive Call :=
| upload_from_filename (gcs_uri local_file_path : string)
| get_dataset (dataset_id : string)
| create_dataset (dataset_id : string)
| load_table_from_uri (gcs_uri table_id : string)
| result (gcs_uri table_id : string)
| get_table (table_id : string).


Inductive FsEntry :=
| Dir (listing : list string)
| File (content : SourceFile).

(** What [storage_client] and [bq_client] talk to, and the local disk:
    paths on disk, objects in storage by URI, the dataset, its tables
    by id, the calls made so far, and which calls fail: the call [a]
    made after [n] others raises [faults n a] when that is an
    exception. *)
Record Cloud := {
  fs : gmap string FsEntry;
  blobs : gmap string SourceFile;
  dataset : bool;
  tables : gmap string Table;
  trace : list Call;
  faults : nat → Call → option Exn
}.

Definition record_call (a : Call) (c : Cloud) : Cloud :=
  {| fs := fs c; blobs := blobs c; dataset := dataset c; tables := tables c;
     trace := trace c ++ [a]; faults := faults c |}.

Definition set_blob (uri : string) (f : SourceFile) (c : Cloud) : Cloud :=
  {| fs := fs c; blobs := <[uri := f]> (blobs c); dataset := dataset c;
     tables := tables c; trace := trace c; faults := faults c |}.

Definition set_dataset (c : Cloud) : Cloud :=
  {| fs := fs c; blobs := blobs c; dataset := true; tables := tables c;
     trace := trace c; faults := faults c |}.

Definition set_table (table_id : string) (t : Table) (c : Cloud) : Cloud :=
  {| fs := fs c; blobs := blobs c; dataset := dataset c;
     tables := <[table_id := t]> (tables c); trace := trace c;
     faults := faults c |}.

Definition api {A} (a : Call) (f : Cloud → Outcome A * Cloud) : M Cloud A :=
  call (λ c,
    match faults c (length (trace c)) a with
    | Some e => (Raised e, record_call a c)
    | None => f (record_call a c)
    end).

Definition DATASET_ID : string := "gigmart".
Definition REGION : string := "asia-east1".

(** A submitted load job, before [result()]. *)
Record LoadJob := {
  job_uri : string;
  job_table : string;
  job_config : LoadJobConfig
}.

Section Program.
Variable PROJECT_ID : option string.
Variable BUCKET_NAME : string.
(** The [data] directory next to the sources, as an absolute path. *)
Variable base_dir : string.

(** [os.path.join(a, b)] for a relative [b]. *)
Definition path_join (a b : string) : string := a +:+ "/" +:+ b.

Definition os_path_exists (path : string) : M Cloud bool :=
  call (λ c, (Returned (bool_decide (is_Some (fs c !! path))), c)).

Definition os_listdir (path : string) : M Cloud (list string) :=
  call (λ c,
    match fs c !! path with
    | Some (Dir listing) => (Returned listing, c)
    | Some (File _) =>
        (Raised {| exn_class := "NotADirectoryError";
                   exn_msg := "[Errno 20] Not a directory: " +:+ repr_str path |}, c)
    | None =>
        (Raised {| exn_class := "FileNotFoundError";
                   exn_msg := "[Errno 2] No such file or directory: " +:+ repr_str path |}, c)
    end).

(** [bucket.blob(name).upload_from_filename(path)]. Any failure other
    than a path that is no regular file, such as a file that cannot be
    read or a refusal of the service, is a fault of the call. *)
Definition blob_upload_from_filename (destination_blob_name local_file_path : string)
    : M Cloud unit :=
  api (upload_from_filename ("gs://" +:+ BUCKET_NAME +:+ "/" +:+ destination_blob_name)
                            local_file_path) (λ c,
    match fs c !! local_file_path with
    | Some (File content) =>
        (Returned tt,
         set_blob ("gs://" +:+ BUCKET_NAME +:+ "/" +:+ destination_blob_name) content c)
    | Some (Dir _) =>
        (Raised {| exn_class := "IsADirectoryError";
                   exn_msg := "[Errno 21] Is a directory: " +:+ repr_str local_file_path |}, c)
    | None =>
        (Raised {| exn_class := "FileNotFoundError";
                   exn_msg := "[Errno 2] No such file or directory: "
                              +:+ repr_str local_file_path |}, c)
    end).

(** The dataset calls. The texts of the exceptions raised for a missing
    or an existing dataset, a missing object and a missing table stand
    for the service's wording. *)
Definition bq_get_dataset (dataset_id : string) : M Cloud unit :=
  api (get_dataset dataset_id) (λ c,
    if dataset c then (Returned tt, c)
    else (Raised (NotFound ("Not found: Dataset " +:+ dataset_id)), c)).

Definition bq_create_dataset (dataset_id : string) : M Cloud unit :=
  api (create_dataset dataset_id) (λ c,
    if dataset c
    then (Raised {| exn_class := "Conflict";
                    exn_msg := "Already Exists: Dataset " +:+ dataset_id |}, c)
    else (Returned tt, set_dataset c)).

Definition bq_load_table_from_uri (gcs_uri table_id : string)
    (job_config : LoadJobConfig) : M Cloud LoadJob :=
  api (load_table_from_uri gcs_uri table_id) (λ c,
    (Returned {| job_uri := gcs_uri; job_table := table_id;
                 job_config := job_config |}, c)).

(** [load_job.result()]: the job runs on the object at its URI. *)
Definition load_job_result (load_job : LoadJob) : M Cloud JobStatus :=
  api (result (job_uri load_job) (job_table load_job)) (λ c,
    match blobs c !! job_uri load_job with
    | None => (Raised (NotFound ("Not found: URI " +:+ job_uri load_job)), c)
    | Some file =>
        match run_load (job_config load_job) (job_uri load_job) file
                       (tables c !! job_table load_job) with
        | inl e => (Raised e, c)
        | inr (t, status) => (Returned status, set_table (job_table load_job) t c)
        end
    end).

Definition bq_get_table (table_id : string) : M Cloud Table :=
  api (get_table table_id) (λ c,
    match tables c !! table_id with
    | Some t => (Returned t, c)
    | None => (Raised (NotFound ("Not found: Table " +:+ table_id)), c)
    end).

Definition upload_to_gcs (local_file_path destination_blob_name : string)
    : M Cloud (option string) :=
  try_except
    (blob_upload_from_filename destination_blob_name local_file_path;;
     logging_info ("File " +:+ local_file_path +:+ " uploaded to "
                   +:+ destination_blob_name +:+ ".");;
     ret (Some ("gs://" +:+ BUCKET_NAME +:+ "/" +:+ destination_blob_name)))
    (λ e,
       logging_error ("Failed to upload " +:+ local_file_path +:+ ": " +:+ str_exn e);;
       ret None).

Definition create_dataset_if_not_exists : M Cloud unit :=
  let dataset_id := str_opt PROJECT_ID +:+ "." +:+ DATASET_ID in
  try_except
    (bq_get_dataset dataset_id;;
     logging_info ("Dataset " +:+ dataset_id +:+ " already exists."))
    (λ _,
       bq_create_dataset dataset_id;;
       logging_info ("Created dataset " +:+ dataset_id +:+ ".")).

(** The [job_config] of [load_csv_to_bq]. *)
Definition csv_job_config : LoadJobConfig :=
  {| source_format := CSV;
     skip_leading_rows := 1;
     schema := None;
     autodetect := true;
     schema_update_options := [ALLOW_FIELD_ADDITION; ALLOW_FIELD_RELAXATION];
     write_disposition := WRITE_APPEND;
     max_bad_records := 100;
     ignore_unknown_values := true |}.

Definition load_csv_to_bq (gcs_uri table_name : string) : M Cloud unit :=
  let table_id := str_opt PROJECT_ID +:+ "." +:+ DATASET_ID +:+ "." +:+ table_name in
  let job_config := csv_job_config in
  try_except
    (load_job <- bq_load_table_from_uri gcs_uri table_id job_config;;
     status <- load_job_result load_job;;
     table <- bq_get_table table_id;;
     logging_info ("Loaded " +:+ str_nat (num_rows table) +:+ " rows to " +:+ table_id);;
     (match errors status with
      | [] => ret tt
      | _ :: _ =>
          logging_warning ("Bad records in " +:+ table_name +:+ ": "
                           +:+ str_nat (length (errors status)) +:+ " errors");;
          for_each (take 5 (errors status))
            (λ error, logging_warning ("  Error: " +:+ str_error error))
      end);;
     if (num_rows table =? 0)%nat then
       logging_warning ("WARNING: Zero rows loaded to " +:+ table_id)
     else ret tt)
    (λ e, logging_error ("Failed to load " +:+ table_name +:+ ": " +:+ str_exn e)).

Definition pos_schema : list SchemaField :=
  [ SchemaField_ "transaction_id" "STRING";
    SchemaField_ "store_id" "STRING";
    SchemaField_ "customer_id" "STRING";
    SchemaField_ "product_id" "STRING";
    SchemaField_ "transaction_date" "DATE";
    SchemaField_ "quantity" "INTEGER";
    SchemaField_ "unit_price" "FLOAT";
    SchemaField_ "amount" "FLOAT";
    SchemaField_ "event_type" "STRING";
    SchemaField_ "currency" "STRING";
    SchemaField_ "timestamp" "TIMESTAMP" ].

Definition ecommerce_schema : list SchemaField :=
  [ SchemaField_ "order_id" "STRING";
    SchemaField_ "customer_id" "STRING";
    SchemaField_ "product_id" "STRING";
    SchemaField_ "order_date" "DATE";
    SchemaField_ "quantity" "INTEGER";
    SchemaField_ "unit_price" "FLOAT";
    SchemaField_ "store_id" "STRING";
    SchemaField_ "total_amount" "FLOAT";
    SchemaField_ "payment_type" "STRING";
    SchemaField_ "timestamp" "TIMESTAMP" ].

(** The explicit schema chosen by table name, [None] otherwise. *)
Definition json_schema (table_name : string) : option (list SchemaField) :=
  if String.eqb table_name "stg_pos_transactions" then Some pos_schema
  else if String.eqb table_name "stg_ecommerce_orders" then Some ecommerce_schema
  else None.

(** [bool(schema)]: a schema that is set and not empty. *)
Definition truthy {A} (o : option (list A)) : bool :=
  match o with Some (_ :: _) => true | _ => false end.

(** The [job_config] of [load_json_to_bq]. *)
Definition json_job_config (table_name : string) : LoadJobConfig :=
  let schema_ := json_schema table_name in
  {| source_format := NEWLINE_DELIMITED_JSON;
     skip_leading_rows := 0;
     schema := schema_;
     autodetect := bool_decide (schema_ = None);
     schema_update_options :=
       if truthy schema_ then [ALLOW_FIELD_ADDITION] else [];
     write_disposition := WRITE_APPEND;
     max_bad_records := 100;
     ignore_unknown_values := true |}.

Definition load_json_to_bq (gcs_uri table_name : string) : M Cloud unit :=
  let table_id := str_opt PROJECT_ID +:+ "." +:+ DATASET_ID +:+ "." +:+ table_name in
  let job_config := json_job_config table_name in
  try_except
    (load_job <- bq_load_table_from_uri gcs_uri table_id job_config;;
     status <- load_job_result load_job;;
     table <- bq_get_table table_id;;
     logging_info ("Loaded " +:+ str_nat (num_rows table) +:+ " rows to " +:+ table_id);;
     (match errors status with
      | [] => ret tt
      | _ :: _ =>
          logging_warning ("Bad records in " +:+ table_name +:+ ": "
                           +:+ str_nat (length (errors status)) +:+ " errors");;
          for_each (take 5 (errors status))
            (λ error, logging_warning ("  Error: " +:+ str_error error))
      end);;
     if (num_rows table =? 0)%nat then
       logging_warning ("WARNING: Zero rows loaded to " +:+ table_id)
     else ret tt)
    (λ e, logging_error ("Failed to load " +:+ table_name +:+ ": " +:+ str_exn e)).

(** The sources in the order the dict lists them: folder, staging
    table, loader. *)
Definition ingestion_map
    : list (string * (string * (string → string → M Cloud unit))) :=
  [ ("crm", ("stg_crm_customers", load_csv_to_bq));
    ("erp", ("stg_erp_inventory", load_csv_to_bq));
    ("ecommerce", ("stg_ecommerce_orders", load_json_to_bq));
    ("pos", ("stg_pos_transactions", load_json_to_bq)) ].

(** [bool(s)] of a string; [None] is falsy as well. *)
Definition truthy_str (s : string) : bool := negb (String.eqb s "").

(** The body of the inner loop, for one file name. *)
Definition ingest_file (source_folder table_name : string)
    (loader_func : string → string → M Cloud unit) (folder_path filename : string)
    : M Cloud unit :=
  let file_path := path_join folder_path filename in
  let gcs_blob_name := source_folder +:+ "/" +:+ filename in
  gcs_uri <- upload_to_gcs file_path gcs_blob_name;;
  match gcs_uri with
  | Some uri =>
      if truthy_str uri then
        if endswith filename ".csv" || endswith filename ".json" then
          logging_info ("Triggering BigQuery load for " +:+ table_name +:+ "...");;
          loader_func uri table_name
        else ret tt
      else ret tt
  | None => ret tt
  end.

(** The body of the outer loop, for one source. *)
Definition ingest_source
    (item : string * (string * (string → string → M Cloud unit))) : M Cloud unit :=
  let '(source_folder, (table_name, loader_func)) := item in
  let folder_path := path_join base_dir source_folder in
  found <- os_path_exists folder_path;;
  if negb found then
    logging_warning ("Directory not found: " +:+ folder_path)
  else
    listing <- os_listdir folder_path;;
    for_each listing (ingest_file source_folder table_name loader_func folder_path).

Definition main : M Cloud unit :=
  logging_info ("Looking for data in: " +:+ base_dir);;
  create_dataset_if_not_exists;;
  for_each ingestion_map ingest_source.

End Program.

End IngestGcp.

(** ** Vocabulary for the properties of the quality gate *)

Module GateSpec.
Import CheckDataQuality.

Implicit Types (s : St Client).

(** The exception raised by a check's query at state [s], if any: by
    the submission, or else by the wait for the result. *)
Definition query_raises s : option Exn :=
  match faults (world s) (calls (world s)) with
  | Some e => Some e
  | None => faults (world s) (S (calls (world s)))
  end.

(** The state after [n] more calls and one more log record. *)
Definition after (n : nat) (l : Level) (text : string) s : St Client :=
  {| world := {| warehouse := warehouse (world s); faults := faults (world s);
                 calls := n + calls (world s) |};
     logs := logs s ++ [{| levelname := l; msg := text |}] |}.

(** The state in which the first check runs. *)
Definition gate_started (PROJECT_ID : option string) s : St Client :=
  (logging_info ("Starting Data Quality Checks on "
                 +:+ (str_opt PROJECT_ID +:+ "." +:+ DATASET_ID) +:+ "...") s).2.

(** [results[0][0] if results else 0], when the indexing succeeds. *)
Definition observed_count (results : list Row) : option Cell :=
  match results with
  | [] => Some (CInt 0)
  | [] :: _ => None
  | (c :: _) :: _ => Some c
  end.

End GateSpec.

(** ** Vocabulary for the properties of the batch loader *)

Module IngestSpec.
Import BigQuery IngestGcp.

(** The error entries of the malformed records of a file. *)
Definition malformed (gcs_uri : string) (file : SourceFile) : list ErrorEntry :=
  omap (λ r, match r with
             | Malformed why text =>
                 Some {| reason := why; location := gcs_uri; message := text |}
             | Parsed _ => None
             end) (records file).

(** The rows of the parsed records of a file, cut to the schema
    [job]. *)
Definition parsed_rows (job : list SchemaField) (file : SourceFile)
    : list (gmap string string) :=
  omap (λ r, match r with
             | Parsed fields =>
                 Some (list_to_map (filter (λ kv, kv.1 ∈ names job) fields))
             | Malformed _ _ => None
             end) (records file).

Definition all_nullable (sch : list SchemaField) : Prop :=
  Forall (λ f, mode f = NULLABLE) sch.

(** The schema a loader's job loads with. *)
Definition schema_of (cfg : LoadJobConfig) (file : SourceFile)
    (dest : option Table) : list SchemaField :=
  job_schema cfg file (table_schema (default empty_table dest)).

Section Env.
Variable PROJECT_ID : option string.
Variable BUCKET_NAME : string.
Variable base_dir : string.

(** The id of a staging table and the URI a file is uploaded to. *)
Definition table_id_of (table_name : string) : string :=
  str_opt PROJECT_ID +:+ "." +:+ DATASET_ID +:+ "." +:+ table_name.

Definition uri_of (source_folder filename : string) : string :=
  "gs://" +:+ BUCKET_NAME +:+ "/" +:+ (source_folder +:+ "/" +:+ filename).

(** No fault hits the three calls of a load started in [c]. *)
Definition load_calls_succeed (gcs_uri table_id : string) (c : Cloud) : Prop :=
  faults c (length (trace c)) (load_table_from_uri gcs_uri table_id) = None ∧
  faults c (S (length (trace c))) (result gcs_uri table_id) = None ∧
  faults c (S (S (length (trace c)))) (get_table table_id) = None.



(** The world after a load whose three calls and job succeeded. *)
Definition loaded (gcs_uri table_id : string) (t : Table) (c : Cloud) : Cloud :=
  record_call (get_table table_id)
    (set_table table_id t
       (record_call (result gcs_uri table_id)
          (record_call (load_table_from_uri gcs_uri table_id) c))).

(** What a loader logs after a job that succeeded, given the table
    it then reads back and the job's status. *)
Definition report (table_name : string) (t : Table) (st : JobStatus)
    : list LogRecord :=
  [{| levelname := INFO;
      msg := "Loaded " +:+ str_nat (num_rows t) +:+ " rows to "
             +:+ table_id_of table_name |}]
  ++ match errors st with
     | [] => []
     | _ :: _ =>
         {| levelname := WARNING;
            msg := "Bad records in " +:+ table_name +:+ ": "
                   +:+ str_nat (length (errors st)) +:+ " errors" |}
         :: ((λ e, {| levelname := WARNING;
                      msg := "  Error: " +:+ str_error e |})
               <$> take 5 (errors st))
     end
  ++ (if (num_rows t =? 0)%nat
      then [{| levelname := WARNING;
               msg := "WARNING: Zero rows loaded to "
                      +:+ table_id_of table_name |}]
      else []).

(** Both loaders are the same program up to the job configuration. *)
Definition load_with (cfg : LoadJobConfig) (gcs_uri table_name : string) : M Cloud unit :=
  try_except
    (load_job <- bq_load_table_from_uri gcs_uri (table_id_of table_name) cfg;;
     status <- load_job_result load_job;;
     table <- bq_get_table (table_id_of table_name);;
     logging_info ("Loaded " +:+ str_nat (num_rows table) +:+ " rows to "
                   +:+ table_id_of table_name);;
     (match errors status with
      | [] => ret tt
      | _ :: _ =>
          logging_warning ("Bad records in " +:+ table_name +:+ ": "
                           +:+ str_nat (length (errors status)) +:+ " errors");;
          for_each (take 5 (errors status))
            (λ error, logging_warning ("  Error: " +:+ str_error error))
      end);;
     if (num_rows table =? 0)%nat then
       logging_warning ("WARNING: Zero rows loaded to " +:+ table_id_of table_name)
     else ret tt)
    (λ e, logging_error ("Failed to load " +:+ table_name +:+ ": " +:+ str_exn e)).

(** [loader] is one of the two loaders and [cfg] the configuration it
    builds for [table_name]. *)
Definition is_loader (loader : string → string → M Cloud unit)
    (cfg : LoadJobConfig) (table_name : string) : Prop :=
  (loader = load_csv_to_bq PROJECT_ID ∧ cfg = csv_job_config) ∨
  (loader = load_json_to_bq PROJECT_ID ∧ cfg = json_job_config table_name).


(** The load jobs requested in a trace: URI and destination. *)
Definition loads (tr : list Call) : list (string * string) :=
  omap (λ a, match a with
             | load_table_from_uri u t => Some (u, t)
             | _ => None
             end) tr.







(** [needle in haystack] *)
Definition mentions (needle haystack : string) : bool :=
  bool_decide (is_Some (String.index 0 needle haystack)).

(** The records logged since the state [s]. *)
Definition logged_since (s s' : St Cloud) : list LogRecord :=
  drop (length (logs s)) (logs s').

(** A load of [gcs_uri] by [loader] reports every malformed record of
    the file it loads: some record logged during the load mentions
    both its reason and its offending text. *)
Definition every_skipped_record_reported
    (loader : string → string → M Cloud unit)
    (gcs_uri table_name : string) (s : St Cloud) : Prop :=
  ∀ file why text,
    blobs (world s) !! gcs_uri = Some file →
    Malformed why text ∈ records file →
    ∃ r, r ∈ logged_since s (loader gcs_uri table_name s).2 ∧
         mentions why (msg r) = true ∧
         mentions text (msg r) = true.

(** A load of [gcs_uri] by [loader] widens the table: a column of the
    file that the destination lacks is a column of the destination
    afterwards. *)
Definition extra_columns_widen
    (loader : string → string → M Cloud unit)
    (gcs_uri table_name : string) (s : St Cloud) : Prop :=
  ∀ file t col val fields,
    blobs (world s) !! gcs_uri = Some file →
    tables (world s) !! table_id_of table_name = Some t →
    Parsed fields ∈ records file → (col, val) ∈ fields →
    col ∉ names (table_schema t) →
    ∃ t', tables (world (loader gcs_uri table_name s).2) !! table_id_of table_name
            = Some t' ∧
          col ∈ names (table_schema t').


End Env.

End IngestSpec.

(** ** Sample warehouse and landing states *)

Module Scenarios.

Module Gate.
Import CheckDataQuality.

Definition cust_1 : Dim.row :=
  {| Dim.customer_sk := 1; Dim.customer_id := "cust_1";
     Dim.first_name := Some "Alice"; Dim.last_name := None;
     Dim.email := None; Dim.loyalty_status := None;
     Dim.city := Some "NY"; Dim.country := None;
     Dim.valid_from := 0; Dim.valid_to := None; Dim.is_current := true |}.

Definition tx (id : string) (sk : Z) : Fact.row :=
  {| Fact.transaction_id := id; Fact.customer_sk := Some sk;
     Fact.product_id := Some "p_1"; Fact.transaction_date := Some 19000%Z;
     Fact.quantity := Some 2%Z;
     Fact.unit_price := Some (S754_finite false 9 (-1));
     Fact.total_amount := Some (S754_finite false 9 0);
     Fact.source_system := Some "POS";
     Fact.created_at := Some 1000%Z |}.

(** Every transaction resolved, every id distinct. *)
Definition clean : Warehouse :=
  {| fact_transactions := [tx "tx_1" 1; tx "tx_2" 1];
     dim_customers := [cust_1] |}.

(** Scenario D: [tx_9] refers to [cust_404], which has no dimension
    row, and is written with the sentinel key. *)
Definition scenario_D : Warehouse :=
  {| fact_transactions := [tx "tx_1" 1; tx "tx_9" (-1)];
     dim_customers := [cust_1] |}.

(** A client whose first call fails. *)
Definition unreachable : nat → option Exn :=
  λ n, match n with
       | 0 => Some {| exn_class := "ServiceUnavailable";
                      exn_msg := "503 backend unavailable" |}
       | _ => None
       end.

Definition clean_run : St Client := start clean no_faults.
Definition scenario_D_run : St Client := start scenario_D no_faults.
Definition outage_run : St Client := start clean unreachable.

(** A warehouse whose queries come back without any row. *)
Definition no_rows : Query := λ _, [].
End Gate.

Module Landing.
Import BigQuery IngestGcp.

Definition project : option string := Some "proj".
Definition bucket : string := "landing".
Definition data : string := "/app/data".

Definition no_faults : nat → Call → option Exn := λ _ _, None.


Definition unreadable (n : nat) : SourceRecord :=
  Malformed "invalid" ("Could not parse line " +:+ str_nat n).

(** A CRM extract with one good record and six unreadable ones. *)
Definition customers_csv : SourceFile :=
  {| columns := [("customer_id", "STRING"); ("name", "STRING")];
     records := Parsed [("customer_id", "cust_1"); ("name", "Alice")]
                :: (unreadable <$> seq 2 6) |}.

(** A CRM extract in which all 101 records are unreadable. *)
Definition corrupt_csv : SourceFile :=
  {| columns := [("customer_id", "STRING"); ("name", "STRING")];
     records := unreadable <$> seq 2 101 |}.

(** A CRM extract with a new column and without [name]. *)
Definition customers_v2_csv : SourceFile :=
  {| columns := [("customer_id", "STRING"); ("loyalty_points", "INTEGER")];
     records := [Parsed [("customer_id", "cust_2"); ("loyalty_points", "12")]] |}.

Definition stg_crm_customers : Table :=
  {| table_schema := [SchemaField_ "customer_id" "STRING"; SchemaField_ "name" "STRING"];
     table_rows := [{[ "customer_id" := "cust_0"; "name" := "Zed" ]}] |}.

(** A POS batch whose one record carries a field the table lacks and
    leaves [currency] out. *)
Definition pos_json : SourceFile :=
  {| columns := [("transaction_id", "STRING"); ("amount", "FLOAT");
                 ("loyalty_points", "INTEGER")];
     records := [Parsed [("transaction_id", "tx_7"); ("amount", "9.0");
                         ("loyalty_points", "12")]] |}.

(** A POS batch with no record at all. *)
Definition empty_json : SourceFile := {| columns := []; records := [] |}.

Definition stg_pos_transactions : Table :=
  {| table_schema := pos_schema;
     table_rows := [{[ "transaction_id" := "tx_1"; "amount" := "3.5" ]}] |}.

Definition cloud (disk : gmap string FsEntry) (objects : gmap string SourceFile)
    (tbls : gmap string Table) (plan : nat → Call → option Exn) : St Cloud :=
  {| world := {| fs := disk; blobs := objects; dataset := true; tables := tbls;
                 trace := []; faults := plan |};
     logs := [] |}.

(** The six-bad-records extract uploaded, its table not yet there. *)
Definition crm_uploaded : St Cloud :=
  cloud ∅ {[ "gs://landing/crm/customers.csv" := customers_csv ]} ∅ no_faults.

(** The corrupt extract uploaded next to an existing table. *)
Definition crm_corrupt : St Cloud :=
  cloud ∅ {[ "gs://landing/crm/corrupt.csv" := corrupt_csv ]}
    {[ "proj.gigmart.stg_crm_customers" := stg_crm_customers ]} no_faults.

(** The drifted extract uploaded next to an existing table. *)
Definition crm_drifted : St Cloud :=
  cloud ∅ {[ "gs://landing/crm/customers_v2.csv" := customers_v2_csv ]}
    {[ "proj.gigmart.stg_crm_customers" := stg_crm_customers ]} no_faults.

(** The POS batch with the extra field uploaded next to its table. *)
Definition pos_drifted : St Cloud :=
  cloud ∅ {[ "gs://landing/pos/day2.json" := pos_json ]}
    {[ "proj.gigmart.stg_pos_transactions" := stg_pos_transactions ]} no_faults.

(** The empty POS batch uploaded next to a table that has a row. *)
Definition pos_empty_batch : St Cloud :=
  cloud ∅ {[ "gs://landing/pos/day3.json" := empty_json ]}
    {[ "proj.gigmart.stg_pos_transactions" := stg_pos_transactions ]} no_faults.

(** A landing area with a CRM extract and a note beside it, and two POS
    batches of newline-delimited JSON, one of them named [.ndjson]. *)
Definition disk : gmap string FsEntry :=
  {[ "/app/data/crm" := Dir ["customers.csv"; "README.txt"];
     "/app/data/crm/customers.csv" := File customers_csv;
     "/app/data/crm/README.txt" := File {| columns := []; records := [] |};
     "/app/data/pos" := Dir ["day2.json"; "day3.ndjson"];
     "/app/data/pos/day2.json" := File pos_json;
     "/app/data/pos/day3.ndjson" := File pos_json ]}.

Definition landing : St Cloud := cloud disk ∅ ∅ no_faults.

(** The first call of the run fails; nothing else does. *)
Definition lookup_down : nat → Call → option Exn :=
  λ n _, match n with
         | 0 => Some {| exn_class := "ServiceUnavailable";
                        exn_msg := "503 backend unavailable" |}
         | _ => None
         end.

Definition landing_lookup_down : St Cloud := cloud disk ∅ ∅ lookup_down.



(** A project with a dataset and nothing else: no folder, no object,
    no table. *)
Definition bare : St Cloud := cloud ∅ ∅ ∅ no_faults.

(** A batch of returns with a column its table lacks. *)
Definition returns_json : SourceFile :=
  {| columns := [("return_id", "STRING"); ("reason", "STRING")];
     records := [Parsed [("return_id", "r_1"); ("reason", "damaged")]] |}.

Definition stg_returns : Table :=
  {| table_schema := [SchemaField_ "return_id" "STRING"];
     table_rows := [{[ "return_id" := "r_0" ]}] |}.

Definition returns_uploaded : St Cloud :=
  cloud ∅ {[ "gs://landing/returns/day1.json" := returns_json ]}
    {[ "proj.gigmart.stg_returns" := stg_returns ]} no_faults.
End Landing.

End Scenarios.

(** ** The invariants the quality gate checks *)

Module GateInvariants.
Import CheckDataQuality.

(** Every fact row has a key, and the key is that of a dimension row. *)
Definition referentially_intact (w : Warehouse) : Prop :=
  ∀ f, f ∈ fact_transactions w →
    ∃ k, Fact.customer_sk f = Some k ∧
         ∃ d, d ∈ dim_customers w ∧ Dim.customer_sk d = k.

(** No fact row lacks its amount or its creation time. *)
Definition complete (w : Warehouse) : Prop :=
  ∀ f, f ∈ fact_transactions w →
    Fact.total_amount f ≠ None ∧ Fact.created_at f ≠ None.

(** No closed dimension row ends before it starts. *)
Definition temporally_valid (w : Warehouse) : Prop :=
  ∀ d vt, d ∈ dim_customers w → Dim.valid_to d = Some vt →
    (Dim.valid_from d ≤ vt)%Z.

Definition unique (w : Warehouse) : Prop :=
  NoDup (Fact.transaction_id <$> fact_transactions w).

(** No call of the client ever fails. *)
Definition never_faults (s : St Client) : Prop :=
  ∀ n, faults (world s) n = None.

(** The line a check named [name] logs: a pass, a failure or an error. *)
Definition reports (name : string) (r : LogRecord) : Prop :=
  r = {| levelname := INFO; msg := "[PASS] " +:+ name |} ∨
  (∃ rest, r = {| levelname := ERROR; msg := "[FAIL] " +:+ name +:+ ": Expected " +:+ rest |}) ∨
  (∃ rest, r = {| levelname := ERROR; msg := "[ERROR] " +:+ name +:+ ": " +:+ rest |}).

(** The last line of the gate. *)
Definition verdict (passed : bool) : LogRecord :=
  if passed
  then {| levelname := INFO; msg := "All Data Quality checks passed successfully!" |}
  else {| levelname := ERROR; msg := "Some Data Quality checks failed." |}.

End GateInvariants.

(** ** Further vocabulary for the batch loader *)

Module IngestFacts.
Import BigQuery IngestGcp IngestSpec.

(** No call of either client ever fails. *)
Definition quiet (c : Cloud) : Prop := ∀ n a, faults c n a = None.


Section Env.
Variable PROJECT_ID : option string.
Variable BUCKET_NAME : string.
Variable base_dir : string.

(** The ids of the four staging tables. *)
Definition staging_tables : list string :=
  (λ item, table_id_of PROJECT_ID item.2.1) <$> ingestion_map PROJECT_ID.

(** From [s] to [s'] no object left the bucket, and every load
    requested in between is for an object that is in the bucket and
    goes to a staging table. *)
Definition requests_sound (s s' : St Cloud) : Prop :=
  (∀ u, is_Some (blobs (world s) !! u) → is_Some (blobs (world s') !! u)) ∧
  ∃ new,
    loads (trace (world s')) = loads (trace (world s)) ++ new ∧
    ∀ u t, (u, t) ∈ new →
      is_Some (blobs (world s') !! u) ∧ t ∈ staging_tables.

(** However a loader ends, it leaves the bucket as it was and has
    requested the one load it was called for. *)
Definition loader_frame (loader : string → string → M Cloud unit) : Prop :=
  ∀ gcs_uri table_name s r s',
    loader gcs_uri table_name s = (r, s') →
    blobs (world s') = blobs (world s) ∧
    loads (trace (world s'))
    = loads (trace (world s)) ++ [(gcs_uri, table_id_of PROJECT_ID table_name)].

(** A program keeps [requests_sound], however it ends. *)
Definition keeps_sound {A} (m : M Cloud A) : Prop :=
  ∀ s r s', m s = (r, s') → requests_sound s s'.

(** The path of a file of a source folder. *)
Definition local_path (source_folder filename : string) : string :=
  path_join (path_join base_dir source_folder) filename.

(** From [s] to [s'], with [disk] the unchanged disk: every object of
    the bucket is as it was or is the content of the file it was
    uploaded from. *)
Definition mirrors (disk : gmap string FsEntry) (s s' : St Cloud) : Prop :=
  fs (world s') = disk ∧
  faults (world s') = faults (world s) ∧
  ∀ u,
    blobs (world s') !! u = blobs (world s) !! u ∨
    ∃ source_folder filename content,
      u = uri_of BUCKET_NAME source_folder filename ∧
      disk !! local_path source_folder filename = Some (File content) ∧
      blobs (world s') !! u = Some content.



(** No source folder exists. *)
Definition no_source_folder (disk : gmap string FsEntry) : Prop :=
  ∀ item, item ∈ ingestion_map PROJECT_ID →
    disk !! path_join base_dir item.1 = None.

(** The warnings for the four missing folders. *)
Definition folders_missing_warnings : list LogRecord :=
  (λ item, {| levelname := WARNING;
              msg := "Directory not found: " +:+ path_join base_dir item.1 |})
    <$> ingestion_map PROJECT_ID.

End Env.

End IngestFacts.

(** ** The transformation runner: [Section_A/src/run_pipeline.py]

    The runner reads SQL scripts from disk and submits them. The scripts
    are not among the sources, so what a query does to the tables is left
    out of the state: the world records which statements were submitted,
    in which order, and which calls failed. *)

Module RunPipeline.
Import Py.

Inductive Call :=
| get_dataset (dataset_id : string)
| create_dataset (dataset_id : string)
| query (sql : string)
| result (sql : string).

(** An entry of the local disk: a directory, a regular file that opens
    and whose content decodes to [text], or a regular file for which
    [open] or [read] raises [e] (no permission, or bytes that do not
    decode in the locale's encoding). *)
Inductive FsEntry :=
| Dir
| File (text : string)
| Unreadable (e : Exn).

(** The local disk, the dataset, the calls made so far, and which calls
    fail: the call [a] made after [n] others raises [faults n a] when
    that is an exception. *)
Record Project := {
  fs : gmap string FsEntry;
  dataset : bool;
  trace : list Call;
  faults : nat → Call → option Exn
}.

Definition record_call (a : Call) (c : Project) : Project :=
  {| fs := fs c; dataset := dataset c; trace := trace c ++ [a]; faults := faults c |}.

Definition set_dataset (c : Project) : Project :=
  {| fs := fs c; dataset := true; trace := trace c; faults := faults c |}.

Definition api {A} (a : Call) (f : Project → Outcome A * Project) : M Project A :=
  call (λ c,
    match faults c (length (trace c)) a with
    | Some e => (Raised e, record_call a c)
    | None => f (record_call a c)
    end).

Definition DATASET_ID : string := "gigmart".
Definition REGION : string := "asia-east1".

(** [s.replace(old, new)] for a non-empty [old]: the occurrences of
    [old] are found from the left and do not overlap. [skip] counts the
    characters of an occurrence still to be passed over. *)
Fixpoint replace_from (skip : nat) (s old new : string) : string :=
  match s with
  | EmptyString => EmptyString
  | String c rest =>
      match skip with
      | S k => replace_from k rest old new
      | 0 =>
          if String.prefix old s
          then new +:+ replace_from (String.length old - 1) rest old new
          else String c (replace_from 0 rest old new)
      end
  end.

Definition str_replace (s old new : string) : string := replace_from 0 s old new.

Section Program.
Variable PROJECT_ID : option string.
(** The directory above the sources, as an absolute path. *)
Variable base_dir : string.

(** [os.path.join(a, b)] for a relative [b]. *)
Definition path_join (a b : string) : string := a +:+ "/" +:+ b.

Definition os_path_exists (path : string) : M Project bool :=
  call (λ c, (Returned (bool_decide (is_Some (fs c !! path))), c)).

(** [with open(path, 'r') as f: f.read()] *)
Definition read_text (path : string) : M Project string :=
  call (λ c,
    match fs c !! path with
    | Some (File text) => (Returned text, c)
    | Some (Unreadable e) => (Raised e, c)
    | Some Dir =>
        (Raised {| exn_class := "IsADirectoryError";
                   exn_msg := "[Errno 21] Is a directory: " +:+ repr_str path |}, c)
    | None =>
        (Raised {| exn_class := "FileNotFoundError";
                   exn_msg := "[Errno 2] No such file or directory: " +:+ repr_str path |}, c)
    end).

(** [client.query(sql)]: the job, known by its statement. *)
Definition client_query (sql : string) : M Project string :=
  api (query sql) (λ c, (Returned sql, c)).

(** [query_job.result()] *)
Definition query_job_result (query_job : string) : M Project unit :=
  api (result query_job) (λ c, (Returned tt, c)).

(** The dataset calls; the texts of their exceptions stand for the
    service's wording. *)
Definition client_get_dataset (dataset_id : string) : M Project unit :=
  api (get_dataset dataset_id) (λ c,
    if dataset c then (Returned tt, c)
    else (Raised {| exn_class := "NotFound";
                    exn_msg := "Not found: Dataset " +:+ dataset_id |}, c)).

Definition client_create_dataset (dataset_id : string) : M Project unit :=
  api (create_dataset dataset_id) (λ c,
    if dataset c
    then (Raised {| exn_class := "Conflict";
                    exn_msg := "Already Exists: Dataset " +:+ dataset_id |}, c)
    else (Returned tt, set_dataset c)).

Definition run_bq_script (file_path : string) : M Project bool :=
  found <- os_path_exists file_path;;
  if negb found then
    logging_error ("SQL file not found: " +:+ file_path);;
    ret false
  else
    logging_info ("Reading SQL script: " +:+ file_path);;
    query <- read_text file_path;;
    try_except
      (let query := str_replace query "`gigmart."
                      ("`" +:+ str_opt PROJECT_ID +:+ ".gigmart.") in
       logging_info ("Starting execution of " +:+ file_path +:+ "...");;
       query_job <- client_query query;;
       query_job_result query_job;;
       logging_info ("Successfully executed " +:+ file_path +:+ ".");;
       ret true)
      (λ e,
         logging_error ("Error running " +:+ file_path +:+ ": " +:+ str_exn e);;
         ret false).

Definition create_dataset_if_not_exists : M Project unit :=
  let dataset_id := str_opt PROJECT_ID +:+ "." +:+ DATASET_ID in
  try_except
    (client_get_dataset dataset_id;;
     logging_info ("Dataset " +:+ dataset_id +:+ " already exists."))
    (λ _,
       client_create_dataset dataset_id;;
       logging_info ("Created dataset " +:+ dataset_id +:+ ".")).

Definition create_dim_customers : string :=
  "
    CREATE TABLE IF NOT EXISTS `" +:+ str_opt PROJECT_ID +:+ "." +:+ DATASET_ID +:+ ".dim_customers` (
        customer_sk INT64 NOT NULL,
        customer_id STRING NOT NULL,
        first_name STRING,
        last_name STRING,
        email STRING,
        loyalty_status STRING,
        city STRING,
        country STRING,
        valid_from TIMESTAMP NOT NULL,
        valid_to TIMESTAMP,
        is_current BOOL NOT NULL
    )
    ".

Definition create_dim_product : string :=
  "
    CREATE TABLE IF NOT EXISTS `" +:+ str_opt PROJECT_ID +:+ "." +:+ DATASET_ID +:+ ".dim_product` (
        product_sk INT64 NOT NULL,
        product_id STRING NOT NULL,
        product_name STRING,
        category STRING,
        brand STRING,
        supplier STRING,
        valid_from TIMESTAMP NOT NULL,
        valid_to TIMESTAMP,
        is_current BOOL NOT NULL
    )
    ".

Definition create_fact_transactions : string :=
  "
    CREATE TABLE IF NOT EXISTS `" +:+ str_opt PROJECT_ID +:+ "." +:+ DATASET_ID +:+ ".fact_transactions` (
        transaction_id STRING NOT NULL,
        customer_sk INT64,
        product_id STRING,
        transaction_date DATE,
        quantity INT64,
        unit_price FLOAT64,
        total_amount FLOAT64,
        source_system STRING,
        created_at TIMESTAMP
    )
    ".

Definition tables : list (string * string) :=
  [ ("dim_customers", create_dim_customers);
    ("dim_product", create_dim_product);
    ("fact_transactions", create_fact_transactions) ].

(** The body of the loop over [tables]. *)
Definition create_table (item : string * string) : M Project unit :=
  let '(table_name, create_sql) := item in
  try_except
    (query_job <- client_query create_sql;;
     query_job_result query_job;;
     logging_info ("Table " +:+ table_name +:+ " created or already exists."))
    (λ e, logging_error ("Error creating " +:+ table_name +:+ ": " +:+ str_exn e)).

Definition create_dimension_tables : M Project unit :=
  for_each tables create_table.

Definition scripts : list string :=
  [ path_join base_dir "sql/dim_customers_scd2_bq.sql";
    path_join base_dir "sql/dim_product_bq.sql";
    path_join base_dir "sql/stg_pos_clean_bq.sql";
    path_join base_dir "sql/stg_ecommerce_clean_bq.sql";
    path_join base_dir "sql/audit_log_bq.sql";
    path_join base_dir "sql/fact_transactions_bq.sql" ].

(** [for script in scripts: ... break] *)
Fixpoint run_scripts (scripts : list string) : M Project unit :=
  match scripts with
  | [] => ret tt
  | script :: rest =>
      success <- run_bq_script script;;
      if negb success then
        logging_error ("Pipeline stopped due to failure in " +:+ script)
      else run_scripts rest
  end.

Definition main : M Project unit :=
  logging_info "Starting Transformation Pipeline...";;
  create_dataset_if_not_exists;;
  create_dimension_tables;;
  logging_info "Starting Transformation Pipeline...";;
  run_scripts scripts;;
  logging_info "Transformation Pipeline Completed.".

End Program.

End RunPipeline.

(** ** Vocabulary for the properties of the transformation runner *)

Module PipelineSpec.
Import Py RunPipeline.

(** [needle in s] *)
Fixpoint occurs_in (needle s : string) : bool :=
  String.prefix needle s ||
  match s with
  | EmptyString => false
  | String _ rest => occurs_in needle rest
  end.

(** [c in s], for a character. *)
Fixpoint has_char (c : Ascii.ascii) (s : string) : bool :=
  match s with
  | EmptyString => false
  | String d rest => Ascii.eqb c d || has_char c rest
  end.

(** The statements handed to [client.query] in a trace, accepted or
    not. *)
Definition submitted (tr : list Call) : list string :=
  omap (λ a, match a with query sql => Some sql | _ => None end) tr.

Section Env.
Variable PROJECT_ID : option string.

(** A script's text as it is submitted. *)
Definition qualified (text : string) : string :=
  str_replace text "`gigmart." ("`" +:+ str_opt PROJECT_ID +:+ ".gigmart.").

(** The calls of a statement that runs to its end. *)
Definition calls_of (sql : string) : list Call := [query sql; result sql].

(** No fault hits the next [n] calls of [c]. *)
Definition next_calls_succeed (n : nat) (c : Project) : Prop :=
  ∀ k a, k < n → faults c (length (trace c) + k) a = None.

(** The script at [path] cannot run to its end when it starts after
    [n] calls: it is missing, or it is read and one of its two calls
    fails. *)
Definition script_fails_after (n : nat) (path : string) (c : Project) : Prop :=
  fs c !! path = None ∨
  ∃ text, fs c !! path = Some (File text) ∧
    (faults c n (query (qualified text)) ≠ None ∨
     faults c (S n) (result (qualified text)) ≠ None).

(** The calls of the script at [path]. *)
Definition calls_of_script (path : string) (c : Project) (a : Call) : Prop :=
  ∃ text, fs c !! path = Some (File text) ∧ a ∈ calls_of (qualified text).

(** Reading the script at [path] raises [e]: the path is a directory,
    or a file that cannot be opened or decoded. *)
Definition read_raises (path : string) (c : Project) (e : Exn) : Prop :=
  (fs c !! path = Some Dir ∧ exn_class e = "IsADirectoryError") ∨
  fs c !! path = Some (Unreadable e).

(** The script at [path] is missing or can be read. *)
Definition readable_or_missing (path : string) (c : Project) : Prop :=
  fs c !! path = None ∨ ∃ text, fs c !! path = Some (File text).

(** The line a table's creation logs. *)
Definition table_report (table_name : string) (r : LogRecord) : Prop :=
  r = {| levelname := INFO;
         msg := "Table " +:+ table_name +:+ " created or already exists." |} ∨
  ∃ e, r = {| levelname := ERROR;
              msg := "Error creating " +:+ table_name +:+ ": " +:+ str_exn e |}.

End Env.

End PipelineSpec.

(** ** The scheduled pipeline: [Section_A/dags/retail_etl_dag.py]

    The file declares eight tasks and the order between them. A task
    runs only after every task it depends on has run (the scheduler's
    default rule), which is all that is used of the scheduler here. *)

Module RetailEtlDag.

Inductive Task :=
| task_ingest_crm
| task_update_dim_customers
| task_build_dim_product
| task_create_audit_table
| task_cleanse_pos
| task_cleanse_ecommerce
| task_build_facts
| task_data_quality_checks.

#[global] Instance Task_eq_dec : EqDecision Task.
Proof. solve_decision. Defined.

(** The file a task hands to [read_sql], for the tasks that submit a
    script. *)
Definition read_sql_file (t : Task) : option string :=
  match t with
  | task_update_dim_customers => Some "dim_customers_scd2_bq.sql"
  | task_build_dim_product => Some "dim_product_bq.sql"
  | task_create_audit_table => Some "audit_log_bq.sql"
  | task_cleanse_pos => Some "stg_pos_clean_bq.sql"
  | task_cleanse_ecommerce => Some "stg_ecommerce_clean_bq.sql"
  | task_build_facts => Some "fact_transactions_bq.sql"
  | task_ingest_crm | task_data_quality_checks => None
  end.

(** [upstream >> downstream], either side a task or a list of tasks:
    every task on the right depends on every task on the left. *)
Definition set_downstream (upstream downstream : list Task) : list (Task * Task) :=
  u ← upstream; d ← downstream; [(u, d)].

Definition dependencies : list (Task * Task) :=
  set_downstream [task_ingest_crm] [task_create_audit_table] ++
  set_downstream [task_create_audit_table]
    [task_update_dim_customers; task_build_dim_product;
     task_cleanse_pos; task_cleanse_ecommerce] ++
  set_downstream
    [task_update_dim_customers; task_build_dim_product;
     task_cleanse_pos; task_cleanse_ecommerce]
    [task_build_facts] ++
  set_downstream [task_build_facts] [task_data_quality_checks].

(** [order] lists the tasks of a run in the order in which they ran:
    each was preceded by every task it depends on. *)
Definition respects (order : list Task) : Prop :=
  ∀ u d i, (u, d) ∈ dependencies → order !! i = Some d →
    ∃ j, j < i ∧ order !! j = Some u.

End RetailEtlDag.

(** ** Sample runs of the transformation runner and of the schedule *)

Module TransformScenarios.
Import Py RunPipeline RetailEtlDag.

Definition project : option string := Some "proj".
Definition home : string := "/app".

Definition no_faults : nat → Call → option Exn := λ _ _, None.

Definition dim_customers_sql : string :=
  "MERGE `gigmart.dim_customers` T USING `gigmart.stg_crm_customers` S ON T.customer_id = S.customer_id".

(** A checkout in which only the first script is there. *)
Definition checkout : gmap string FsEntry :=
  {[ "/app/sql/dim_customers_scd2_bq.sql" := File dim_customers_sql ]}.

Definition fresh : St Project :=
  {| world := {| fs := checkout; dataset := true; trace := []; faults := no_faults |};
     logs := [] |}.

(** A checkout whose first script does not decode. *)
Definition undecodable : Exn :=
  {| exn_class := "UnicodeDecodeError";
     exn_msg := "'utf-8' codec can't decode byte 0xff in position 0: invalid start byte" |}.

Definition garbled : St Project :=
  {| world := {| fs := {[ "/app/sql/dim_customers_scd2_bq.sql" := Unreadable undecodable ]};
                 dataset := true; trace := []; faults := no_faults |};
     logs := [] |}.

(** A run in which the four transformations ran one after the other. *)
Definition serial_run : list Task :=
  [task_ingest_crm; task_create_audit_table; task_update_dim_customers;
   task_build_dim_product; task_cleanse_pos; task_cleanse_ecommerce;
   task_build_facts; task_data_quality_checks].

End TransformScenarios.

(** * Properties *)

(** ** The quality gate *)

Section QualityGate.
Import CheckDataQuality GateSpec.

Implicit Types (s : St Client) (w : Warehouse) (q : Query).

Lemma run_test_raises name q x s e :
  query_raises s = Some e →
  ∃ n, run_test name q x s =
       (Returned false, after n ERROR ("[ERROR] " +:+ name +:+ ": " +:+ str_exn e) s).
Proof.
  unfold query_raises, run_test, try_except, bind, client_query, job_result, api, call.
  destruct s as [[w f c] l]; simpl.
  destruct (f c) as [e1|] eqn:H1; simpl.
  - intros [= ->]. by exists 1.
  - intros H2. rewrite H2. simpl. by exists 2.
Qed.

Lemma run_test_executes name q x s :
  query_raises s = None →
  run_test name q x s =
    match q (warehouse (world s)) with
    | [] :: _ =>
        (Returned false,
         after 2 ERROR ("[ERROR] " +:+ name +:+ ": tuple index out of range") s)
    | rows =>
        let count := match rows with (c :: _) :: _ => c | _ => CInt 0 end in
        if cell_eq_int count x
        then (Returned true, after 2 INFO ("[PASS] " +:+ name) s)
        else (Returned false,
              after 2 ERROR ("[FAIL] " +:+ name +:+ ": Expected " +:+ str_Z x
                             +:+ ", Got " +:+ str_cell count) s)
    end.
Proof.
  unfold query_raises, run_test, try_except, bind, client_query, job_result, api, call.
  destruct s as [[w f c] l]; simpl.
  destruct (f c) eqn:H1; [done|]. simpl. intros ->. simpl.
  destruct (q w) as [|[|c0 r] rows]; simpl; [by destruct x | done |].
  destruct c0; simpl; try done. by destruct (_ =? _)%Z.
Qed.

Lemma run_test_returns name q x s :
  ∃ b s', run_test name q x s = (Returned b, s').
Proof.
  destruct (query_raises s) as [e|] eqn:H.
  - destruct (run_test_raises name q x s e H) as [n ->]. eauto.
  - rewrite (run_test_executes name q x s H).
    destruct (q _) as [|[|c0 r] rows]; cbv beta iota zeta; [| eauto |];
      destruct (cell_eq_int _ x); eauto.
Qed.

(** No check touches the warehouse or the fault plan. *)
Lemma run_test_world name q x s b s' :
  run_test name q x s = (Returned b, s') →
  warehouse (world s') = warehouse (world s) ∧
  faults (world s') = faults (world s) ∧
  ∃ l text, logs s' = logs s ++ [{| levelname := l; msg := text |}].
Proof.
  destruct (query_raises s) as [e|] eqn:H.
  - destruct (run_test_raises name q x s e H) as [n ->]. intros [= <- <-]; eauto.
  - rewrite (run_test_executes name q x s H).
    destruct (q _) as [|[|c0 r] rows]; cbv beta iota zeta;
      [destruct (cell_eq_int _ x) | | destruct (cell_eq_int _ x)];
      intros [= <- <-]; eauto.
Qed.

(** *** GROUP BY and duplicates *)

Section GroupBy.
Context {R K : Type} `{EqDecision K} (key : R → K).

Lemma filter_key_nil (rows : list R) k :
  k ∉ key <$> rows → filter (λ r, key r = k) rows = [].
Proof.
  intros Hk. induction rows as [|r rows IH]; [done|].
  rewrite fmap_cons, not_elem_of_cons in Hk. destruct Hk as [Hne Hk].
  rewrite filter_cons_False by congruence. auto.
Qed.

Lemma filter_key_pos (rows : list R) k :
  k ∈ key <$> rows → 0 < length (filter (λ r, key r = k) rows).
Proof.
  intros (r & -> & Hr)%list_elem_of_fmap.
  assert (r ∈ filter (λ r', key r' = key r) rows) as Hin
    by (apply list_elem_of_filter; done).
  destruct (filter _ rows); [by apply elem_of_nil in Hin | simpl; lia].
Qed.

Lemma NoDup_key_filter (rows : list R) :
  NoDup (key <$> rows) ↔ ∀ k, length (filter (λ r, key r = k) rows) ≤ 1.
Proof.
  induction rows as [|r rows IH]; simpl.
  - split; [intros _ k; simpl; lia | intros _; constructor].
  - rewrite NoDup_cons, IH. split.
    + intros [Hr Hall] k. destruct (decide (key r = k)) as [<-|Hne].
      * rewrite filter_cons_True by done.
        rewrite filter_key_nil by done. simpl; lia.
      * rewrite filter_cons_False by done. apply Hall.
    + intros Hall. split.
      * intros Hin%filter_key_pos. specialize (Hall (key r)).
        rewrite filter_cons_True in Hall by done. simpl in Hall. lia.
      * intros k. specialize (Hall k).
        destruct (decide (key r = k)).
        -- rewrite filter_cons_True in Hall by done. simpl in Hall. lia.
        -- by rewrite filter_cons_False in Hall.
Qed.

(** No group has more than one row exactly when the keys are
    pairwise distinct. *)
Lemma no_big_group_NoDup (rows : list R) :
  filter (λ g, (1 < Sql.count_star g.2)%Z) (Sql.group_by key rows) = []
  ↔ NoDup (key <$> rows).
Proof.
  rewrite NoDup_key_filter. unfold Sql.group_by, Sql.count_star. split.
  - intros Hnil k.
    destruct (decide (k ∈ key <$> rows)) as [Hin|Hout].
    + assert ((k, filter (λ r, key r = k) rows) ∈
              (λ k, (k, filter (λ r, key r = k) rows)) <$> remove_dups (key <$> rows))
        as Hg by (apply list_elem_of_fmap; exists k; by rewrite elem_of_remove_dups).
      destruct (decide (1 < Z.of_nat (length (filter (λ r, key r = k) rows)))%Z)
        as [Hbig|]; [|lia].
      exfalso.
      by apply (filter_nil_not_elem_of _ _ (k, filter (λ r, key r = k) rows) Hnil).
    + rewrite filter_key_nil by done. simpl; lia.
  - intros Hall.
    destruct (filter _ _) as [|g gs] eqn:Hf; [done|].
    assert (g ∈ g :: gs) as Hin by left. rewrite <- Hf in Hin.
    apply list_elem_of_filter in Hin as [Hbig (k & -> & _)%list_elem_of_fmap].
    simpl in Hbig. specialize (Hall k). lia.
Qed.
End GroupBy.

Lemma query_uniqueness_shape w :
  query_uniqueness w =
    [[CInt (Z.of_nat (length (filter (λ g, (1 < Sql.count_star g.2)%Z)
               (Sql.group_by Fact.transaction_id (fact_transactions w)))))]].
Proof. reflexivity. Qed.

(** C7. The uniqueness check computes a violation count that is zero
    exactly when every [transaction_id] occurs at most once in the
    fact table, and, when its query executes, the check passes exactly
    in that case. *)
Theorem uniqueness_check_iff_no_duplicate w :
  ∃ n : Z,
    query_uniqueness w = [[CInt n]] ∧
    (n = 0%Z ↔ NoDup (Fact.transaction_id <$> fact_transactions w)) ∧
    ∀ name s,
      warehouse (world s) = w → query_raises s = None →
      ((run_test name query_uniqueness 0 s).1 = Returned true
       ↔ NoDup (Fact.transaction_id <$> fact_transactions w)).
Proof.
  eexists. split; [apply query_uniqueness_shape|].
  assert (Z.of_nat (length (filter (λ g, (1 < Sql.count_star g.2)%Z)
            (Sql.group_by Fact.transaction_id (fact_transactions w)))) = 0%Z
          ↔ NoDup (Fact.transaction_id <$> fact_transactions w)) as Hcount.
  { rewrite <- no_big_group_NoDup.
    split; [intros H; apply nil_length_inv; lia | by intros ->]. }
  split; [exact Hcount|].
  intros name s <- Hexec. rewrite (run_test_executes _ _ _ _ Hexec).
  rewrite query_uniqueness_shape. cbv beta iota zeta.
  rewrite <- Hcount. unfold cell_eq_int.
  destruct (Z.eqb_spec (Z.of_nat (length (filter (λ g, (1 < Sql.count_star g.2)%Z)
            (Sql.group_by Fact.transaction_id (fact_transactions (warehouse (world s))))))) 0);
    simpl; split; congruence.
Qed.

(** *** The aggregate *)

Lemma main_chain PROJECT_ID s :
  ∃ t1 t2 t3 t4 s1 s2 s3 s4 s',
    run_test "Uniqueness Check (Fact Transactions)" query_uniqueness 0
      (gate_started PROJECT_ID s) = (Returned t1, s1) ∧
    run_test "Referential Integrity (Customer FK)" query_ref_integrity 0 s1
      = (Returned t2, s2) ∧
    run_test "Null Value Check (Critical Columns)" query_nulls 0 s2
      = (Returned t3, s3) ∧
    run_test "SCD Logic Check (Time Travel)" query_scd_logic 0 s3
      = (Returned t4, s4) ∧
    main PROJECT_ID s = (Returned (t1 && t2 && t3 && t4), s').
Proof.
  destruct (run_test_returns "Uniqueness Check (Fact Transactions)"
              query_uniqueness 0 (gate_started PROJECT_ID s)) as (t1 & s1 & H1).
  destruct (run_test_returns "Referential Integrity (Customer FK)"
              query_ref_integrity 0 s1) as (t2 & s2 & H2).
  destruct (run_test_returns "Null Value Check (Critical Columns)"
              query_nulls 0 s2) as (t3 & s3 & H3).
  destruct (run_test_returns "SCD Logic Check (Time Travel)"
              query_scd_logic 0 s3) as (t4 & s4 & H4).
  exists t1, t2, t3, t4, s1, s2, s3, s4.
  exists (if t1 && t2 && t3 && t4
          then (logging_info "All Data Quality checks passed successfully!" s4).2
          else (logging_error "Some Data Quality checks failed." s4).2).
  do 4 (split; [eassumption|]).
  unfold main, bind at 1.
  change ((logging_info _ s)) with (Returned tt, gate_started PROJECT_ID s).
  cbv beta iota.
  unfold bind at 1; rewrite H1; cbv beta iota.
  unfold bind at 1; rewrite H2; cbv beta iota.
  unfold bind at 1; rewrite H3; cbv beta iota.
  unfold bind at 1; rewrite H4; cbv beta iota.
  destruct t1, t2, t3, t4; reflexivity.
Qed.

Lemma tags_differ a b : "[ERROR] " +:+ a ≠ "[FAIL] " +:+ b.
Proof. discriminate. Qed.

(** C2. The gate returns the conjunction of its four checks, each run
    in the state its predecessor left: it fails as soon as one check
    fails or errors and passes only when all four pass. A check whose
    query raises logs an [[ERROR]] line carrying the exception; a check
    whose count differs from the expectation logs a [[FAIL]] line
    carrying both numbers; the two lines can never coincide. *)
Theorem gate_fails_when_a_check_fails_or_errors PROJECT_ID s :
  (∃ t1 t2 t3 t4 s1 s2 s3 s4 s',
     run_test "Uniqueness Check (Fact Transactions)" query_uniqueness 0
       (gate_started PROJECT_ID s) = (Returned t1, s1) ∧
     run_test "Referential Integrity (Customer FK)" query_ref_integrity 0 s1
       = (Returned t2, s2) ∧
     run_test "Null Value Check (Critical Columns)" query_nulls 0 s2
       = (Returned t3, s3) ∧
     run_test "SCD Logic Check (Time Travel)" query_scd_logic 0 s3
       = (Returned t4, s4) ∧
     main PROJECT_ID s = (Returned (t1 && t2 && t3 && t4), s')) ∧
  (∀ name q x e,
     query_raises s = Some e →
     ∃ s', run_test name q x s = (Returned false, s') ∧
           logs s' = logs s ++
             [{| levelname := ERROR;
                 msg := "[ERROR] " +:+ name +:+ ": " +:+ str_exn e |}]) ∧
  (∀ name q x c,
     query_raises s = None →
     observed_count (q (warehouse (world s))) = Some c →
     cell_eq_int c x = false →
     ∃ s', run_test name q x s = (Returned false, s') ∧
           logs s' = logs s ++
             [{| levelname := ERROR;
                 msg := "[FAIL] " +:+ name +:+ ": Expected " +:+ str_Z x
                            +:+ ", Got " +:+ str_cell c |}]) ∧
  (∀ a b, "[ERROR] " +:+ a ≠ "[FAIL] " +:+ b).
Proof.
  split; [apply main_chain|]. split; [|split; [|apply tags_differ]].
  - intros name q x e He.
    destruct (run_test_raises name q x s e He) as [n ->]. eauto.
  - intros name q x c Hexec Hc Hne.
    rewrite (run_test_executes name q x s Hexec).
    destruct (q _) as [|[|c0 r] rows]; simpl in Hc; [| done |];
      injection Hc as <-; cbv beta iota zeta; rewrite Hne; eauto.
Qed.

(** C8. Run as a script, the gate exits with status 0 exactly when the
    aggregate is a pass and with status 1 exactly when it is a fail. *)
Theorem exit_code_reflects_aggregate PROJECT_ID s :
  ∃ result s',
    main PROJECT_ID s = (Returned result, s') ∧
    dunder_main PROJECT_ID s = ((if result then 0 else 1)%Z, s') ∧
    ((dunder_main PROJECT_ID s).1 = 0%Z ↔ result = true) ∧
    ((dunder_main PROJECT_ID s).1 = 1%Z ↔ result = false).
Proof.
  destruct (main_chain PROJECT_ID s)
    as (t1 & t2 & t3 & t4 & s1 & s2 & s3 & s4 & s' & _ & _ & _ & _ & Hmain).
  exists (t1 && t2 && t3 && t4), s'. unfold dunder_main. rewrite Hmain.
  destruct (t1 && t2 && t3 && t4); simpl; repeat split; done.
Qed.

(** C10. A check whose query executes and yields no row observes the
    count 0, so it passes when 0 is expected (and in general passes
    exactly when the expectation is 0); and whatever the client does,
    [run_test] returns a boolean and never raises. *)
Theorem run_test_empty_result_is_zero name q x s :
  (query_raises s = None → q (warehouse (world s)) = [] →
     run_test name q 0 s = (Returned true, after 2 INFO ("[PASS] " +:+ name) s) ∧
     (run_test name q x s).1 = Returned (0 =? x)%Z) ∧
  ∃ b s', run_test name q x s = (Returned b, s').
Proof.
  split; [|apply run_test_returns].
  intros Hexec Hq. rewrite !(run_test_executes _ _ _ _ Hexec), Hq.
  split; [done|]. cbv beta iota zeta. unfold cell_eq_int.
  by destruct (0 =? x)%Z.
Qed.

(** *** Referential integrity and the sentinel key *)

Lemma unmatched_fact_counted w f :
  f ∈ fact_transactions w →
  (∀ d, d ∈ dim_customers w →
        Sql.holds (Sql.eq_Z (Fact.customer_sk f) (Some (Dim.customer_sk d))) = false) →
  ∃ n, query_ref_integrity w = [[CInt n]] ∧ (0 < n)%Z.
Proof.
  intros Hf Hd. eexists. split; [reflexivity|].
  unfold Sql.count_star.
  match goal with |- (0 < Z.of_nat (length ?l))%Z =>
    assert ((f, None) ∈ l) as Hin end.
  { apply list_elem_of_filter. split; [done|].
    unfold Sql.left_join. apply list_elem_of_bind. exists f. split; [|done].
    assert (filter (λ y, Sql.holds (Sql.eq_Z (Fact.customer_sk f)
               (Some (Dim.customer_sk y))) = true) (dim_customers w) = []) as ->.
    { induction (dim_customers w) as [|d ds IH]; [done|].
      rewrite filter_cons_False.
      - apply IH. intros d' Hd'. apply Hd. by right.
      - rewrite Hd; [done | by left]. }
    by left. }
  destruct (Sql.where_ _ _); [by apply elem_of_nil in Hin | simpl; lia].
Qed.

Lemma sentinel_matches_no_real_key (k : Z) :
  k ≠ (-1)%Z → Sql.holds (Sql.eq_Z (Some (-1)%Z) (Some k)) = false.
Proof.
  intros Hk. unfold Sql.eq_Z, Sql.holds.
  destruct (Z.eqb_spec (-1) k); [congruence | done].
Qed.

(** C1 (what the code does). A fact row carrying the sentinel key -1
    is counted by the referential-integrity query whenever the
    dimension has no row keyed -1: the check then returns [False] and
    so does the whole gate, whatever the other checks find. *)
Theorem sentinel_key_fails_referential_integrity PROJECT_ID s f :
  f ∈ fact_transactions (warehouse (world s)) →
  Fact.customer_sk f = Some (-1)%Z →
  (∀ d, d ∈ dim_customers (warehouse (world s)) → Dim.customer_sk d ≠ (-1)%Z) →
  (∃ n, query_ref_integrity (warehouse (world s)) = [[CInt n]] ∧ (0 < n)%Z) ∧
  (run_test "Referential Integrity (Customer FK)" query_ref_integrity 0 s).1
    = Returned false ∧
  (main PROJECT_ID s).1 = Returned false.
Proof.
  intros Hf Hsk Hd.
  assert (∀ s1, warehouse (world s1) = warehouse (world s) →
            (run_test "Referential Integrity (Customer FK)"
               query_ref_integrity 0 s1).1 = Returned false) as Hcheck.
  { intros s1 Hw. destruct (query_raises s1) as [e|] eqn:Hr.
    - by destruct (run_test_raises "Referential Integrity (Customer FK)"
                     query_ref_integrity 0 s1 e Hr) as [n ->].
    - rewrite (run_test_executes _ _ _ _ Hr), Hw.
      destruct (unmatched_fact_counted _ f Hf) as (n & -> & Hn).
      + intros d Hin. rewrite Hsk. by apply sentinel_matches_no_real_key, Hd.
      + cbv beta iota zeta. unfold cell_eq_int.
        destruct (Z.eqb_spec n 0); [lia | done]. }
  split; [|split].
  - apply (unmatched_fact_counted _ f Hf). intros d Hin. rewrite Hsk.
    by apply sentinel_matches_no_real_key, Hd.
  - by apply Hcheck.
  - destruct (main_chain PROJECT_ID s)
      as (t1 & t2 & t3 & t4 & s1 & s2 & s3 & s4 & s' & H1 & H2 & _ & _ & ->).
    apply run_test_world in H1 as (Hw & _).
    specialize (Hcheck s1 Hw). rewrite H2 in Hcheck. simpl in Hcheck.
    injection Hcheck as ->. by rewrite andb_false_r.
Qed.

End QualityGate.

(** ** The load job *)

Section LoadJob.
Import BigQuery IngestGcp IngestSpec.

Implicit Types (cfg : LoadJobConfig) (file : SourceFile)
  (job dest final : list SchemaField).

Lemma lookup_field_elem n sch f : lookup_field n sch = Some f → f ∈ sch ∧ name f = n.
Proof.
  unfold lookup_field. intros [Hin Heq]%List.find_some.
  split; [by apply list_elem_of_In | by apply String.eqb_eq].
Qed.

Lemma detect_schema_nullable file : all_nullable (detect_schema file).
Proof. unfold all_nullable, detect_schema. by apply Forall_fmap, Forall_true. Qed.

(** A job whose schema is all nullable leaves no required column. *)
Lemma update_schema_nullable opts dest job final :
  all_nullable job → update_schema opts dest job = inr final → all_nullable final.
Proof.
  intros Hjob. unfold update_schema.
  repeat case_match; try done. intros [= <-].
  apply Forall_app. split.
  - apply Forall_fmap, Forall_forall. intros g _. simpl. unfold relax.
    destruct (needs_relaxation job g) eqn:Hneed; [done|].
    unfold needs_relaxation in Hneed.
    destruct (mode g) eqn:Hmode; [done|]. simpl in Hneed.
    destruct (lookup_field (name g) job) as [f|] eqn:Hf; [|done].
    apply lookup_field_elem in Hf as [Hin _].
    rewrite (proj1 (Forall_forall _ _) Hjob f Hin) in Hneed. done.
  - apply Forall_forall. intros f [_ Hin]%list_elem_of_filter.
    by apply (proj1 (Forall_forall _ _) Hjob).
Qed.

Lemma final_schema_nullable cfg file dest_table final :
  all_nullable (schema_of cfg file dest_table) →
  final_schema cfg file dest_table = inr final → all_nullable final.
Proof.
  unfold final_schema, schema_of. intros Hjob.
  destruct dest_table as [t|]; [|by intros [= <-]].
  destruct (write_disposition cfg); try (by intros [= <-]);
    by apply update_schema_nullable.
Qed.

(** With unknown values ignored and no required column, a parsed
    record is never bad. *)
Lemma read_record_parsed cfg gcs_uri job final fields :
  ignore_unknown_values cfg = true → all_nullable final →
  read_record cfg gcs_uri job final (Parsed fields)
  = inr (list_to_map (filter (λ kv, kv.1 ∈ names job) fields)).
Proof.
  intros Hign Hnull. unfold read_record. rewrite Hign.
  assert (filter (λ g, mode g = REQUIRED ∧
                       name g ∉ (filter (λ kv, kv.1 ∈ names job) fields).*1) final
          = []) as ->.
  { induction Hnull as [|g final Hg _ IH]; [done|].
    rewrite filter_cons_False; [done|]. rewrite Hg. by intros [? _]. }
  by destruct (filter _ fields).
Qed.

Lemma read_file_split cfg gcs_uri file dest_table final :
  ignore_unknown_values cfg = true → all_nullable final →
  lefts (read_file cfg gcs_uri file dest_table final) = malformed gcs_uri file ∧
  rights (read_file cfg gcs_uri file dest_table final)
    = parsed_rows (schema_of cfg file dest_table) file.
Proof.
  intros Hign Hnull. unfold read_file, malformed, parsed_rows, schema_of.
  induction (records file) as [|[fields|why text] rs [IHl IHr]]; [done| |].
  - rewrite fmap_cons, read_record_parsed by done. simpl. by rewrite IHl, IHr.
  - rewrite fmap_cons. simpl. by rewrite IHl, IHr.
Qed.

(** The value a stored row has for a column outside the job's schema,
    or absent from the record, is NULL. *)
Lemma parsed_row_null job file row col :
  row ∈ parsed_rows job file →
  col ∉ names job ∨
    (∀ fields, Parsed fields ∈ records file → col ∉ fields.*1) →
  row !! col = None.
Proof.
  unfold parsed_rows. intros (r & Hr & Hrow)%list_elem_of_omap Hcol.
  destruct r as [fields|]; [|done]. injection Hrow as <-.
  apply not_elem_of_list_to_map_1. intros ((k & v) & -> & Hkv)%list_elem_of_fmap.
  apply list_elem_of_filter in Hkv as [Hjob Hin]. simpl in *.
  destruct Hcol as [Hcol|Hcol]; [done|].
  apply (Hcol fields Hr). apply list_elem_of_fmap. by exists (k, v).
Qed.

(** The job of a loader-shaped configuration (append, unknown values
    ignored, nullable schema) once its schema is accepted: it fails
    exactly when the file has more malformed records than allowed. *)
Lemma run_load_append cfg gcs_uri file dest_table final :
  write_disposition cfg = WRITE_APPEND →
  ignore_unknown_values cfg = true →
  all_nullable (schema_of cfg file dest_table) →
  final_schema cfg file dest_table = inr final →
  run_load cfg gcs_uri file dest_table
  = if (max_bad_records cfg <? length (malformed gcs_uri file))%nat
    then inl (BadRequest
                ("Error while reading data, error message: Too many errors encountered. Rows: "
                 +:+ Py.str_nat (length (records file)) +:+ "; errors: "
                 +:+ Py.str_nat (length (malformed gcs_uri file)) +:+ "; max bad: "
                 +:+ Py.str_nat (max_bad_records cfg)))
    else inr ({| table_schema := final;
                 table_rows := table_rows (default empty_table dest_table)
                               ++ parsed_rows (schema_of cfg file dest_table) file |},
              {| errors := malformed gcs_uri file;
                 output_rows := length (parsed_rows (schema_of cfg file dest_table) file) |}).
Proof.
  intros Happ Hign Hjob Hfinal. unfold run_load. rewrite Hfinal.
  pose proof (final_schema_nullable _ _ _ _ Hjob Hfinal) as Hnull.
  destruct (read_file_split cfg gcs_uri file dest_table final Hign Hnull) as [-> ->].
  by rewrite Happ.
Qed.

End LoadJob.

(** ** The batch loader *)

Section Ingest.
Import BigQuery IngestGcp IngestSpec.

Variable PROJECT_ID : option string.
Variable BUCKET_NAME : string.
Variable base_dir : string.

Implicit Types (s : St Cloud) (c : Cloud) (cfg : LoadJobConfig).

Abbreviation table_id := (table_id_of PROJECT_ID).
Abbreviation uri := (uri_of BUCKET_NAME).
Abbreviation load_with := (IngestSpec.load_with PROJECT_ID).

Lemma load_csv_to_bq_eq gcs_uri table_name :
  load_csv_to_bq PROJECT_ID gcs_uri table_name
  = load_with csv_job_config gcs_uri table_name.
Proof. reflexivity. Qed.

Lemma load_json_to_bq_eq gcs_uri table_name :
  load_json_to_bq PROJECT_ID gcs_uri table_name
  = load_with (json_job_config table_name) gcs_uri table_name.
Proof. reflexivity. Qed.

Lemma for_each_emit {A} (l : Level) (f : A → string) (xs : list A) s :
  for_each xs (λ x, emit l (f x)) s
  = (Returned tt,
     {| world := world s;
        logs := logs s ++ ((λ x, {| levelname := l; msg := f x |}) <$> xs) |}).
Proof.
  revert s. induction xs as [|x xs IH]; intros [c lg]; simpl.
  - by rewrite app_nil_r.
  - unfold bind. simpl. rewrite IH. simpl. by rewrite <- app_assoc.
Qed.

(** The logging that follows a successful job. *)
Lemma report_logged table_name (t : Table) (st : JobStatus) s :
  (logging_info ("Loaded " +:+ str_nat (num_rows t) +:+ " rows to "
                 +:+ table_id table_name);;
   (match errors st with
    | [] => ret tt
    | _ :: _ =>
        logging_warning ("Bad records in " +:+ table_name +:+ ": "
                         +:+ str_nat (length (errors st)) +:+ " errors");;
        for_each (take 5 (errors st))
          (λ error, logging_warning ("  Error: " +:+ str_error error))
    end);;
   if (num_rows t =? 0)%nat then
     logging_warning ("WARNING: Zero rows loaded to " +:+ table_id table_name)
   else ret tt) s
  = (Returned tt,
     {| world := world s;
        logs := logs s ++ report PROJECT_ID table_name t st |}).
Proof.
  destruct s as [c lg]. unfold report, bind, logging_info, logging_warning.
  unfold emit at 1. cbn [world logs].
  destruct (errors st) as [|e es] eqn:He.
  - destruct (num_rows t =? 0)%nat; unfold emit, ret; cbn [world logs];
      rewrite <- ?app_assoc; cbn [app]; by rewrite ?app_nil_r.
  - unfold emit at 1. cbn [world logs]. rewrite for_each_emit. cbn [world logs].
    destruct (num_rows t =? 0)%nat; unfold emit, ret; cbn [world logs];
      rewrite <- ?app_assoc; cbn [app]; by rewrite ?app_nil_r.
Qed.

(** Projections of the world through its updates. *)
Lemma length_trace_record a c :
  length (trace (record_call a c)) = S (length (trace c)).
Proof. simpl. rewrite length_app. simpl. lia. Qed.

Lemma faults_record a c : faults (record_call a c) = faults c.
Proof. reflexivity. Qed.
Lemma blobs_record a c : blobs (record_call a c) = blobs c.
Proof. reflexivity. Qed.
Lemma tables_record a c : tables (record_call a c) = tables c.
Proof. reflexivity. Qed.
Lemma fs_record a c : fs (record_call a c) = fs c.
Proof. reflexivity. Qed.
Lemma dataset_record a c : dataset (record_call a c) = dataset c.
Proof. reflexivity. Qed.
Lemma faults_set_table i t c : faults (set_table i t c) = faults c.
Proof. reflexivity. Qed.
Lemma trace_set_table i t c : trace (set_table i t c) = trace c.
Proof. reflexivity. Qed.
Lemma tables_set_table i t c : tables (set_table i t c) = <[i := t]> (tables c).
Proof. reflexivity. Qed.

Create Rewrite HintDb cloud.
Hint Rewrite length_trace_record faults_record blobs_record tables_record
  fs_record dataset_record faults_set_table trace_set_table tables_set_table
  : cloud.

(** A load whose calls and job succeed. *)
Lemma load_with_ok cfg gcs_uri table_name s file t st :
  load_calls_succeed gcs_uri (table_id table_name) (world s) →
  blobs (world s) !! gcs_uri = Some file →
  run_load cfg gcs_uri file (tables (world s) !! table_id table_name) = inr (t, st) →
  load_with cfg gcs_uri table_name s
  = (Returned tt,
     {| world := loaded gcs_uri (table_id table_name) t (world s);
        logs := logs s ++ report PROJECT_ID table_name t st |}).
Proof.
  intros (H1 & H2 & H3) Hblob Hrun. destruct s as [c lg]. cbn [world logs] in *.
  unfold IngestSpec.load_with, try_except.
  unfold bind at 1. unfold bq_load_table_from_uri, api, call at 1. cbn [world logs].
  rewrite H1. cbn [job_uri job_table IngestGcp.job_config].
  unfold bind at 1. unfold load_job_result, api, call at 1.
  cbn [world logs job_uri job_table IngestGcp.job_config].
  autorewrite with cloud. rewrite H2, Hblob, Hrun.
  unfold bind at 1. unfold bq_get_table, api, call at 1. cbn [world logs].
  autorewrite with cloud. rewrite H3, lookup_insert_eq.
  rewrite report_logged. reflexivity.
Qed.

(** A load whose job is refused or fails: the table is left as it
    was and the failure is logged. *)
Lemma load_with_job_fails cfg gcs_uri table_name s file e :
  load_calls_succeed gcs_uri (table_id table_name) (world s) →
  blobs (world s) !! gcs_uri = Some file →
  run_load cfg gcs_uri file (tables (world s) !! table_id table_name) = inl e →
  load_with cfg gcs_uri table_name s
  = (Returned tt,
     {| world := record_call (result gcs_uri (table_id table_name))
                   (record_call (load_table_from_uri gcs_uri (table_id table_name))
                      (world s));
        logs := logs s ++
          [{| levelname := ERROR;
              msg := "Failed to load " +:+ table_name +:+ ": " +:+ str_exn e |}] |}).
Proof.
  intros (H1 & H2 & H3) Hblob Hrun. destruct s as [c lg]. cbn [world logs] in *.
  unfold IngestSpec.load_with, try_except.
  unfold bind at 1. unfold bq_load_table_from_uri, api, call at 1. cbn [world logs].
  rewrite H1. cbn [job_uri job_table IngestGcp.job_config].
  unfold bind at 1. unfold load_job_result, api, call at 1.
  cbn [world logs job_uri job_table IngestGcp.job_config].
  autorewrite with cloud. rewrite H2, Hblob, Hrun. reflexivity.
Qed.

Lemma loads_snoc_load tr u t :
  loads (tr ++ [load_table_from_uri u t]) = loads tr ++ [(u, t)].
Proof. unfold loads. by rewrite omap_app. Qed.

Lemma loads_snoc_other tr a :
  (∀ u t, a ≠ load_table_from_uri u t) → loads (tr ++ [a]) = loads tr.
Proof.
  intros Ha. unfold loads. rewrite omap_app. simpl.
  destruct a as [| | |u' t'| |]; rewrite ?app_nil_r; try done.
  by destruct (Ha u' t').
Qed.




(** *** The ingestion loop *)














(** *** The two job configurations *)

Lemma json_schema_cases table_name sch :
  json_schema table_name = Some sch → sch = pos_schema ∨ sch = ecommerce_schema.
Proof.
  unfold json_schema. repeat case_match; intros [= <-]; auto.
Qed.

Lemma loader_cfg_shape loader cfg table_name :
  is_loader PROJECT_ID loader cfg table_name →
  (∀ gcs_uri, loader gcs_uri table_name = load_with cfg gcs_uri table_name) ∧
  write_disposition cfg = WRITE_APPEND ∧
  ignore_unknown_values cfg = true ∧
  max_bad_records cfg = 100 ∧
  ∀ file dest_table, all_nullable (schema_of cfg file dest_table).
Proof.
  intros [[-> ->]|[-> ->]]; (split; [done|]); do 3 (split; [done|]);
    intros file dest_table; unfold schema_of, job_schema.
  - apply detect_schema_nullable.
  - cbn [schema autodetect json_job_config].
    destruct (json_schema table_name) as [sch|] eqn:Hsch.
    + apply json_schema_cases in Hsch as [-> | ->]; repeat constructor.
    + apply detect_schema_nullable.
Qed.

(** What a loader does once its calls succeed, the object is there and
    the job's schema is accepted. *)
Lemma loader_accepted loader cfg gcs_uri table_name s file final :
  is_loader PROJECT_ID loader cfg table_name →
  load_calls_succeed gcs_uri (table_id table_name) (world s) →
  blobs (world s) !! gcs_uri = Some file →
  final_schema cfg file (tables (world s) !! table_id table_name) = inr final →
  let dest_table := tables (world s) !! table_id table_name in
  let bad := malformed gcs_uri file in
  let good := parsed_rows (schema_of cfg file dest_table) file in
  let t := {| table_schema := final;
              table_rows := table_rows (default empty_table dest_table) ++ good |} in
  (length bad ≤ 100 →
   loader gcs_uri table_name s
   = (Returned tt,
      {| world := loaded gcs_uri (table_id table_name) t (world s);
         logs := logs s ++
           report PROJECT_ID table_name t
             {| errors := bad; output_rows := length good |} |})) ∧
  (100 < length bad →
   ∃ e,
     loader gcs_uri table_name s
     = (Returned tt,
        {| world := record_call (result gcs_uri (table_id table_name))
                      (record_call (load_table_from_uri gcs_uri (table_id table_name))
                         (world s));
           logs := logs s ++
             [{| levelname := ERROR;
                 msg := "Failed to load " +:+ table_name +:+ ": " +:+ str_exn e |}] |})).
Proof.
  intros Hloader Hcalls Hblob Hfinal dest_table bad good t.
  destruct (loader_cfg_shape _ _ _ Hloader) as (Heq & Happ & Hign & Hmax & Hnull).
  rewrite Heq.
  pose proof (run_load_append cfg gcs_uri file dest_table final Happ Hign
                (Hnull file dest_table) Hfinal) as Hrun.
  rewrite Hmax in Hrun. fold bad good in Hrun. split; intros Hbad.
  - rewrite (proj2 (Nat.ltb_ge _ _)) in Hrun by lia.
    by apply (load_with_ok cfg gcs_uri table_name s file).
  - rewrite (proj2 (Nat.ltb_lt _ _)) in Hrun by lia.
    eexists. by apply (load_with_job_fails cfg gcs_uri table_name s file).
Qed.

(** C3 (as the code has it). A load skips up to 100 malformed records:
    with at most 100 of them the good records are appended and the
    load completes, logging how many were skipped and the error
    entries (reason, location, offending text) of the first five;
    with more than 100 the load fails, the table is untouched and the
    failure is logged. *)
Theorem bad_records_skipped_up_to_100 loader cfg gcs_uri table_name s file final :
  is_loader PROJECT_ID loader cfg table_name →
  load_calls_succeed gcs_uri (table_id table_name) (world s) →
  blobs (world s) !! gcs_uri = Some file →
  final_schema cfg file (tables (world s) !! table_id table_name) = inr final →
  let dest_table := tables (world s) !! table_id table_name in
  let bad := malformed gcs_uri file in
  let good := parsed_rows (schema_of cfg file dest_table) file in
  (length bad ≤ 100 →
   ∃ s' t,
     loader gcs_uri table_name s = (Returned tt, s') ∧
     tables (world s') !! table_id table_name = Some t ∧
     table_rows t = table_rows (default empty_table dest_table) ++ good ∧
     logs s' = logs s ++
       report PROJECT_ID table_name t {| errors := bad; output_rows := length good |} ∧
     (bad ≠ [] →
      {| levelname := WARNING;
         msg := "Bad records in " +:+ table_name +:+ ": "
                +:+ str_nat (length bad) +:+ " errors" |} ∈ logs s') ∧
     (∀ e, e ∈ take 5 bad →
        {| levelname := WARNING; msg := "  Error: " +:+ str_error e |} ∈ logs s')) ∧
  (100 < length bad →
   ∃ s' e,
     loader gcs_uri table_name s = (Returned tt, s') ∧
     tables (world s') = tables (world s) ∧
     logs s' = logs s ++
       [{| levelname := ERROR;
           msg := "Failed to load " +:+ table_name +:+ ": " +:+ str_exn e |}]).
Proof.
  intros Hloader Hcalls Hblob Hfinal dest_table bad good.
  destruct (loader_accepted loader cfg gcs_uri table_name s file final
              Hloader Hcalls Hblob Hfinal) as [Hok Hfail].
  split; intros Hbad.
  - eexists _, _. split; [by apply Hok|]. cbn [world logs].
    split; [apply lookup_insert_eq|]. split; [done|]. split; [done|].
    unfold report. cbn [errors]. fold bad. split.
    + intros Hne. destruct bad as [|e es] eqn:Hb; [done|]. set_solver.
    + intros e He. destruct bad as [|e0 es] eqn:Hb; [by apply elem_of_nil in He|].
      apply elem_of_app. right. apply elem_of_app. right. apply elem_of_app. left.
      right. apply list_elem_of_fmap. by exists e.
  - destruct (Hfail Hbad) as [e He]. by eexists _, e.
Qed.

(** C6 (what the code does). The zero-rows warning tests the size of
    the whole table after the load: a load that completes into a table
    that already has rows never logs it, even when the file added no
    row at all. *)
Theorem no_zero_rows_warning_on_nonempty_table
    loader cfg gcs_uri table_name s file t final :
  is_loader PROJECT_ID loader cfg table_name →
  load_calls_succeed gcs_uri (table_id table_name) (world s) →
  blobs (world s) !! gcs_uri = Some file →
  tables (world s) !! table_id table_name = Some t →
  final_schema cfg file (Some t) = inr final →
  table_rows t ≠ [] →
  length (malformed gcs_uri file) ≤ 100 →
  parsed_rows (schema_of cfg file (Some t)) file = [] →
  ∃ s' t',
    loader gcs_uri table_name s = (Returned tt, s') ∧
    tables (world s') !! table_id table_name = Some t' ∧
    table_rows t' = table_rows t ∧
    {| levelname := WARNING;
       msg := "WARNING: Zero rows loaded to " +:+ table_id table_name |}
      ∉ logged_since s s'.
Proof.
  intros Hloader Hcalls Hblob Ht Hfinal Hrows Hbad Hgood.
  destruct (loader_accepted loader cfg gcs_uri table_name s file final
              Hloader Hcalls Hblob) as [Hok _]; [by rewrite Ht|].
  rewrite Ht in Hok. cbn [from_option id] in Hok. rewrite Hgood, app_nil_r in Hok.
  eexists _, _. split; [by apply Hok|]. cbn [world logs].
  split; [apply lookup_insert_eq|]. split; [done|].
  unfold logged_since. cbn [logs]. rewrite drop_app_length.
  unfold report, num_rows. cbn [table_rows errors].
  destruct (table_rows t) as [|r rs]; [done|]. cbn [length Nat.eqb].
  rewrite app_nil_r. intros Hin.
  apply elem_of_cons in Hin as [Hin|Hin]; [done|].
  destruct (malformed gcs_uri file) as [|e es]; [by apply elem_of_nil in Hin|].
  apply elem_of_cons in Hin as [Hin|Hin]; [done|].
  by apply list_elem_of_fmap in Hin as (e' & He' & _).
Qed.

(** *** Schema drift *)

Lemma names_relax job dest : names (relax job <$> dest) = names dest.
Proof.
  unfold names. rewrite <- list_fmap_compose. apply list_fmap_ext.
  intros _ g _. simpl. unfold relax. by destruct (needs_relaxation job g).
Qed.

Lemma names_detect_schema file : names (detect_schema file) = (columns file).*1.
Proof.
  unfold names, detect_schema. rewrite <- list_fmap_compose. by apply list_fmap_ext.
Qed.

(** The CSV job's schema update: refused only for a conflict, and then
    the table keeps its columns and gains those of the file. *)
Lemma csv_final_schema file t :
  existsb (conflicts (table_schema t)) (detect_schema file) = false →
  ∃ final,
    final_schema csv_job_config file (Some t) = inr final ∧
    ∀ col, col ∈ names final ↔ col ∈ names (table_schema t) ∨ col ∈ (columns file).*1.
Proof.
  intros Hcompat. eexists. split.
  - unfold final_schema, update_schema, job_schema.
    cbn [csv_job_config write_disposition schema autodetect schema_update_options
         default from_option id].
    rewrite Hcompat.
    rewrite (bool_decide_true (ALLOW_FIELD_ADDITION ∈ _)) by set_solver.
    rewrite (bool_decide_true (ALLOW_FIELD_RELAXATION ∈ _)) by set_solver.
    cbn [negb]. rewrite !andb_false_r. reflexivity.
  - intros col. unfold names at 1. rewrite fmap_app.
    fold (names (relax (detect_schema file) <$> table_schema t)).
    rewrite names_relax, elem_of_app, list_elem_of_fmap.
    rewrite <- names_detect_schema. split.
    + intros [?|(f & -> & [_ Hin]%list_elem_of_filter)]; [by left|].
      right. by apply list_elem_of_fmap_2.
    + intros [?|Hjob]; [by left|].
      destruct (decide (col ∈ names (table_schema t))) as [?|Hnew]; [by left|].
      right. apply list_elem_of_fmap in Hjob as (f & -> & Hin).
      exists f. split; [done|]. by apply list_elem_of_filter.
Qed.

(** The JSON job's schema update on a table that has the explicit
    schema: accepted, and nothing changes. *)
Lemma json_final_schema table_name sch file t :
  json_schema table_name = Some sch → table_schema t = sch →
  final_schema (json_job_config table_name) file (Some t) = inr sch ∧
  schema_of (json_job_config table_name) file (Some t) = sch.
Proof.
  intros Hsch Ht. unfold final_schema, schema_of, job_schema, json_job_config.
  cbn [write_disposition schema autodetect schema_update_options
       default from_option id].
  rewrite Hsch, Ht.
  by apply json_schema_cases in Hsch as [-> | ->].
Qed.

(** C5 (as the code has it). A CSV load into an existing table whose
    shared columns keep their types completes when the file has extra
    columns, and the table gains them; it completes when the file
    lacks a column of the table, and the new rows are NULL there. A
    JSON load into a table that has the loader's explicit schema
    completes too, but the schema stays as it is: a field outside it
    is dropped, and a field a record leaves out is NULL. *)
Theorem schema_drift_tolerated gcs_uri table_name s file t :
  load_calls_succeed gcs_uri (table_id table_name) (world s) →
  blobs (world s) !! gcs_uri = Some file →
  tables (world s) !! table_id table_name = Some t →
  length (malformed gcs_uri file) ≤ 100 →
  (existsb (conflicts (table_schema t)) (detect_schema file) = false →
   ∃ s' t',
     load_csv_to_bq PROJECT_ID gcs_uri table_name s = (Returned tt, s') ∧
     tables (world s') !! table_id table_name = Some t' ∧
     logs s' = logs s ++
       report PROJECT_ID table_name t'
         {| errors := malformed gcs_uri file;
            output_rows := length (parsed_rows (detect_schema file) file) |} ∧
     table_rows t' = table_rows t ++ parsed_rows (detect_schema file) file ∧
     (∀ col, col ∈ names (table_schema t')
             ↔ col ∈ names (table_schema t) ∨ col ∈ (columns file).*1) ∧
     (∀ col row, col ∉ (columns file).*1 →
                 row ∈ parsed_rows (detect_schema file) file → row !! col = None)) ∧
  (∀ sch,
     json_schema table_name = Some sch → table_schema t = sch →
     ∃ s' t',
       load_json_to_bq PROJECT_ID gcs_uri table_name s = (Returned tt, s') ∧
       tables (world s') !! table_id table_name = Some t' ∧
       logs s' = logs s ++
         report PROJECT_ID table_name t'
           {| errors := malformed gcs_uri file;
              output_rows := length (parsed_rows sch file) |} ∧
       table_rows t' = table_rows t ++ parsed_rows sch file ∧
       table_schema t' = sch ∧
       (∀ col row,
          row ∈ parsed_rows sch file →
          col ∉ names sch ∨
            (∀ fields, Parsed fields ∈ records file → col ∉ fields.*1) →
          row !! col = None)).
Proof.
  intros Hcalls Hblob Ht Hbad. split.
  - intros Hcompat. destruct (csv_final_schema file t Hcompat) as (final & Hfinal & Hnames).
    destruct (loader_accepted (load_csv_to_bq PROJECT_ID) csv_job_config
                gcs_uri table_name s file final) as [Hok _];
      [by left | done | done | by rewrite Ht |].
    rewrite Ht in Hok. cbn [from_option id] in Hok.
    eexists _, _. split; [by apply Hok|]. cbn [world logs].
    split; [apply lookup_insert_eq|]. split; [done|]. split; [done|].
    split; [done|].
    intros col row Hcol Hrow. eapply (parsed_row_null _ _ _ _ Hrow). left.
    by rewrite names_detect_schema.
  - intros sch Hsch Hsame.
    destruct (json_final_schema table_name sch file t Hsch Hsame) as [Hfinal Hjob].
    destruct (loader_accepted (load_json_to_bq PROJECT_ID) (json_job_config table_name)
                gcs_uri table_name s file sch) as [Hok _];
      [by right | done | done | by rewrite Ht |].
    rewrite Ht, Hjob in Hok. cbn [from_option id] in Hok.
    eexists _, _. split; [by apply Hok|]. cbn [world logs].
    split; [apply lookup_insert_eq|]. do 3 (split; [done|]).
    intros col row Hrow Hcol. by eapply parsed_row_null.
Qed.

(** *** A run under any faults of the uploads and the loads *)






(** *** Failures stay inside the loader *)




End Ingest.

(** ** The properties on the sample states *)

Section Samples.
Import CheckDataQuality GateSpec Scenarios.Gate.

Lemma sentinel_key_fails_referential_integrity_witness :
  tx "tx_9" (-1) ∈ fact_transactions (warehouse (world scenario_D_run)) ∧
  (run_test "Referential Integrity (Customer FK)" query_ref_integrity 0
     scenario_D_run).1 = Returned false ∧
  (main (Some "proj") scenario_D_run).1 = Returned false.
Proof.
  split; [by right; left|].
  apply (sentinel_key_fails_referential_integrity (Some "proj") scenario_D_run
           (tx "tx_9" (-1))).
  - by right; left.
  - reflexivity.
  - intros d Hd. apply list_elem_of_singleton in Hd as ->. vm_compute. discriminate.
Defined.

Lemma gate_fails_when_a_check_fails_or_errors_witness :
  (query_raises outage_run
     = Some {| exn_class := "ServiceUnavailable"; exn_msg := "503 backend unavailable" |} ∧
   ∃ s', run_test "Uniqueness Check (Fact Transactions)" query_uniqueness 0 outage_run
         = (Returned false, s') ∧
         logs s' = logs outage_run ++
           [{| levelname := ERROR;
               msg := "[ERROR] Uniqueness Check (Fact Transactions): 503 backend unavailable" |}]) ∧
  (observed_count (query_ref_integrity scenario_D) = Some (CInt 1) ∧
   ∃ s', run_test "Referential Integrity (Customer FK)" query_ref_integrity 0 scenario_D_run
         = (Returned false, s') ∧
         logs s' = logs scenario_D_run ++
           [{| levelname := ERROR;
               msg := "[FAIL] Referential Integrity (Customer FK): Expected 0, Got 1" |}]).
Proof.
  split; (split; [reflexivity|]).
  - exact (proj1 (proj2 (gate_fails_when_a_check_fails_or_errors None outage_run))
             "Uniqueness Check (Fact Transactions)" query_uniqueness 0%Z
             {| exn_class := "ServiceUnavailable"; exn_msg := "503 backend unavailable" |}
             eq_refl).
  - exact (proj1 (proj2 (proj2 (gate_fails_when_a_check_fails_or_errors None scenario_D_run)))
             "Referential Integrity (Customer FK)" query_ref_integrity 0%Z (CInt 1)
             eq_refl eq_refl eq_refl).
Defined.

Lemma uniqueness_check_iff_no_duplicate_witness :
  (run_test "Uniqueness Check (Fact Transactions)" query_uniqueness 0 clean_run).1
    = Returned true
  ↔ NoDup (Fact.transaction_id <$> fact_transactions clean).
Proof.
  destruct (uniqueness_check_iff_no_duplicate clean) as (n & _ & _ & Hrun).
  apply Hrun; reflexivity.
Defined.

Lemma run_test_empty_result_is_zero_witness :
  run_test "Null Value Check (Critical Columns)" no_rows 0 clean_run
    = (Returned true,
       after 2 INFO "[PASS] Null Value Check (Critical Columns)" clean_run) ∧
  (run_test "Null Value Check (Critical Columns)" no_rows 1 clean_run).1
    = Returned false.
Proof.
  apply (proj1 (run_test_empty_result_is_zero
                  "Null Value Check (Critical Columns)" no_rows 1 clean_run));
    reflexivity.
Defined.

End Samples.

Section LandingSamples.
Import BigQuery IngestGcp IngestSpec Scenarios.Landing.




(** C3 as stated fails: of the six unreadable records of the sample
    extract, all skipped by a load that completes, the last is
    mentioned nowhere in what the load logs. *)
Lemma seventh_line_never_reported :
  ¬ every_skipped_record_reported (load_csv_to_bq project)
      "gs://landing/crm/customers.csv" "stg_crm_customers" crm_uploaded.
Proof.
  intros Hall.
  destruct (Hall customers_csv "invalid" "Could not parse line 7")
    as (r & Hr & _ & Hmentions).
  - reflexivity.
  - unfold customers_csv, unreadable. cbn [records fmap list_fmap seq].
    do 6 right. left.
  - assert (forallb (λ r, negb (mentions "Could not parse line 7" (msg r)))
              (logged_since crm_uploaded
                 (load_csv_to_bq project "gs://landing/crm/customers.csv"
                    "stg_crm_customers" crm_uploaded).2) = true) as Hnone
      by (vm_compute; reflexivity).
    rewrite forallb_forall in Hnone. apply list_elem_of_In in Hr.
    specialize (Hnone r Hr). rewrite Hmentions in Hnone. discriminate.
Qed.

Lemma bad_records_skipped_up_to_100_witness :
  (∃ s' t,
     load_csv_to_bq project "gs://landing/crm/customers.csv" "stg_crm_customers"
       crm_uploaded = (Returned tt, s') ∧
     tables (world s') !! "proj.gigmart.stg_crm_customers" = Some t ∧
     length (table_rows t) = 1 ∧
     {| levelname := WARNING; msg := "Bad records in stg_crm_customers: 6 errors" |}
       ∈ logs s') ∧
  (∃ s' e,
     load_csv_to_bq project "gs://landing/crm/corrupt.csv" "stg_crm_customers"
       crm_corrupt = (Returned tt, s') ∧
     tables (world s') = tables (world crm_corrupt) ∧
     logs s' = [{| levelname := ERROR;
                   msg := "Failed to load stg_crm_customers: " +:+ str_exn e |}]).
Proof.
  split.
  - destruct (proj1 (bad_records_skipped_up_to_100 project
                (load_csv_to_bq project) csv_job_config
                "gs://landing/crm/customers.csv" "stg_crm_customers" crm_uploaded
                customers_csv (detect_schema customers_csv)
                (or_introl (conj eq_refl eq_refl))
                (conj eq_refl (conj eq_refl eq_refl)) eq_refl eq_refl))
      as (s' & t & Hrun & Ht & Hrows & _ & Hcount & _).
    + vm_compute. lia.
    + exists s', t. split; [exact Hrun|]. split; [exact Ht|]. split.
      * rewrite Hrows. reflexivity.
      * apply Hcount. discriminate.
  - apply (proj2 (bad_records_skipped_up_to_100 project
                (load_csv_to_bq project) csv_job_config
                "gs://landing/crm/corrupt.csv" "stg_crm_customers" crm_corrupt
                corrupt_csv (table_schema stg_crm_customers)
                (or_introl (conj eq_refl eq_refl))
                (conj eq_refl (conj eq_refl eq_refl)) eq_refl eq_refl)).
    vm_compute. lia.
Defined.

(** C5 as stated fails: the sample POS batch carries the field
    [loyalty_points]; the JSON load completes, and the table still has
    no such column. *)
Lemma json_load_drops_the_extra_field :
  ¬ extra_columns_widen project (load_json_to_bq project)
      "gs://landing/pos/day2.json" "stg_pos_transactions" pos_drifted.
Proof.
  intros Hwiden.
  destruct (Hwiden pos_json stg_pos_transactions "loyalty_points" "12"
              [("transaction_id", "tx_7"); ("amount", "9.0"); ("loyalty_points", "12")])
    as (t & Ht & Hcol).
  - reflexivity.
  - reflexivity.
  - by left.
  - do 2 right. by left.
  - intros Hcol. apply list_elem_of_In in Hcol. vm_compute in Hcol.
    repeat destruct Hcol as [Hcol|Hcol]; try discriminate Hcol. exact Hcol.
  - vm_compute in Ht. injection Ht as <-.
    apply list_elem_of_In in Hcol. vm_compute in Hcol.
    repeat destruct Hcol as [Hcol|Hcol]; try discriminate Hcol. exact Hcol.
Qed.

Lemma schema_drift_tolerated_witness :
  (∃ s' t',
     load_csv_to_bq project "gs://landing/crm/customers_v2.csv" "stg_crm_customers"
       crm_drifted = (Returned tt, s') ∧
     tables (world s') !! "proj.gigmart.stg_crm_customers" = Some t' ∧
     "loyalty_points" ∈ names (table_schema t') ∧
     "name" ∈ names (table_schema t') ∧
     ∀ row, row ∈ parsed_rows (detect_schema customers_v2_csv) customers_v2_csv →
            row !! "name" = None) ∧
  (∃ s' t',
     load_json_to_bq project "gs://landing/pos/day2.json" "stg_pos_transactions"
       pos_drifted = (Returned tt, s') ∧
     tables (world s') !! "proj.gigmart.stg_pos_transactions" = Some t' ∧
     table_schema t' = pos_schema ∧
     length (table_rows t') = 2 ∧
     ∀ row, row ∈ parsed_rows pos_schema pos_json →
            row !! "loyalty_points" = None ∧ row !! "currency" = None).
Proof.
  split.
  - destruct (proj1 (schema_drift_tolerated project
                "gs://landing/crm/customers_v2.csv" "stg_crm_customers" crm_drifted
                customers_v2_csv stg_crm_customers
                (conj eq_refl (conj eq_refl eq_refl)) eq_refl eq_refl
                (le_S _ _ (le_S _ _ (Nat.le_0_l 98)))) eq_refl)
      as (s' & t' & Hrun & Ht & _ & _ & Hnames & Hnull).
    exists s', t'. split; [exact Hrun|]. split; [exact Ht|]. split; [|split].
    + apply Hnames. right. vm_compute. right. left.
    + apply Hnames. left. vm_compute. right. left.
    + intros row Hrow. apply (Hnull "name" row); [|exact Hrow].
      vm_compute. intros Hin. apply list_elem_of_In in Hin. vm_compute in Hin.
      repeat destruct Hin as [Hin|Hin]; try discriminate Hin. exact Hin.
  - destruct (proj2 (schema_drift_tolerated project
                "gs://landing/pos/day2.json" "stg_pos_transactions" pos_drifted
                pos_json stg_pos_transactions
                (conj eq_refl (conj eq_refl eq_refl)) eq_refl eq_refl
                (le_S _ _ (le_S _ _ (Nat.le_0_l 98)))) pos_schema eq_refl eq_refl)
      as (s' & t' & Hrun & Ht & _ & Hrows & Hschema & Hnull).
    exists s', t'. split; [exact Hrun|]. split; [exact Ht|]. split; [exact Hschema|].
    split; [rewrite Hrows; reflexivity|].
    intros row Hrow. split; apply Hnull; try exact Hrow.
    + left. intros Hin. apply list_elem_of_In in Hin. vm_compute in Hin.
      repeat destruct Hin as [Hin|Hin]; try discriminate Hin. exact Hin.
    + right. intros fields Hfields.
      apply list_elem_of_singleton in Hfields. injection Hfields as ->.
      intros Hin. apply list_elem_of_In in Hin. vm_compute in Hin.
      repeat destruct Hin as [Hin|Hin]; try discriminate Hin. exact Hin.
Defined.

Lemma no_zero_rows_warning_on_nonempty_table_witness :
  ∃ s' t',
    load_json_to_bq project "gs://landing/pos/day3.json" "stg_pos_transactions"
      pos_empty_batch = (Returned tt, s') ∧
    tables (world s') !! "proj.gigmart.stg_pos_transactions" = Some t' ∧
    table_rows t' = table_rows stg_pos_transactions ∧
    {| levelname := WARNING;
       msg := "WARNING: Zero rows loaded to proj.gigmart.stg_pos_transactions" |}
      ∉ logged_since pos_empty_batch s'.
Proof.
  apply (no_zero_rows_warning_on_nonempty_table project
           (load_json_to_bq project) (json_job_config "stg_pos_transactions")
           "gs://landing/pos/day3.json" "stg_pos_transactions" pos_empty_batch
           empty_json stg_pos_transactions pos_schema).
  - right. split; reflexivity.
  - repeat split; reflexivity.
  - reflexivity.
  - reflexivity.
  - reflexivity.
  - discriminate.
  - vm_compute. lia.
  - reflexivity.
Defined.



End LandingSamples.

(** * Further properties *)

(** ** The quality gate: what each check decides *)

Section GateChecks.
Import CheckDataQuality GateSpec GateInvariants.

Implicit Types (s : St Client) (w : Warehouse) (q : Query).

Lemma filter_nil_iff {A} (P : A → Prop) `{∀ x, Decision (P x)} (l : list A) :
  filter P l = [] ↔ ∀ x, x ∈ l → ¬ P x.
Proof.
  split.
  - intros Hnil x Hx HP. by apply (filter_nil_not_elem_of P l x).
  - intros Hall. induction l as [|x l IH]; [done|].
    rewrite filter_cons_False by (apply Hall; left).
    apply IH. intros y Hy. apply Hall. by right.
Qed.

Lemma count_star_zero {A} (l : list A) : Sql.count_star l = 0%Z ↔ l = [].
Proof.
  unfold Sql.count_star. split; [|by intros ->].
  intros H. apply nil_length_inv. lia.
Qed.

(** A check that executes and counts [n] passes exactly when [n] is 0. *)
Lemma run_test_count name q s (n : Z) :
  query_raises s = None →
  q (warehouse (world s)) = [[CInt n]] →
  (run_test name q 0 s).1 = Returned (n =? 0)%Z.
Proof.
  intros Hexec Hq. rewrite (run_test_executes _ _ _ _ Hexec), Hq.
  cbv beta iota zeta. unfold cell_eq_int. by destruct (n =? 0)%Z.
Qed.

(** A check whose query counts the rows of [l] decides whether [l] is
    empty. *)
Lemma check_decides {A} q w (l : list A) (P : Prop) :
  q w = [[CInt (Sql.count_star l)]] → (l = [] ↔ P) →
  ∃ n : Z,
    q w = [[CInt n]] ∧
    (n = 0%Z ↔ P) ∧
    ∀ name s,
      warehouse (world s) = w → query_raises s = None →
      ((run_test name q 0 s).1 = Returned true ↔ P).
Proof.
  intros Hq HP. exists (Sql.count_star l). split; [done|].
  assert (Sql.count_star l = 0%Z ↔ P) as Hcount by by rewrite count_star_zero.
  split; [done|].
  intros name s Hw Hexec. rewrite <- Hw in Hq.
  rewrite (run_test_count name q s _ Hexec Hq), <- Hcount.
  destruct (Z.eqb_spec (Sql.count_star l) 0); split; congruence.
Qed.

Lemma left_join_unmatched_nil {L R} (c : L → R → option bool) (key : R → Z)
    (l : list L) (r : list R) :
  Sql.where_ (λ xy, Sql.is_null (key <$> xy.2)) (Sql.left_join c l r) = []
  ↔ ∀ x, x ∈ l → ∃ y, y ∈ r ∧ Sql.holds (c x y) = true.
Proof.
  unfold Sql.where_. rewrite filter_nil_iff. unfold Sql.left_join. split.
  - intros H x Hx.
    destruct (filter (λ y, Sql.holds (c x y) = true) r) as [|y ys] eqn:Hm.
    + destruct (H (x, None)); [|done].
      apply list_elem_of_bind. exists x. split; [|done]. rewrite Hm. by left.
    + assert (y ∈ filter (λ y, Sql.holds (c x y) = true) r) as Hy
        by (rewrite Hm; left).
      apply list_elem_of_filter in Hy as [Hc Hy]. by exists y.
  - intros H [x oy] Hin. apply list_elem_of_bind in Hin as (x' & Hin & Hx').
    destruct (H x' Hx') as (y & Hy & Hc).
    destruct (filter (λ y, Sql.holds (c x' y) = true) r) as [|y0 ys] eqn:Hm.
    + assert (y ∈ filter (λ y, Sql.holds (c x' y) = true) r) as Hyin
        by by apply list_elem_of_filter.
      rewrite Hm in Hyin. by apply elem_of_nil in Hyin.
    + apply list_elem_of_fmap in Hin as (y' & [= -> ->] & _). done.
Qed.

Lemma null_rows_nil_iff w :
  Sql.where_ (λ f, Sql.or3 (Sql.is_null (Fact.total_amount f))
                           (Sql.is_null (Fact.created_at f)))
    (fact_transactions w) = []
  ↔ complete w.
Proof.
  unfold Sql.where_. rewrite filter_nil_iff.
  unfold complete. apply forall_proper. intros f.
  destruct (Fact.total_amount f), (Fact.created_at f); simpl; split; intros H Hin;
    specialize (H Hin); try done; by destruct H.
Qed.

Lemma scd_rows_nil_iff w :
  Sql.where_ (λ d, Sql.and3 (Sql.is_not_null (Dim.valid_to d))
                            (Sql.lt_Z (Dim.valid_to d) (Some (Dim.valid_from d))))
    (dim_customers w) = []
  ↔ temporally_valid w.
Proof.
  unfold Sql.where_. rewrite filter_nil_iff. unfold temporally_valid. split.
  - intros H d vt Hd Hvt. specialize (H d Hd). rewrite Hvt in H. simpl in H.
    destruct (Z.ltb_spec vt (Dim.valid_from d)); [by destruct H | lia].
  - intros H d Hd. specialize (H d). destruct (Dim.valid_to d) as [vt|]; [|done].
    specialize (H vt Hd eq_refl). simpl.
    destruct (Z.ltb_spec vt (Dim.valid_from d)); [lia | done].
Qed.

Lemma unmatched_rows_nil_iff w :
  Sql.where_ (λ fd, Sql.is_null (Dim.customer_sk <$> fd.2))
    (Sql.left_join
       (λ f d, Sql.eq_Z (Fact.customer_sk f) (Some (Dim.customer_sk d)))
       (fact_transactions w) (dim_customers w)) = []
  ↔ referentially_intact w.
Proof.
  rewrite left_join_unmatched_nil. unfold referentially_intact.
  apply forall_proper. intros f. apply forall_proper. intros Hf. split.
  - intros (d & Hd & Hc). destruct (Fact.customer_sk f) as [k|]; [|done].
    exists k. split; [done|]. exists d. split; [done|]. simpl in Hc.
    destruct (Z.eqb_spec k (Dim.customer_sk d)); done.
  - intros (k & -> & d & Hd & <-). exists d. split; [done|]. simpl.
    by rewrite Z.eqb_refl.
Qed.

(** X1. The null check counts no row exactly when every fact row has
    both its amount and its creation time, and passes exactly then when
    its query executes. *)
Theorem null_check_iff_complete w :
  ∃ n : Z,
    query_nulls w = [[CInt n]] ∧
    (n = 0%Z ↔ complete w) ∧
    ∀ name s,
      warehouse (world s) = w → query_raises s = None →
      ((run_test name query_nulls 0 s).1 = Returned true ↔ complete w).
Proof.
  eapply check_decides; [reflexivity|]. apply null_rows_nil_iff.
Qed.

(** X2. The temporal check counts no row exactly when every closed
    dimension row ends no earlier than it starts, and passes exactly
    then when its query executes; an open row is never counted. *)
Theorem scd_check_iff_temporally_valid w :
  ∃ n : Z,
    query_scd_logic w = [[CInt n]] ∧
    (n = 0%Z ↔ temporally_valid w) ∧
    ∀ name s,
      warehouse (world s) = w → query_raises s = None →
      ((run_test name query_scd_logic 0 s).1 = Returned true ↔ temporally_valid w).
Proof.
  eapply check_decides; [reflexivity|]. apply scd_rows_nil_iff.
Qed.

(** X3. The referential-integrity check counts no row exactly when
    every fact row carries a key that some dimension row has; a fact row
    whose key is NULL is always counted. The check passes exactly then
    when its query executes. *)
Theorem ref_integrity_check_iff_intact w :
  ∃ n : Z,
    query_ref_integrity w = [[CInt n]] ∧
    (n = 0%Z ↔ referentially_intact w) ∧
    ∀ name s,
      warehouse (world s) = w → query_raises s = None →
      ((run_test name query_ref_integrity 0 s).1 = Returned true
       ↔ referentially_intact w).
Proof.
  eapply check_decides; [reflexivity|]. apply unmatched_rows_nil_iff.
Qed.

(** *** The gate as a whole *)

Lemma never_faults_executes s : never_faults s → query_raises s = None.
Proof. intros H. unfold query_raises. by rewrite !H. Qed.

Lemma never_faults_run_test name q x s b s' :
  never_faults s → run_test name q x s = (Returned b, s') →
  never_faults s' ∧ warehouse (world s') = warehouse (world s).
Proof.
  intros H Hrun. apply run_test_world in Hrun as (Hw & Hf & _).
  split; [|done]. intros n. rewrite Hf. apply H.
Qed.

Lemma passes_iff name q s (P : Prop) b s' :
  run_test name q 0 s = (Returned b, s') →
  ((run_test name q 0 s).1 = Returned true ↔ P) → (b = true ↔ P).
Proof. intros -> <-. simpl. split; congruence. Qed.

(** X4. When no call fails, the gate passes exactly when the warehouse
    satisfies all four invariants: distinct transaction ids, resolved
    customer keys, complete mandatory fields and valid closed
    versions. *)
Theorem gate_passes_iff_all_invariants PROJECT_ID s :
  never_faults s →
  ((main PROJECT_ID s).1 = Returned true
   ↔ unique (warehouse (world s)) ∧
     referentially_intact (warehouse (world s)) ∧
     complete (warehouse (world s)) ∧
     temporally_valid (warehouse (world s))).
Proof.
  intros Hnf.
  destruct (main_chain PROJECT_ID s)
    as (t1 & t2 & t3 & t4 & s1 & s2 & s3 & s4 & s' & H1 & H2 & H3 & H4 & ->).
  assert (never_faults (gate_started PROJECT_ID s)) as Hnf0 by done.
  destruct (never_faults_run_test _ _ _ _ _ _ Hnf0 H1) as [Hnf1 Hw1].
  destruct (never_faults_run_test _ _ _ _ _ _ Hnf1 H2) as [Hnf2 Hw2].
  destruct (never_faults_run_test _ _ _ _ _ _ Hnf2 H3) as [Hnf3 Hw3].
  change (warehouse (world (gate_started PROJECT_ID s)))
    with (warehouse (world s)) in Hw1.
  rewrite Hw1 in Hw2. rewrite Hw2 in Hw3.
  assert (t1 = true ↔ unique (warehouse (world s))) as Ht1.
  { apply (passes_iff _ _ _ _ _ _ H1).
    destruct (check_decides query_uniqueness (warehouse (world s)) _ _
                (query_uniqueness_shape _)
                (no_big_group_NoDup Fact.transaction_id _)) as (n & _ & _ & Hrun).
    by apply Hrun, never_faults_executes. }
  assert (t2 = true ↔ referentially_intact (warehouse (world s))) as Ht2.
  { apply (passes_iff _ _ _ _ _ _ H2).
    destruct (check_decides query_ref_integrity (warehouse (world s)) _ _
                eq_refl (unmatched_rows_nil_iff _)) as (n & _ & _ & Hrun).
    by apply Hrun, never_faults_executes. }
  assert (t3 = true ↔ complete (warehouse (world s))) as Ht3.
  { apply (passes_iff _ _ _ _ _ _ H3).
    destruct (check_decides query_nulls (warehouse (world s)) _ _
                eq_refl (null_rows_nil_iff _)) as (n & _ & _ & Hrun).
    by apply Hrun, never_faults_executes. }
  assert (t4 = true ↔ temporally_valid (warehouse (world s))) as Ht4.
  { apply (passes_iff _ _ _ _ _ _ H4).
    destruct (check_decides query_scd_logic (warehouse (world s)) _ _
                eq_refl (scd_rows_nil_iff _)) as (n & _ & _ & Hrun).
    by apply Hrun, never_faults_executes. }
  rewrite <- Ht1, <- Ht2, <- Ht3, <- Ht4. simpl.
  destruct t1, t2, t3, t4; simpl; split; try done; intros H; try discriminate H;
    by destruct H as (? & ? & ? & ?).
Qed.

(** X5. The wrapper the scheduler calls raises [ValueError] exactly when
    the gate fails and returns normally exactly when it passes; it
    leaves the state and the log as the gate left them and raises
    nothing else. *)
Theorem run_checks_raises_iff_gate_fails PROJECT_ID s :
  ∃ passed s',
    main PROJECT_ID s = (Returned passed, s') ∧
    run_checks PROJECT_ID s
    = (if passed
       then Returned tt
       else Raised {| exn_class := "ValueError";
                      exn_msg := "Data Quality checks failed!" |},
       s').
Proof.
  destruct (main_chain PROJECT_ID s)
    as (t1 & t2 & t3 & t4 & s1 & s2 & s3 & s4 & s' & _ & _ & _ & _ & Hmain).
  exists (t1 && t2 && t3 && t4), s'. split; [done|].
  unfold run_checks, bind. rewrite Hmain.
  by destruct (t1 && t2 && t3 && t4).
Qed.

(** One check: one or two calls, one line about the check, and the
    warehouse and the fault plan as they were. *)
Lemma run_test_step name q s :
  ∃ b n r,
    run_test name q 0 s
    = (Returned b,
       {| world := {| warehouse := warehouse (world s); faults := faults (world s);
                      calls := n + calls (world s) |};
          logs := logs s ++ [r] |}) ∧
    (n = 1 ∨ n = 2) ∧ reports name r.
Proof.
  unfold run_test, try_except, bind, client_query, job_result, api, call.
  destruct s as [[w f c] l]; simpl.
  destruct (f c) as [e1|] eqn:H1; simpl.
  { exists false, 1, {| levelname := ERROR;
                        msg := "[ERROR] " +:+ name +:+ ": " +:+ str_exn e1 |}.
    split; [done|]. split; [by left|]. right. right. by eexists. }
  destruct (f (S c)) as [e2|] eqn:H2; simpl.
  { exists false, 2, {| levelname := ERROR;
                        msg := "[ERROR] " +:+ name +:+ ": " +:+ str_exn e2 |}.
    split; [done|]. split; [by right|]. right. right. by eexists. }
  destruct (q w) as [|[|c0 r] rows]; simpl.
  - exists true, 2, {| levelname := INFO; msg := "[PASS] " +:+ name |}.
    split; [done|]. split; [by right|]. by left.
  - exists false, 2, {| levelname := ERROR;
                        msg := "[ERROR] " +:+ name +:+ ": tuple index out of range" |}.
    split; [done|]. split; [by right|]. right. right. by eexists.
  - destruct (cell_eq_int c0 0) eqn:Hc; simpl.
    + exists true, 2, {| levelname := INFO; msg := "[PASS] " +:+ name |}.
      split; [done|]. split; [by right|]. by left.
    + exists false, 2,
        {| levelname := ERROR;
           msg := "[FAIL] " +:+ name +:+ ": Expected " +:+ "0" +:+ ", Got " +:+ str_cell c0 |}.
      split; [done|]. split; [by right|]. right. left. by eexists.
Qed.

(** X6. Whatever happens to a check, the gate runs all four, in order,
    each exactly once: its log grows by the opening line, one line per
    check and the verdict; it makes between four and eight calls and
    leaves the warehouse as it was. *)
Theorem gate_runs_every_check_once PROJECT_ID s :
  ∃ passed s' r1 r2 r3 r4 n,
    main PROJECT_ID s = (Returned passed, s') ∧
    logs s' = logs s ++
      [{| levelname := INFO;
          msg := "Starting Data Quality Checks on "
                 +:+ (str_opt PROJECT_ID +:+ "." +:+ DATASET_ID) +:+ "..." |};
       r1; r2; r3; r4; verdict passed] ∧
    reports "Uniqueness Check (Fact Transactions)" r1 ∧
    reports "Referential Integrity (Customer FK)" r2 ∧
    reports "Null Value Check (Critical Columns)" r3 ∧
    reports "SCD Logic Check (Time Travel)" r4 ∧
    warehouse (world s') = warehouse (world s) ∧
    calls (world s') = n + calls (world s) ∧ 4 ≤ n ≤ 8.
Proof.
  unfold main. unfold bind at 1.
  change (logging_info _ s) with (Returned tt, gate_started PROJECT_ID s).
  cbv beta iota.
  destruct (run_test_step "Uniqueness Check (Fact Transactions)" query_uniqueness
              (gate_started PROJECT_ID s)) as (t1 & n1 & r1 & H1 & Hn1 & Hr1).
  unfold bind at 1. rewrite H1. cbv beta iota.
  match type of H1 with _ = (_, ?st) => set (s1 := st) in * end.
  destruct (run_test_step "Referential Integrity (Customer FK)" query_ref_integrity s1)
    as (t2 & n2 & r2 & H2 & Hn2 & Hr2).
  unfold bind at 1. rewrite H2. cbv beta iota.
  match type of H2 with _ = (_, ?st) => set (s2 := st) in * end.
  destruct (run_test_step "Null Value Check (Critical Columns)" query_nulls s2)
    as (t3 & n3 & r3 & H3 & Hn3 & Hr3).
  unfold bind at 1. rewrite H3. cbv beta iota.
  match type of H3 with _ = (_, ?st) => set (s3 := st) in * end.
  destruct (run_test_step "SCD Logic Check (Time Travel)" query_scd_logic s3)
    as (t4 & n4 & r4 & H4 & Hn4 & Hr4).
  unfold bind at 1. rewrite H4. cbv beta iota.
  match type of H4 with _ = (_, ?st) => set (s4 := st) in * end.
  exists (t1 && t2 && t3 && t4),
    {| world := world s4; logs := logs s4 ++ [verdict (t1 && t2 && t3 && t4)] |},
    r1, r2, r3, r4, (n4 + (n3 + (n2 + n1))).
  split; [by destruct t1, t2, t3, t4|].
  split.
  { cbn [logs s4 s3 s2 s1]. unfold gate_started, logging_info, emit. cbn [snd logs].
    rewrite <- !app_assoc. reflexivity. }
  do 4 (split; [done|]).
  split; [done|].
  split; [cbn; lia | lia].
Qed.

End GateChecks.

(** ** The batch loader: uploads, datasets and repeated loads *)

Section Loader.
Import BigQuery IngestGcp IngestSpec IngestFacts.

Variable PROJECT_ID : option string.
Variable BUCKET_NAME : string.
Variable base_dir : string.

Implicit Types (s : St Cloud) (c : Cloud) (cfg : LoadJobConfig).

Abbreviation table_id' := (table_id_of PROJECT_ID).

Create Rewrite HintDb world.
Hint Rewrite length_trace_record faults_record blobs_record tables_record
  fs_record dataset_record faults_set_table trace_set_table tables_set_table
  : world.

(** X7. An upload never raises. When it returns a URI, that is the
    [gs://] URI of the blob, the path is a regular file and the bucket
    holds the file's content at the URI; when it returns [None], the
    bucket is as it was and the failure is logged. *)
Theorem upload_stores_the_file_or_reports local_file_path destination_blob_name s :
  ∃ r s',
    upload_to_gcs BUCKET_NAME local_file_path destination_blob_name s
      = (Returned r, s') ∧
    tables (world s') = tables (world s) ∧
    match r with
    | Some gcs_uri =>
        gcs_uri = "gs://" +:+ BUCKET_NAME +:+ "/" +:+ destination_blob_name ∧
        (∃ content,
           fs (world s) !! local_file_path = Some (File content) ∧
           blobs (world s') = <[gcs_uri := content]> (blobs (world s))) ∧
        logs s' = logs s ++
          [{| levelname := INFO;
              msg := "File " +:+ local_file_path +:+ " uploaded to "
                     +:+ destination_blob_name +:+ "." |}]
    | None =>
        blobs (world s') = blobs (world s) ∧
        ∃ e, logs s' = logs s ++
          [{| levelname := ERROR;
              msg := "Failed to upload " +:+ local_file_path +:+ ": " +:+ str_exn e |}]
    end.
Proof.
  destruct s as [c lg]. cbn [world logs].
  unfold upload_to_gcs, try_except, bind at 1.
  unfold blob_upload_from_filename, api, call. cbn [world logs].
  destruct (faults c _ _) as [e|].
  { eexists None, _. split; [reflexivity|]. cbn. do 2 (split; [done|]). by exists e. }
  change (fs (record_call _ c)) with (fs c).
  destruct (fs c !! local_file_path) as [[listing|content]|] eqn:Hpath.
  - eexists None, _. split; [reflexivity|]. cbn. do 2 (split; [done|]).
    by exists {| exn_class := "IsADirectoryError";
                 exn_msg := "[Errno 21] Is a directory: " +:+ repr_str local_file_path |}.
  - eexists (Some _), _. split; [reflexivity|]. cbn. do 2 (split; [done|]).
    split; [|done]. by exists content.
  - eexists None, _. split; [reflexivity|]. cbn. do 2 (split; [done|]).
    by exists {| exn_class := "FileNotFoundError";
                 exn_msg := "[Errno 2] No such file or directory: "
                            +:+ repr_str local_file_path |}.
Qed.

Abbreviation dataset_id' := (str_opt PROJECT_ID +:+ "." +:+ DATASET_ID).

(** X8. The dataset is looked up first. If the lookup succeeds nothing
    is created. If it raises, for whatever reason (a fault of the call,
    or the dataset is missing), creation is attempted: on a missing
    dataset it succeeds, the dataset exists afterwards and the creation
    is logged; an exception of the creation itself escapes the
    function, and so does the conflict with a dataset that exists after
    all. The first four parts cover every case; by the last, the
    dataset is missing afterwards only when it was missing before and
    the creation raised. *)
Theorem dataset_created_only_after_failed_lookup s :
  let c := world s in
  let looked := record_call (get_dataset dataset_id') c in
  let tried := record_call (create_dataset dataset_id') looked in
  (faults c (length (trace c)) (get_dataset dataset_id') = None →
   dataset c = true →
   create_dataset_if_not_exists PROJECT_ID s
   = (Returned tt,
      {| world := looked;
         logs := logs s ++
           [{| levelname := INFO;
               msg := "Dataset " +:+ dataset_id' +:+ " already exists." |}] |})) ∧
  (dataset c = false →
   faults c (S (length (trace c))) (create_dataset dataset_id') = None →
   create_dataset_if_not_exists PROJECT_ID s
   = (Returned tt,
      {| world := set_dataset tried;
         logs := logs s ++
           [{| levelname := INFO;
               msg := "Created dataset " +:+ dataset_id' +:+ "." |}] |})) ∧
  (∀ e, faults c (S (length (trace c))) (create_dataset dataset_id') = Some e →
        faults c (length (trace c)) (get_dataset dataset_id') ≠ None ∨ dataset c = false →
        create_dataset_if_not_exists PROJECT_ID s
        = (Raised e, {| world := tried; logs := logs s |})) ∧
  (∀ e, faults c (length (trace c)) (get_dataset dataset_id') = Some e →
        faults c (S (length (trace c))) (create_dataset dataset_id') = None →
        dataset c = true →
        ∃ conflict,
          exn_class conflict = "Conflict" ∧
          create_dataset_if_not_exists PROJECT_ID s
          = (Raised conflict, {| world := tried; logs := logs s |})) ∧
  (dataset (world (create_dataset_if_not_exists PROJECT_ID s).2) = false →
   dataset c = false ∧
   ∃ e, (create_dataset_if_not_exists PROJECT_ID s).1 = Raised e ∧
        faults c (S (length (trace c))) (create_dataset dataset_id') = Some e).
Proof.
  destruct s as [c lg]. cbn [world logs].
  unfold create_dataset_if_not_exists, try_except, bind.
  unfold bq_get_dataset, bq_create_dataset, api, call. cbn [world logs].
  split; [|split; [|split; [|split]]].
  - intros -> Hds. change (dataset (record_call _ c)) with (dataset c).
    by rewrite Hds.
  - intros Hds Hcreate.
    destruct (faults c (length (trace c)) _) as [e1|] eqn:Hget.
    + cbn [world logs]. autorewrite with world. rewrite Hcreate.
      change (dataset (record_call _ (record_call _ c))) with (dataset c).
      by rewrite Hds.
    + change (dataset (record_call _ c)) with (dataset c).
      rewrite Hds. cbn [world logs]. autorewrite with world. rewrite Hcreate.
      change (dataset (record_call _ (record_call _ c))) with (dataset c).
      by rewrite Hds.
  - intros e Hcreate Hlookup.
    destruct (faults c (length (trace c)) _) as [e1|] eqn:Hget.
    + cbn [world logs]. autorewrite with world. by rewrite Hcreate.
    + destruct Hlookup as [?|Hds]; [done|].
      change (dataset (record_call _ c)) with (dataset c). rewrite Hds.
      cbn [world logs]. autorewrite with world. by rewrite Hcreate.
  - intros e -> Hcreate Hds. cbn [world logs]. autorewrite with world.
    rewrite Hcreate. change (dataset (record_call _ (record_call _ c))) with (dataset c).
    rewrite Hds. eexists. split; [|reflexivity]. reflexivity.
  - unfold logging_info, emit.
    destruct (faults c (length (trace c)) _) as [e1|] eqn:Hget;
      cbn [world logs]; autorewrite with world.
    + destruct (faults c (S (length (trace c))) _) as [e2|] eqn:Hcreate;
        cbn [world logs fst snd]; autorewrite with world.
      * intros Hflag. split; [done|]. by exists e2.
      * destruct (dataset c) eqn:Hds; cbn [world logs fst snd]; autorewrite with world;
          by rewrite ?Hds.
    + destruct (dataset c) eqn:Hds; cbn [world logs fst snd]; autorewrite with world.
      * by rewrite Hds.
      * destruct (faults c (S (length (trace c))) _) as [e2|] eqn:Hcreate;
          cbn [world logs fst snd]; autorewrite with world.
        -- intros _. split; [done|]. by exists e2.
        -- rewrite Hds. cbn [world logs fst snd]. done.
Qed.

(** X9. A lookup of the dataset that fails although the dataset exists
    aborts the whole run: [main] raises the conflict of the creation
    after its opening line, and no file has been uploaded or loaded. *)
Theorem failed_lookup_of_existing_dataset_aborts_main s e :
  faults (world s) (length (trace (world s))) (get_dataset dataset_id') = Some e →
  faults (world s) (S (length (trace (world s)))) (create_dataset dataset_id') = None →
  dataset (world s) = true →
  main PROJECT_ID BUCKET_NAME base_dir s
  = (Raised {| exn_class := "Conflict";
               exn_msg := "Already Exists: Dataset " +:+ dataset_id' |},
     {| world := record_call (create_dataset dataset_id')
                   (record_call (get_dataset dataset_id') (world s));
        logs := logs s ++
          [{| levelname := INFO; msg := "Looking for data in: " +:+ base_dir |}] |}).
Proof.
  intros Hget Hcreate Hds. destruct s as [c lg]. cbn [world logs] in *.
  unfold main. unfold bind at 1. unfold logging_info at 1, emit at 1. cbn [world logs].
  unfold bind at 1.
  unfold create_dataset_if_not_exists, try_except, bind.
  unfold bq_get_dataset, bq_create_dataset, api, call. cbn [world logs].
  rewrite Hget. cbn [world logs]. autorewrite with world. rewrite Hcreate.
  change (dataset (record_call _ (record_call _ c))) with (dataset c).
  by rewrite Hds.
Qed.

(** *** Loads and the state of the table *)

Lemma quiet_calls_succeed gcs_uri table_id c :
  quiet c → load_calls_succeed gcs_uri table_id c.
Proof. intros H. by repeat split. Qed.

(** The schema a loader loads with does not depend on the table. *)
Lemma loader_schema_of loader cfg table_name file d1 d2 :
  is_loader PROJECT_ID loader cfg table_name →
  schema_of cfg file d1 = schema_of cfg file d2.
Proof.
  intros [[_ ->]|[_ ->]]; unfold schema_of, job_schema; [done|].
  cbn [schema autodetect json_job_config].
  by destruct (json_schema table_name).
Qed.

Lemma final_schema_new_table cfg file :
  final_schema cfg file None = inr (schema_of cfg file None).
Proof. reflexivity. Qed.

Lemma zero_warning_in_report table_name (t : Table) (st : JobStatus) :
  {| levelname := WARNING;
     msg := "WARNING: Zero rows loaded to " +:+ table_id' table_name |}
    ∈ report PROJECT_ID table_name t st
  ↔ table_rows t = [].
Proof.
  unfold report, num_rows. split.
  - intros Hin. destruct (table_rows t) as [|r rs]; [done|]. exfalso.
    cbn [length Nat.eqb] in Hin. rewrite app_nil_r in Hin.
    apply elem_of_cons in Hin as [Hin|Hin]; [done|].
    destruct (errors st) as [|e es]; [by apply elem_of_nil in Hin|].
    apply elem_of_cons in Hin as [Hin|Hin]; [done|].
    by apply list_elem_of_fmap in Hin as (e' & He' & _).
  - intros ->. cbn [length Nat.eqb]. apply elem_of_app. right.
    apply elem_of_app. right. by left.
Qed.

(** X10. The first load into a table that is not there creates it with
    the schema the job loads with and the parsed rows of the file; the
    zero-rows warning is then logged exactly when the file contributed
    no row. *)
Theorem first_load_creates_the_table loader cfg gcs_uri table_name s file :
  is_loader PROJECT_ID loader cfg table_name →
  load_calls_succeed gcs_uri (table_id' table_name) (world s) →
  blobs (world s) !! gcs_uri = Some file →
  tables (world s) !! table_id' table_name = None →
  length (malformed gcs_uri file) ≤ 100 →
  ∃ s' t,
    loader gcs_uri table_name s = (Returned tt, s') ∧
    tables (world s') !! table_id' table_name = Some t ∧
    table_schema t = schema_of cfg file None ∧
    table_rows t = parsed_rows (schema_of cfg file None) file ∧
    ({| levelname := WARNING;
        msg := "WARNING: Zero rows loaded to " +:+ table_id' table_name |}
       ∈ logged_since s s'
     ↔ parsed_rows (schema_of cfg file None) file = []).
Proof.
  intros Hloader Hcalls Hblob Hnew Hbad.
  destruct (loader_accepted PROJECT_ID loader cfg gcs_uri table_name s file
              (schema_of cfg file None) Hloader Hcalls Hblob) as [Hok _];
    [by rewrite Hnew|].
  rewrite Hnew in Hok. cbn [from_option empty_table table_rows app] in Hok.
  eexists _, _. split; [by apply Hok|]. cbn [world logs].
  split; [apply lookup_insert_eq|]. do 2 (split; [done|]).
  unfold logged_since. cbn [logs]. rewrite drop_app_length.
  by rewrite zero_warning_in_report.
Qed.

(** X11. Loads append and never deduplicate: loading the same object
    twice in a row, both jobs being accepted, leaves the table with the
    file's rows twice after the rows it had. *)
Theorem reloading_a_file_duplicates_its_rows
    loader cfg gcs_uri table_name s file final1 final2 :
  is_loader PROJECT_ID loader cfg table_name →
  quiet (world s) →
  blobs (world s) !! gcs_uri = Some file →
  length (malformed gcs_uri file) ≤ 100 →
  let dest := tables (world s) !! table_id' table_name in
  let good := parsed_rows (schema_of cfg file dest) file in
  let old := table_rows (default empty_table dest) in
  final_schema cfg file dest = inr final1 →
  final_schema cfg file
    (Some {| table_schema := final1; table_rows := old ++ good |}) = inr final2 →
  ∃ s2 t2,
    (loader gcs_uri table_name;; loader gcs_uri table_name) s = (Returned tt, s2) ∧
    tables (world s2) !! table_id' table_name = Some t2 ∧
    table_rows t2 = (old ++ good) ++ good.
Proof.
  intros Hloader Hquiet Hblob Hbad dest good old Hfinal1 Hfinal2.
  destruct (loader_accepted PROJECT_ID loader cfg gcs_uri table_name s file final1
              Hloader (quiet_calls_succeed _ _ _ Hquiet) Hblob Hfinal1) as [Hok1 _].
  specialize (Hok1 Hbad). fold dest good old in Hok1.
  match type of Hok1 with _ = (_, ?st) => set (s1 := st) in * end.
  assert (tables (world s1) !! table_id' table_name
          = Some {| table_schema := final1; table_rows := old ++ good |}) as Ht1
    by apply lookup_insert_eq.
  destruct (loader_accepted PROJECT_ID loader cfg gcs_uri table_name s1 file final2
              Hloader) as [Hok2 _].
  - by apply quiet_calls_succeed.
  - done.
  - by rewrite Ht1.
  - specialize (Hok2 Hbad). rewrite Ht1 in Hok2. cbn [from_option id table_rows] in Hok2.
    rewrite (loader_schema_of loader cfg table_name file _ dest Hloader) in Hok2.
    fold good in Hok2.
    eexists _, _. split.
    + unfold bind. rewrite Hok1. exact Hok2.
    + cbn [world logs]. split; [apply lookup_insert_eq | done].
Qed.

(** X12. A load of a URI that has no object in the bucket fails at the
    wait for the job with the service's [NotFound]: the loader returns
    normally, logs that exception in one error line, never reads the
    table back and changes no table. *)
Theorem load_of_missing_object_is_reported loader cfg gcs_uri table_name s :
  is_loader PROJECT_ID loader cfg table_name →
  load_calls_succeed gcs_uri (table_id' table_name) (world s) →
  blobs (world s) !! gcs_uri = None →
  ∃ e,
    exn_class e = "NotFound" ∧
    loader gcs_uri table_name s
    = (Returned tt,
       {| world := record_call (result gcs_uri (table_id' table_name))
                     (record_call (load_table_from_uri gcs_uri (table_id' table_name))
                        (world s));
          logs := logs s ++
            [{| levelname := ERROR;
                msg := "Failed to load " +:+ table_name +:+ ": " +:+ str_exn e |}] |}).
Proof.
  intros Hloader (H1 & H2 & _) Hblob.
  destruct (loader_cfg_shape PROJECT_ID loader cfg table_name Hloader) as (-> & _).
  destruct s as [c lg]. cbn [world logs] in *.
  unfold IngestSpec.load_with, try_except.
  unfold bind at 1. unfold bq_load_table_from_uri, api, call at 1. cbn [world logs].
  rewrite H1. cbn [job_uri job_table IngestGcp.job_config].
  unfold bind at 1. unfold load_job_result, api, call at 1.
  cbn [world logs job_uri job_table IngestGcp.job_config].
  autorewrite with world. rewrite H2, Hblob.
  eexists. split; [|reflexivity]. reflexivity.
Qed.

(** X13. For a table other than the two with an explicit schema the
    JSON loader detects the schema and allows no schema update: a file
    with a column the table lacks makes the load fail, and the table
    stays as it was. *)
Theorem json_load_into_other_table_cannot_widen gcs_uri table_name s file t col ty :
  json_schema table_name = None →
  load_calls_succeed gcs_uri (table_id' table_name) (world s) →
  blobs (world s) !! gcs_uri = Some file →
  tables (world s) !! table_id' table_name = Some t →
  (col, ty) ∈ columns file →
  col ∉ names (table_schema t) →
  ∃ e s',
    load_json_to_bq PROJECT_ID gcs_uri table_name s = (Returned tt, s') ∧
    exn_class e = "BadRequest" ∧
    (existsb (conflicts (table_schema t)) (detect_schema file) = false →
     exn_msg e = "Provided Schema does not match Table. Cannot add fields") ∧
    tables (world s') = tables (world s) ∧
    logs s' = logs s ++
      [{| levelname := ERROR;
          msg := "Failed to load " +:+ table_name +:+ ": " +:+ str_exn e |}].
Proof.
  intros Hsch Hcalls Hblob Ht Hcol Hnew.
  assert (∃ e, run_load (json_job_config table_name) gcs_uri file (Some t) = inl e ∧
               exn_class e = "BadRequest" ∧
               (existsb (conflicts (table_schema t)) (detect_schema file) = false →
                exn_msg e = "Provided Schema does not match Table. Cannot add fields"))
    as (e & Hrun & Hclass & Hmsg).
  { unfold run_load, final_schema, update_schema, job_schema, json_job_config.
    rewrite Hsch.
    cbn [schema autodetect schema_update_options write_disposition truthy
         from_option id bool_decide decide_rel].
    rewrite (bool_decide_true (None = None)) by done.
    destruct (existsb (conflicts (table_schema t)) (detect_schema file));
      [by eexists|].
    rewrite (bool_decide_false (_ = [])).
    - rewrite (bool_decide_false (ALLOW_FIELD_ADDITION ∈ [])) by by intros ?%elem_of_nil.
      by eexists.
    - intros Hnil.
      apply (filter_nil_not_elem_of _ _ (SchemaField_ col ty) Hnil); [done|].
      unfold detect_schema. apply list_elem_of_fmap. by exists (col, ty). }
  rewrite load_json_to_bq_eq.
  exists e. eexists. split.
  - apply (load_with_job_fails PROJECT_ID (json_job_config table_name)
             gcs_uri table_name s file e Hcalls Hblob). by rewrite Ht.
  - done.
Qed.

(** *** What a run requests, whatever fails *)

Abbreviation sound := (requests_sound PROJECT_ID).
Abbreviation keeps := (@keeps_sound PROJECT_ID _).

Lemma sound_refl s : sound s s.
Proof.
  split; [done|]. exists []. split; [by rewrite app_nil_r|].
  intros u t Hin. by apply elem_of_nil in Hin.
Qed.

Lemma sound_trans s s1 s2 : sound s s1 → sound s1 s2 → sound s s2.
Proof.
  intros (Hm1 & new1 & Hl1 & Hn1) (Hm2 & new2 & Hl2 & Hn2). split; [auto|].
  exists (new1 ++ new2). split; [by rewrite Hl2, Hl1, app_assoc|].
  intros u t [Hin|Hin]%elem_of_app; [|auto].
  destruct (Hn1 u t Hin). auto.
Qed.

(** A step that touches neither the bucket nor the loads requested. *)
Lemma sound_frame s s' :
  blobs (world s') = blobs (world s) →
  loads (trace (world s')) = loads (trace (world s)) → sound s s'.
Proof.
  intros Hb Hl. split; [by rewrite Hb|]. exists []. split; [by rewrite Hl, app_nil_r|].
  intros u t Hin. by apply elem_of_nil in Hin.
Qed.

Lemma keeps_bind {A B} (m : M Cloud A) (k : A → M Cloud B) :
  keeps m → (∀ a, keeps (k a)) → keeps (a <- m;; k a).
Proof.
  intros Hm Hk s r s'. unfold bind.
  destruct (m s) as [[a|e] s1] eqn:Hms.
  - intros Hks. eapply sound_trans; [by eapply Hm | by eapply Hk].
  - intros [= <- <-]. by eapply Hm.
Qed.

Lemma keeps_for_each {A} (xs : list A) (body : A → M Cloud unit) :
  (∀ x, x ∈ xs → keeps (body x)) → keeps (for_each xs body).
Proof.
  induction xs as [|x xs IH]; intros Hbody.
  - intros s r s' [= <- <-]. apply sound_refl.
  - cbn [for_each]. apply keeps_bind; [apply Hbody; by left|].
    intros _. apply IH. intros y Hy. apply Hbody. by right.
Qed.

Lemma keeps_emit l text : keeps (emit (W:=Cloud) l text).
Proof. intros s r s' [= <- <-]. by apply sound_frame. Qed.

Lemma keeps_create_dataset : keeps (create_dataset_if_not_exists PROJECT_ID).
Proof.
  intros [c lg] r s'.
  unfold create_dataset_if_not_exists, try_except, bind.
  unfold bq_get_dataset, bq_create_dataset, api, call, logging_info, emit.
  cbn [world logs]. autorewrite with world.
  destruct (faults c _ _) as [e1|]; [|destruct (dataset c) eqn:Hds]; cbn [world logs];
    autorewrite with world; rewrite ?Hds;
    try destruct (faults c _ _) as [e2|]; try destruct (dataset c);
    intros [= <- <-]; apply sound_frame; cbn;
    rewrite ?loads_snoc_other by done; done.
Qed.

(** An upload removes nothing from the bucket and requests no load; the
    URI it returns has an object. *)
Lemma upload_sound local_file_path destination_blob_name s r s' :
  upload_to_gcs BUCKET_NAME local_file_path destination_blob_name s = (r, s') →
  (∀ u, is_Some (blobs (world s) !! u) → is_Some (blobs (world s') !! u)) ∧
  loads (trace (world s')) = loads (trace (world s)) ∧
  ∀ u, r = Returned (Some u) → is_Some (blobs (world s') !! u).
Proof.
  destruct s as [c lg]. cbn [world logs].
  unfold upload_to_gcs, try_except, bind at 1.
  unfold blob_upload_from_filename, api, call, logging_info, logging_error, emit, ret.
  cbn [world logs]. autorewrite with world.
  destruct (faults c _ _) as [e1|];
    [|destruct (fs c !! local_file_path) as [[listing|content]|]];
    intros [= <- <-]; cbn;
    rewrite ?loads_snoc_other by done; (split; [|split; [done|]]); try done.
  - intros u Hu. destruct (decide (u = "gs://" +:+ BUCKET_NAME +:+ "/" +:+ destination_blob_name)) as [->|Hne].
    + rewrite lookup_insert_eq. eauto.
    + by rewrite lookup_insert_ne.
  - intros u [= <-]. rewrite lookup_insert_eq. eauto.
Qed.

Lemma load_with_frame cfg : loader_frame PROJECT_ID (IngestSpec.load_with PROJECT_ID cfg).
Proof.
  intros gcs_uri table_name [c lg] r s'.
  unfold IngestSpec.load_with, try_except.
  unfold bind at 1. unfold bq_load_table_from_uri, api, call at 1. cbn [world logs].
  destruct (faults c _ _) as [e1|].
  { intros [= <- <-]. cbn. by rewrite loads_snoc_load. }
  cbn [job_uri job_table IngestGcp.job_config].
  unfold bind at 1. unfold load_job_result, api, call at 1.
  cbn [world logs job_uri job_table IngestGcp.job_config].
  autorewrite with world.
  destruct (faults c _ _) as [e2|].
  { intros [= <- <-]. cbn. rewrite loads_snoc_other by done. by rewrite loads_snoc_load. }
  destruct (blobs c !! gcs_uri) as [file|].
  2:{ intros [= <- <-]. cbn. rewrite loads_snoc_other by done. by rewrite loads_snoc_load. }
  destruct (run_load _ _ _ _) as [e3|[t st]].
  { intros [= <- <-]. cbn. rewrite loads_snoc_other by done. by rewrite loads_snoc_load. }
  unfold bind at 1. unfold bq_get_table, api, call at 1. cbn [world logs].
  autorewrite with world.
  destruct (faults c _ _) as [e4|].
  { intros [= <- <-]. cbn. do 2 (rewrite loads_snoc_other by done).
    by rewrite loads_snoc_load. }
  rewrite lookup_insert_eq. rewrite report_logged.
  intros [= <- <-]. cbn. do 2 (rewrite loads_snoc_other by done).
  by rewrite loads_snoc_load.
Qed.

Lemma ingestion_map_frame item :
  item ∈ ingestion_map PROJECT_ID →
  loader_frame PROJECT_ID item.2.2 ∧
  table_id' item.2.1 ∈ staging_tables PROJECT_ID.
Proof.
  intros Hin. split.
  - repeat (apply elem_of_cons in Hin as [->|Hin]);
      [..|by apply elem_of_nil in Hin]; cbn [snd];
      intros u tn s r s'; rewrite ?load_csv_to_bq_eq, ?load_json_to_bq_eq;
      apply load_with_frame.
  - unfold staging_tables. apply list_elem_of_fmap. by exists item.
Qed.

Lemma keeps_ingest_file source_folder table_name loader folder_path filename :
  loader_frame PROJECT_ID loader →
  table_id' table_name ∈ staging_tables PROJECT_ID →
  keeps (ingest_file BUCKET_NAME source_folder table_name loader folder_path filename).
Proof.
  intros Hloader Htable s r s'. unfold ingest_file. unfold bind at 1.
  destruct (upload_to_gcs _ _ _ s) as [[o|e] s1] eqn:Hup.
  2:{ intros [= <- <-]. apply upload_sound in Hup as (Hmono & Hloads & _).
      split; [done|]. exists []. split; [by rewrite Hloads, app_nil_r|].
      intros u t Hin. by apply elem_of_nil in Hin. }
  apply upload_sound in Hup as (Hmono & Hloads & Hthere).
  assert (sound s s1) as Hs1.
  { split; [done|]. exists []. split; [by rewrite Hloads, app_nil_r|].
    intros u t Hin. by apply elem_of_nil in Hin. }
  destruct o as [u|]; [|by intros [= <- <-]].
  destruct (truthy_str u); [|by intros [= <- <-]].
  destruct (endswith filename ".csv" || endswith filename ".json");
    [|by intros [= <- <-]].
  unfold bind at 1, logging_info at 1, emit at 1. intros Hload.
  apply Hloader in Hload as [Hb Hl]. cbn [world logs] in Hb, Hl.
  split; [intros u' Hu'; rewrite Hb; auto|].
  exists [(u, table_id' table_name)]. split; [by rewrite Hl, Hloads|].
  intros u' t' [= -> ->]%list_elem_of_singleton.
  split; [|done]. rewrite Hb. by apply Hthere.
Qed.

Lemma keeps_call_pure {A} (f : Cloud → Outcome A * Cloud) :
  (∀ c, (f c).2 = c) → keeps (call f).
Proof.
  intros Hf [c lg] r s'. unfold call. cbn [world logs].
  specialize (Hf c). destruct (f c) as [r0 c0]. cbn in Hf. subst c0.
  intros [= <- <-]. by apply sound_frame.
Qed.

Lemma keeps_ingest_source item :
  item ∈ ingestion_map PROJECT_ID →
  keeps (ingest_source BUCKET_NAME base_dir item).
Proof.
  intros Hitem. destruct (ingestion_map_frame item Hitem) as [Hloader Htable].
  destruct item as [source_folder [table_name loader]]. cbn [fst snd] in *.
  unfold ingest_source. apply keeps_bind.
  - by apply keeps_call_pure.
  - intros found. destruct (negb found); [apply keeps_emit|].
    apply keeps_bind.
    + apply keeps_call_pure. intros c. by repeat case_match.
    + intros listing. apply keeps_for_each. intros filename _.
      by apply keeps_ingest_file.
Qed.

(** X14. Whatever fails and however the run ends, [main] takes nothing
    out of the bucket, and every load it requests is for an object that
    is in the bucket and goes to one of the four staging tables. *)
Theorem main_loads_only_uploaded_objects s r s' :
  main PROJECT_ID BUCKET_NAME base_dir s = (r, s') →
  (∀ u, is_Some (blobs (world s) !! u) → is_Some (blobs (world s') !! u)) ∧
  ∃ new,
    loads (trace (world s')) = loads (trace (world s)) ++ new ∧
    ∀ u t, (u, t) ∈ new →
      is_Some (blobs (world s') !! u) ∧ t ∈ staging_tables PROJECT_ID.
Proof.
  revert s r s'. change (keeps (main PROJECT_ID BUCKET_NAME base_dir)).
  unfold main. apply keeps_bind; [apply keeps_emit|]. intros _.
  apply keeps_bind; [apply keeps_create_dataset|]. intros _.
  apply keeps_for_each. intros item. apply keeps_ingest_source.
Qed.

(** *** A landing area without folders *)

Lemma missing_folders_warned items s :
  (∀ item, item ∈ items → fs (world s) !! path_join base_dir item.1 = None) →
  for_each items (ingest_source BUCKET_NAME base_dir) s
  = (Returned tt,
     {| world := world s;
        logs := logs s ++
          ((λ item, {| levelname := WARNING;
                       msg := "Directory not found: " +:+ path_join base_dir item.1 |})
             <$> items) |}).
Proof.
  revert s. induction items as [|[src [tn loader]] items IH]; intros [c lg] Hnone.
  - cbn. by rewrite app_nil_r.
  - cbn [for_each]. unfold bind at 1. unfold ingest_source at 1.
    unfold bind at 1, os_path_exists, call. cbn [world logs fst] in *.
    pose proof (Hnone (src, (tn, loader)) ltac:(by left)) as Hsrc.
    cbn [fst] in Hsrc. rewrite Hsrc.
    rewrite bool_decide_false by (by intros [? ?]). cbn [negb].
    unfold logging_warning, emit. cbn [world logs].
    rewrite IH by (intros item Hin; apply Hnone; by right).
    cbn [world logs fmap list_fmap fst]. by rewrite <- app_assoc.
Qed.

(** X15. On a landing area where no source folder exists, a run whose
    dataset calls succeed touches nothing: after the dataset is found it
    logs one warning per source, in the order of the sources, and makes
    no other call. *)
Theorem run_without_source_folders_only_warns s :
  no_source_folder PROJECT_ID base_dir (fs (world s)) →
  faults (world s) (length (trace (world s))) (get_dataset dataset_id') = None →
  dataset (world s) = true →
  main PROJECT_ID BUCKET_NAME base_dir s
  = (Returned tt,
     {| world := record_call (get_dataset dataset_id') (world s);
        logs := logs s ++
          [{| levelname := INFO; msg := "Looking for data in: " +:+ base_dir |};
           {| levelname := INFO;
              msg := "Dataset " +:+ dataset_id' +:+ " already exists." |}]
          ++ folders_missing_warnings PROJECT_ID base_dir |}).
Proof.
  intros Hnone Hget Hds. destruct s as [c lg]. cbn [world logs] in *.
  unfold main. unfold bind at 1. unfold logging_info at 1, emit at 1. cbn [world logs].
  unfold bind at 1.
  unfold create_dataset_if_not_exists, try_except, bind at 1.
  unfold bq_get_dataset, api, call at 1. cbn [world logs].
  rewrite Hget. change (dataset (record_call _ c)) with (dataset c). rewrite Hds.
  unfold logging_info, emit. cbn [world logs].
  rewrite missing_folders_warned by done.
  cbn [world logs]. unfold folders_missing_warnings. by rewrite <- !app_assoc.
Qed.

(** *** The bucket after a run *)

Abbreviation uri' := (uri_of BUCKET_NAME).
Abbreviation path' := (local_path base_dir).
Abbreviation mirrors' := (mirrors BUCKET_NAME base_dir).














(** *** What a run uploads and loads *)














End Loader.


(** ** The transformation runner *)

Section Qualification.
Import Stdlib.Strings.Ascii.
Import RunPipeline PipelineSpec.

Lemma prefix_app (a rest : string) : String.prefix a (a +:+ rest) = true.
Proof.
  induction a as [|c a IH]; [by destruct rest|].
  change (String c a +:+ rest) with (String c (a +:+ rest)). cbn [String.prefix].
  by destruct (Ascii.ascii_dec c c).
Qed.

Lemma prefix_split (a s : string) :
  String.prefix a s = true → ∃ rest, s = a +:+ rest.
Proof.
  revert s. induction a as [|c a IH]; intros s H.
  - by exists s.
  - destruct s as [|d s]; [done|]. cbn [String.prefix] in H.
    destruct (Ascii.ascii_dec c d) as [->|]; [|done].
    destruct (IH s H) as [rest ->]. by exists rest.
Qed.

Lemma prefix_app_long (t a rest : string) :
  String.length t ≤ String.length a →
  String.prefix t (a +:+ rest) = String.prefix t a.
Proof.
  revert a. induction t as [|c t IH]; intros a Hlen.
  - by destruct a, rest.
  - destruct a as [|d a]; [cbn in Hlen; lia|].
    change (String d a +:+ rest) with (String d (a +:+ rest)). cbn [String.prefix].
    destruct (Ascii.ascii_dec c d); [|done]. apply IH. cbn in Hlen. lia.
Qed.

Lemma string_length_app (a rest : string) :
  String.length (a +:+ rest) = String.length a + String.length rest.
Proof.
  induction a as [|c a IH]; [done|].
  change (String c a +:+ rest) with (String c (a +:+ rest)). cbn. by rewrite IH.
Qed.

Lemma has_char_app c (a rest : string) :
  has_char c (a +:+ rest) = has_char c a || has_char c rest.
Proof.
  induction a as [|d a IH]; [done|].
  change (String d a +:+ rest) with (String d (a +:+ rest)). cbn.
  by rewrite IH, orb_assoc.
Qed.

Lemma replace_skip (a rest old new : string) :
  replace_from (String.length a) (a +:+ rest) old new = replace_from 0 rest old new.
Proof.
  induction a as [|c a IH]; [done|].
  change (String c a +:+ rest) with (String c (a +:+ rest)). exact IH.
Qed.

(** At an occurrence, the replacement is written and the search goes
    on behind the occurrence. *)
Lemma replace_occurrence c (old' rest new : string) :
  str_replace (String c old' +:+ rest) (String c old') new
  = new +:+ str_replace rest (String c old') new.
Proof.
  unfold str_replace.
  change (String c old' +:+ rest) with (String c (old' +:+ rest)) at 1.
  cbn [replace_from].
  change (String c (old' +:+ rest)) with (String c old' +:+ rest).
  rewrite prefix_app.
  replace (String.length (String c old') - 1) with (String.length old')
    by (cbn [String.length]; lia).
  by rewrite replace_skip.
Qed.

(** Elsewhere the character is kept. *)
Lemma replace_other c (rest old new : string) :
  String.prefix old (String c rest) = false →
  str_replace (String c rest) old new = String c (str_replace rest old new).
Proof. unfold str_replace. cbn [replace_from]. by intros ->. Qed.

Section Marker.
(** The searched text begins with a character [b] that occurs nowhere
    else in it, and the replacement is [b] followed by some [inserted]
    text without [b] that does not begin with the rest of the searched
    text. *)
Variable b : Ascii.ascii.
Variables tail inserted : string.
Hypothesis tail_clean : has_char b tail = false.
Hypothesis inserted_clean : has_char b inserted = false.
Hypothesis inserted_long : String.length tail ≤ String.length inserted.
Hypothesis inserted_differs : String.prefix tail inserted = false.

Let old := String b tail.
Let new := String b inserted.

Lemma prefix_of_replaced (t r : string) :
  has_char b t = false →
  String.prefix t (str_replace r old new) = true → String.prefix t r = true.
Proof.
  revert t. induction r as [|c r IH]; intros t Ht H; [done|].
  destruct t as [|d t]; [done|].
  cbn in Ht. apply orb_false_elim in Ht as [Hd Ht].
  destruct (String.prefix old (String c r)) eqn:Hocc.
  - apply prefix_split in Hocc as [rest Hrest]. rewrite Hrest in H.
    unfold old in H. rewrite replace_occurrence in H.
    unfold new in H. change (String b inserted +:+ ?x) with (String b (inserted +:+ x)) in H.
    cbn [String.prefix] in H. destruct (Ascii.ascii_dec d b) as [->|]; [|done].
    by rewrite Ascii.eqb_refl in Hd.
  - rewrite replace_other in H by done. cbn [String.prefix] in H |- *.
    destruct (Ascii.ascii_dec d c); [|done]. by apply IH.
Qed.

Lemma occurs_behind_clean (a rest : string) :
  has_char b a = false → occurs_in old (a +:+ rest) = occurs_in old rest.
Proof.
  induction a as [|d a IH]; intros Ha; [done|].
  cbn in Ha. apply orb_false_elim in Ha as [Hd Ha].
  change (String d a +:+ rest) with (String d (a +:+ rest)).
  cbn [occurs_in]. rewrite IH by done.
  unfold old. cbn [String.prefix].
  destruct (Ascii.ascii_dec b d) as [->|]; [|done].
  by rewrite Ascii.eqb_refl in Hd.
Qed.

Lemma replaced_has_no_occurrence (s : string) :
  occurs_in old (str_replace s old new) = false.
Proof.
  remember (String.length s) as n eqn:Hn. revert s Hn.
  induction n as [n IH] using lt_wf_ind. intros s ->.
  destruct s as [|c r]; [done|].
  destruct (String.prefix old (String c r)) eqn:Hocc.
  - apply prefix_split in Hocc as [rest Hrest]. rewrite Hrest.
    unfold old at 2 3. rewrite replace_occurrence. fold old.
    unfold new at 1. change (String b inserted +:+ ?x) with (String b (inserted +:+ x)).
    cbn [occurs_in]. rewrite occurs_behind_clean by done.
    rewrite (IH (String.length rest)); [| |done].
    + rewrite orb_false_r. unfold old. cbn [String.prefix].
      destruct (Ascii.ascii_dec b b); [|done].
      by rewrite prefix_app_long.
    + rewrite Hrest, string_length_app. unfold old. cbn. lia.
  - rewrite replace_other by done. cbn [occurs_in].
    rewrite (IH (String.length r)); [|cbn; lia|done].
    rewrite orb_false_r. unfold old. cbn [String.prefix].
    destruct (Ascii.ascii_dec b c) as [<-|]; [|done].
    destruct (String.prefix tail (str_replace r old new)) eqn:Hp; [|done].
    apply prefix_of_replaced in Hp; [|done].
    unfold old in Hocc. cbn [String.prefix] in Hocc.
    destruct (Ascii.ascii_dec b b); [congruence|done].
Qed.

End Marker.

Lemma replace_without_occurrence (s old new : string) :
  occurs_in old s = false → str_replace s old new = s.
Proof.
  induction s as [|c r IH]; [done|]. cbn [occurs_in].
  intros [Hhere Hrest]%orb_false_elim.
  rewrite replace_other by done. by rewrite IH.
Qed.

Variable PROJECT_ID : option string.

(** X17. The rewriting of a script before it is submitted. A text with
    no reference that begins with a backquote and [gigmart.] is
    submitted as written. When the project id has no backquote and the
    qualified prefix does not itself read [gigmart.] behind its
    backquote, the rewritten text has no such reference left, so
    rewriting it again changes nothing. *)
Theorem qualified_text_has_no_bare_reference text :
  (occurs_in "`gigmart." text = false → qualified PROJECT_ID text = text) ∧
  (has_char "`"%char (str_opt PROJECT_ID) = false →
   String.prefix "gigmart." (str_opt PROJECT_ID +:+ ".gigmart.") = false →
   occurs_in "`gigmart." (qualified PROJECT_ID text) = false ∧
   qualified PROJECT_ID (qualified PROJECT_ID text) = qualified PROJECT_ID text).
Proof.
  split; [apply replace_without_occurrence|].
  intros Hclean Hdiffers.
  assert (occurs_in "`gigmart." (qualified PROJECT_ID text) = false) as Hnone.
  { unfold qualified.
    change ("`" +:+ str_opt PROJECT_ID +:+ ".gigmart.")
      with (String "`"%char (str_opt PROJECT_ID +:+ ".gigmart.")).
    apply (replaced_has_no_occurrence "`"%char "gigmart."
             (str_opt PROJECT_ID +:+ ".gigmart.")); [done| | |done].
    - by rewrite has_char_app, Hclean.
    - rewrite string_length_app. cbn. lia. }
  split; [done|]. by apply replace_without_occurrence.
Qed.

End Qualification.

Section Runner.
Import RunPipeline PipelineSpec.

Variable PROJECT_ID : option string.
Variable base_dir : string.

Abbreviation qualified' := (qualified PROJECT_ID).

Lemma faults_after a c : faults (record_call a c) = faults c.
Proof. reflexivity. Qed.

Lemma calls_after a c : length (trace (record_call a c)) = S (length (trace c)).
Proof. unfold record_call. cbn [trace]. rewrite length_app. cbn. lia. Qed.

Lemma fs_after a c : fs (record_call a c) = fs c.
Proof. reflexivity. Qed.

Lemma dataset_after a c : dataset (record_call a c) = dataset c.
Proof. reflexivity. Qed.

Lemma trace_after a c : trace (record_call a c) = trace c ++ [a].
Proof. reflexivity. Qed.

(** Decides the tests on a path once its entry is known, and looks
    through the calls already made. *)
Ltac settle_path :=
  repeat first
    [ progress cbn [negb world logs]
    | rewrite faults_after
    | rewrite calls_after
    | rewrite fs_after
    | match goal with H : fs _ !! _ = _ |- _ => rewrite H end
    | rewrite bool_decide_true by eauto
    | rewrite bool_decide_false by (by intros [? ?]) ].

Lemma submitted_snoc_query tr sql : submitted (tr ++ [query sql]) = submitted tr ++ [sql].
Proof. unfold submitted. by rewrite omap_app. Qed.

Lemma submitted_snoc_result tr sql : submitted (tr ++ [result sql]) = submitted tr.
Proof. unfold submitted. by rewrite omap_app, app_nil_r. Qed.

Lemma length_snoc (tr : list Call) a : length (tr ++ [a]) = S (length tr).
Proof. rewrite length_app. cbn. lia. Qed.

(** A script that is a regular file and whose two calls succeed. *)
Lemma run_bq_script_succeeds file_path text s :
  fs (world s) !! file_path = Some (File text) →
  faults (world s) (length (trace (world s))) (query (qualified' text)) = None →
  faults (world s) (S (length (trace (world s)))) (result (qualified' text)) = None →
  run_bq_script PROJECT_ID file_path s
  = (Returned true,
     {| world := record_call (result (qualified' text))
                   (record_call (query (qualified' text)) (world s));
        logs := logs s ++
          [{| levelname := INFO; msg := "Reading SQL script: " +:+ file_path |};
           {| levelname := INFO; msg := "Starting execution of " +:+ file_path +:+ "..." |};
           {| levelname := INFO; msg := "Successfully executed " +:+ file_path +:+ "." |}] |}).
Proof.
  destruct s as [c lg]. cbn [world logs]. intros Hfile Hquery Hresult.
  unfold run_bq_script, bind, try_except, os_path_exists, read_text, client_query,
    query_job_result, api, call, logging_info, logging_error, emit, ret.
  cbn [world logs]. settle_path.
  fold (qualified' text). rewrite Hquery. settle_path. rewrite Hresult. settle_path.
  by rewrite <- !app_assoc.
Qed.

(** A script that is missing or one of whose calls fails. *)
Lemma run_bq_script_fails file_path s :
  script_fails_after PROJECT_ID (length (trace (world s))) file_path (world s) →
  ∃ s' attempted,
    run_bq_script PROJECT_ID file_path s = (Returned false, s') ∧
    fs (world s') = fs (world s) ∧
    trace (world s') = trace (world s) ++ attempted ∧
    (∀ a, a ∈ attempted → calls_of_script PROJECT_ID file_path (world s) a).
Proof.
  destruct s as [c lg]. cbn [world logs].
  unfold run_bq_script, bind, try_except, os_path_exists, read_text, client_query,
    query_job_result, api, call, logging_info, logging_error, emit, ret.
  cbn [world logs].
  intros [Hnone|(text & Hfile & Hfault)].
  - settle_path.
    eexists _, []. split; [reflexivity|]. cbn. rewrite app_nil_r.
    do 2 (split; [done|]). intros a Ha. by apply elem_of_nil in Ha.
  - settle_path.
    fold (qualified' text).
    destruct (faults c (length (trace c)) (query (qualified' text))) as [e|] eqn:Hquery.
    + settle_path.
      eexists _, [query (qualified' text)]. split; [reflexivity|]. cbn.
      do 2 (split; [done|]). intros a ->%list_elem_of_singleton.
      exists text. split; [done|]. by left.
    + settle_path.
      destruct (faults c (S (length (trace c))) (result (qualified' text)))
        as [e|] eqn:Hresult; [|by destruct Hfault].
      settle_path.
      eexists _, (calls_of (qualified' text)). split; [reflexivity|]. cbn.
      split; [done|]. split; [by rewrite <- app_assoc|].
      intros a Ha. by exists text.
Qed.

(** X18. What an outcome of [run_bq_script] tells. It returns [True]
    only after the rewritten text of the file was submitted and the job
    completed; it returns [False] when the file is missing, without any
    call, or when one of the two calls raised, and the last line logged
    then names the file; an exception escapes it only from the reading
    of the file, which is outside the [try]: the path is a directory,
    or the file cannot be opened or decoded. That is before any call,
    and the last line logged is then the one that announces the
    reading. The disk is never changed. *)
Theorem run_bq_script_outcomes file_path s r s' :
  run_bq_script PROJECT_ID file_path s = (r, s') →
  fs (world s') = fs (world s) ∧
  match r with
  | Returned true =>
      ∃ text,
        fs (world s) !! file_path = Some (File text) ∧
        trace (world s') = trace (world s) ++ calls_of (qualified' text) ∧
        faults (world s) (length (trace (world s))) (query (qualified' text)) = None ∧
        faults (world s) (S (length (trace (world s)))) (result (qualified' text)) = None
  | Returned false =>
      (fs (world s) !! file_path = None ∧
       trace (world s') = trace (world s) ∧
       last (logs s') = Some {| levelname := ERROR;
                                msg := "SQL file not found: " +:+ file_path |}) ∨
      (∃ text e,
         fs (world s) !! file_path = Some (File text) ∧
         (faults (world s) (length (trace (world s))) (query (qualified' text)) = Some e ∧
          trace (world s') = trace (world s) ++ [query (qualified' text)] ∨
          faults (world s) (length (trace (world s))) (query (qualified' text)) = None ∧
          faults (world s) (S (length (trace (world s)))) (result (qualified' text)) = Some e ∧
          trace (world s') = trace (world s) ++ calls_of (qualified' text)) ∧
         last (logs s') = Some {| levelname := ERROR;
                                  msg := "Error running " +:+ file_path +:+ ": "
                                         +:+ str_exn e |})
  | Raised e =>
      read_raises file_path (world s) e ∧
      trace (world s') = trace (world s) ∧
      last (logs s') = Some {| levelname := INFO;
                               msg := "Reading SQL script: " +:+ file_path |}
  end.
Proof.
  destruct s as [c lg]. cbn [world logs].
  unfold run_bq_script, bind, try_except, os_path_exists, read_text, client_query,
    query_job_result, api, call, logging_info, logging_error, emit, ret.
  cbn [world logs].
  destruct (fs c !! file_path) as [[|text|e]|] eqn:Hfile.
  - settle_path. intros [= <- <-]. cbn [world logs]. split; [done|].
    split; [by left|]. split; [done|]. by rewrite last_snoc.
  - settle_path. fold (qualified' text).
    destruct (faults c (length (trace c)) (query (qualified' text))) as [e|] eqn:Hquery.
    { settle_path.
      intros [= <- <-]. cbn [world logs]. split; [done|]. right. exists text, e.
      split; [done|]. split; [by left|]. by rewrite last_snoc. }
    settle_path.
    destruct (faults c (S (length (trace c))) (result (qualified' text)))
      as [e|] eqn:Hresult; settle_path.
    { intros [= <- <-]. cbn [world logs]. split; [done|]. right. exists text, e.
      split; [done|]. split; [|by rewrite last_snoc].
      right. do 2 (split; [done|]). cbn. by rewrite <- app_assoc. }
    intros [= <- <-]. cbn [world logs]. split; [done|]. exists text.
    split; [done|]. split; [|done]. cbn. by rewrite <- app_assoc.
  - settle_path. intros [= <- <-]. cbn [world logs]. split; [done|].
    split; [by right|]. split; [done|]. by rewrite last_snoc.
  - settle_path.
    intros [= <- <-]. cbn [world logs]. split; [done|]. left.
    do 2 (split; [done|]). by rewrite last_snoc.
Qed.

(** One round of the loop over the tables. *)
Lemma create_table_step table_name create_sql s :
  ∃ s' r,
    create_table (table_name, create_sql) s = (Returned tt, s') ∧
    submitted (trace (world s')) = submitted (trace (world s)) ++ [create_sql] ∧
    logs s' = logs s ++ [r] ∧
    table_report table_name r ∧
    fs (world s') = fs (world s) ∧
    dataset (world s') = dataset (world s).
Proof.
  destruct s as [c lg]. cbn [world logs].
  unfold create_table, bind, try_except, client_query,
    query_job_result, api, call, logging_info, logging_error, emit, ret.
  cbn [world logs].
  destruct (faults c (length (trace c)) (query create_sql)) as [e|]; settle_path.
  { eexists _, _. split; [reflexivity|]. cbn [world logs].
    split; [apply submitted_snoc_query|]. split; [done|]. split; [|done].
    right. by exists e. }
  destruct (faults c (S (length (trace c))) (result create_sql)) as [e|]; settle_path.
  { eexists _, _. split; [reflexivity|]. cbn [world logs].
    split; [|split; [done|split; [|done]]].
    - rewrite !trace_after. by rewrite submitted_snoc_result, submitted_snoc_query.
    - right. by exists e. }
  eexists _, _. split; [reflexivity|]. cbn [world logs].
  split; [|split; [done|split; [|done]]].
  - rewrite !trace_after. by rewrite submitted_snoc_result, submitted_snoc_query.
  - by left.
Qed.

(** The loop over the tables returns and leaves the disk alone. *)
Lemma create_dimension_tables_returns s :
  ∃ s', create_dimension_tables PROJECT_ID s = (Returned tt, s') ∧
        fs (world s') = fs (world s).
Proof.
  unfold create_dimension_tables, tables. cbn [for_each].
  destruct (create_table_step "dim_customers" (create_dim_customers PROJECT_ID) s)
    as (s1 & r1 & Hrun1 & _ & _ & _ & Hfs1 & _).
  destruct (create_table_step "dim_product" (create_dim_product PROJECT_ID) s1)
    as (s2 & r2 & Hrun2 & _ & _ & _ & Hfs2 & _).
  destruct (create_table_step "fact_transactions" (create_fact_transactions PROJECT_ID) s2)
    as (s3 & r3 & Hrun3 & _ & _ & _ & Hfs3 & _).
  exists s3. unfold bind at 1. rewrite Hrun1. unfold bind at 1. rewrite Hrun2.
  unfold bind at 1. rewrite Hrun3. unfold ret. split; [done|]. congruence.
Qed.

(** X19. Whatever fails, [create_dimension_tables] returns normally,
    has handed the three [CREATE TABLE IF NOT EXISTS] statements to the
    client, each once and in the order of the list, and has logged one
    line per table: its creation or its error. *)
Theorem every_table_creation_is_attempted s :
  ∃ s' r1 r2 r3,
    create_dimension_tables PROJECT_ID s = (Returned tt, s') ∧
    submitted (trace (world s'))
    = submitted (trace (world s)) ++
        [create_dim_customers PROJECT_ID; create_dim_product PROJECT_ID;
         create_fact_transactions PROJECT_ID] ∧
    logs s' = logs s ++ [r1; r2; r3] ∧
    table_report "dim_customers" r1 ∧
    table_report "dim_product" r2 ∧
    table_report "fact_transactions" r3 ∧
    fs (world s') = fs (world s) ∧
    dataset (world s') = dataset (world s).
Proof.
  unfold create_dimension_tables, tables. cbn [for_each].
  destruct (create_table_step "dim_customers" (create_dim_customers PROJECT_ID) s)
    as (s1 & r1 & Hrun1 & Hsub1 & Hlog1 & Hr1 & Hfs1 & Hds1).
  destruct (create_table_step "dim_product" (create_dim_product PROJECT_ID) s1)
    as (s2 & r2 & Hrun2 & Hsub2 & Hlog2 & Hr2 & Hfs2 & Hds2).
  destruct (create_table_step "fact_transactions" (create_fact_transactions PROJECT_ID) s2)
    as (s3 & r3 & Hrun3 & Hsub3 & Hlog3 & Hr3 & Hfs3 & Hds3).
  exists s3, r1, r2, r3.
  unfold bind at 1. rewrite Hrun1. unfold bind at 1. rewrite Hrun2.
  unfold bind at 1. rewrite Hrun3. unfold ret.
  split; [done|]. split; [|split; [|repeat split; try done; congruence]].
  - rewrite Hsub3, Hsub2, Hsub1. by rewrite <- !app_assoc.
  - rewrite Hlog3, Hlog2, Hlog1. by rewrite <- !app_assoc.
Qed.

Lemma next_calls_succeed_shift n s s' :
  faults (world s') = faults (world s) →
  length (trace (world s')) = 2 + length (trace (world s)) →
  next_calls_succeed (2 + n) (world s) → next_calls_succeed n (world s').
Proof.
  intros Hf Hlen Hq k a Hk. rewrite Hf, Hlen.
  replace (2 + length (trace (world s)) + k) with (length (trace (world s)) + (2 + k))
    by lia.
  apply Hq. lia.
Qed.

(** The scripts before the first failure run to their end, one after
    the other. *)
Lemma run_scripts_prefix done texts rest s :
  Forall2 (λ path text, fs (world s) !! path = Some (File text)) done texts →
  next_calls_succeed (2 * length done) (world s) →
  ∃ s1,
    run_scripts PROJECT_ID (done ++ rest) s = run_scripts PROJECT_ID rest s1 ∧
    fs (world s1) = fs (world s) ∧
    faults (world s1) = faults (world s) ∧
    trace (world s1) = trace (world s) ++ (texts ≫= λ text, calls_of (qualified' text)).
Proof.
  intros Hfiles. revert s Hfiles.
  induction done as [|path done IH] in texts |- *; intros s Hfiles Hq.
  - apply Forall2_nil_inv_l in Hfiles as ->. exists s. cbn. by rewrite app_nil_r.
  - apply Forall2_cons_inv_l in Hfiles as (text & texts' & Hfile & Hfiles & ->).
    assert (faults (world s) (length (trace (world s))) (query (qualified' text)) = None)
      as Hquery by (rewrite <- (Nat.add_0_r (length _)); apply Hq; cbn; lia).
    assert (faults (world s) (S (length (trace (world s)))) (result (qualified' text))
            = None)
      as Hresult by (rewrite <- Nat.add_1_r; apply Hq; cbn; lia).
    pose proof (run_bq_script_succeeds path text s Hfile Hquery Hresult) as Hrun.
    set (s1 := {| world := record_call (result (qualified' text))
                             (record_call (query (qualified' text)) (world s));
                  logs := logs s ++ _ |}) in Hrun.
    destruct (IH texts' s1) as (s2 & Hrest & Hfs & Hfaults & Htrace).
    + exact Hfiles.
    + apply (next_calls_succeed_shift _ s); [done| |].
      * cbn [s1 world]. by rewrite !calls_after.
      * replace (2 + 2 * length done) with (2 * length (path :: done)) by (cbn; lia).
        exact Hq.
    + exists s2. split; [|split; [done|split; [done|]]].
      * cbn [app run_scripts]. unfold bind at 1. rewrite Hrun. cbn [negb]. exact Hrest.
      * rewrite Htrace. cbn. by rewrite <- !app_assoc.
Qed.

(** X20. The loop over the scripts stops at the first failure. When
    the scripts before [bad] are regular files that can be read and
    whose calls succeed, and [bad] is missing or is read and one of its
    calls fails, the loop returns
    normally, has run the scripts before [bad] to their end in order,
    has made no call after that except those of [bad], so none for a
    later script, and its last line names [bad]. *)
Theorem pipeline_stops_at_first_failure done texts bad rest s :
  Forall2 (λ path text, fs (world s) !! path = Some (File text)) done texts →
  next_calls_succeed (2 * length done) (world s) →
  script_fails_after PROJECT_ID (length (trace (world s)) + 2 * length done)
    bad (world s) →
  ∃ s' attempted,
    run_scripts PROJECT_ID (done ++ bad :: rest) s = (Returned tt, s') ∧
    trace (world s')
    = trace (world s) ++ (texts ≫= λ text, calls_of (qualified' text)) ++ attempted ∧
    (∀ a, a ∈ attempted → calls_of_script PROJECT_ID bad (world s) a) ∧
    last (logs s') = Some {| levelname := ERROR;
                             msg := "Pipeline stopped due to failure in " +:+ bad |}.
Proof.
  intros Hfiles Hq Hbad.
  destruct (run_scripts_prefix done texts (bad :: rest) s Hfiles Hq)
    as (s1 & Hrun & Hfs & Hfaults & Htrace).
  destruct (run_bq_script_fails bad s1) as (s2 & attempted & Hrun2 & _ & Htrace2 & Hcalls).
  { unfold script_fails_after in *. rewrite Hfs, Hfaults, Htrace, length_app.
    replace (length (texts ≫= λ text, calls_of (qualified' text)))
      with (2 * length done); [done|].
    clear -Hfiles. induction Hfiles as [|???? _ _ IH]; [done|]. cbn. rewrite <- IH. lia. }
  eexists _, attempted. split; [|split; [|split]].
  - rewrite Hrun. cbn [run_scripts]. unfold bind at 1. rewrite Hrun2. cbn [negb].
    unfold logging_error, emit. reflexivity.
  - cbn [world]. rewrite Htrace2, Htrace. by rewrite <- app_assoc.
  - intros a Ha. destruct (Hcalls a Ha) as (text & Hfile & Hin).
    exists text. by rewrite <- Hfs.
  - cbn [logs]. by rewrite last_snoc.
Qed.

(** X21. When every script is a regular file that can be read and no
    call fails, the loop runs all of them to their end, in the order of
    the list, and logs no stop. *)
Theorem pipeline_runs_every_script_in_order scripts texts s :
  Forall2 (λ path text, fs (world s) !! path = Some (File text)) scripts texts →
  next_calls_succeed (2 * length scripts) (world s) →
  ∃ s',
    run_scripts PROJECT_ID scripts s = (Returned tt, s') ∧
    trace (world s')
    = trace (world s) ++ (texts ≫= λ text, calls_of (qualified' text)) ∧
    submitted (trace (world s'))
    = submitted (trace (world s)) ++ (qualified' <$> texts).
Proof.
  intros Hfiles Hq.
  destruct (run_scripts_prefix scripts texts [] s Hfiles Hq)
    as (s1 & Hrun & _ & _ & Htrace).
  exists s1. rewrite app_nil_r in Hrun. split; [by rewrite Hrun|]. split; [done|].
  rewrite Htrace. unfold submitted. rewrite omap_app. f_equal.
  clear. induction texts as [|text texts IH]; [done|]. cbn. by rewrite IH.
Qed.

(** A loop all of whose scripts are missing or can be read returns
    normally. *)
Lemma run_scripts_returns scripts s :
  (∀ path, path ∈ scripts → readable_or_missing path (world s)) →
  ∃ s', run_scripts PROJECT_ID scripts s = (Returned tt, s') ∧
        fs (world s') = fs (world s).
Proof.
  revert s. induction scripts as [|path scripts IH]; intros s Hfiles.
  - by exists s.
  - cbn [run_scripts]. unfold bind at 1.
    destruct (run_bq_script PROJECT_ID path s) as [r s1] eqn:Hrun.
    assert (fs (world s1) = fs (world s) ∧ ∃ ok, r = Returned ok) as [Hfs [ok ->]].
    { revert Hrun. destruct s as [c lg]. cbn [world logs] in *.
      unfold run_bq_script, bind, try_except, os_path_exists, read_text, client_query,
        query_job_result, api, call, logging_info, logging_error, emit, ret.
      cbn [world logs].
      destruct (Hfiles path) as [Hfile|[text Hfile]]; [by left|..].
      - settle_path.
        intros [= <- <-]; eauto.
      - settle_path.
        destruct (faults c (length (trace c)) _); settle_path;
          [intros [= <- <-]; eauto|].
        destruct (faults c (S (length (trace c))) _); settle_path;
          intros [= <- <-]; eauto. }
    destruct ok; cbn [negb].
    + destruct (IH s1) as (s' & Hrest & Hfs').
      { intros p Hp. unfold readable_or_missing. rewrite Hfs. apply Hfiles. by right. }
      exists s'. split; [done|]. by rewrite Hfs'.
    + eexists. split; [reflexivity|]. done.
Qed.

(** A script that cannot be read. *)
Lemma run_bq_script_escapes file_path s :
  fs (world s) !! file_path = Some Dir ∨
  (∃ e, fs (world s) !! file_path = Some (Unreadable e)) →
  ∃ e,
    read_raises file_path (world s) e ∧
    run_bq_script PROJECT_ID file_path s
    = (Raised e,
       {| world := world s;
          logs := logs s ++
            [{| levelname := INFO; msg := "Reading SQL script: " +:+ file_path |}] |}).
Proof.
  destruct s as [c lg]. cbn [world logs].
  unfold run_bq_script, bind, try_except, os_path_exists, read_text, client_query,
    query_job_result, api, call, logging_info, logging_error, emit, ret.
  cbn [world logs].
  intros [Hfile|[e Hfile]]; settle_path.
  - eexists. split; [|reflexivity]. by left.
  - exists e. split; [by right | done].
Qed.

(** With the dataset found, [main] comes to the loop over the scripts
    with the disk as it was. *)
Lemma main_reaches_scripts s :
  faults (world s) (length (trace (world s)))
    (get_dataset (str_opt PROJECT_ID +:+ "." +:+ DATASET_ID)) = None →
  dataset (world s) = true →
  ∃ s1,
    fs (world s1) = fs (world s) ∧
    main PROJECT_ID base_dir s
    = (run_scripts PROJECT_ID (scripts base_dir);;
       logging_info "Transformation Pipeline Completed.") s1.
Proof.
  intros Hget Hds. destruct s as [c lg]. cbn [world logs] in *.
  unfold main. unfold bind at 1. unfold logging_info at 1, emit at 1. cbn [world logs].
  unfold bind at 1.
  unfold create_dataset_if_not_exists, try_except, bind at 1.
  unfold client_get_dataset, api, call at 1. cbn [world logs].
  rewrite Hget. unfold record_call at 1. cbn [dataset]. rewrite Hds.
  unfold logging_info at 1, emit at 1. cbn [world logs].
  unfold bind at 1.
  match goal with |- context [create_dimension_tables PROJECT_ID ?st] =>
    destruct (create_dimension_tables_returns st) as (s1 & Hrun1 & Hfs1) end.
  rewrite Hrun1. unfold bind at 1. unfold logging_info at 1, emit at 1.
  cbn [world logs] in *.
  eexists. split; [|reflexivity]. cbn [world]. by rewrite Hfs1.
Qed.

(** X22. When the dataset is found and every script is missing or can
    be read, [main] returns normally and its last line is the
    completion message, whatever became of the tables and of the
    scripts: a failure stops the loop and is then followed by that
    message. When the first script is a directory or cannot be read,
    the exception of the reading escapes [main] instead, and the last
    line logged is the one that announces the reading. *)
Theorem main_always_reports_completion s :
  faults (world s) (length (trace (world s)))
    (get_dataset (str_opt PROJECT_ID +:+ "." +:+ DATASET_ID)) = None →
  dataset (world s) = true →
  ((∀ path, path ∈ scripts base_dir → readable_or_missing path (world s)) →
   ∃ s',
     main PROJECT_ID base_dir s = (Returned tt, s') ∧
     last (logs s') = Some {| levelname := INFO;
                              msg := "Transformation Pipeline Completed." |}) ∧
  (let first := path_join base_dir "sql/dim_customers_scd2_bq.sql" in
   fs (world s) !! first = Some Dir ∨
   (∃ e, fs (world s) !! first = Some (Unreadable e)) →
   ∃ e s',
     read_raises first (world s) e ∧
     main PROJECT_ID base_dir s = (Raised e, s') ∧
     last (logs s') = Some {| levelname := INFO;
                              msg := "Reading SQL script: " +:+ first |}).
Proof.
  intros Hget Hds.
  destruct (main_reaches_scripts s Hget Hds) as (s1 & Hfs1 & ->).
  split.
  - intros Hfiles. unfold bind at 1.
    destruct (run_scripts_returns (scripts base_dir) s1) as (s2 & Hrun2 & Hfs2).
    { intros path Hpath. unfold readable_or_missing. rewrite Hfs1. by apply Hfiles. }
    rewrite Hrun2. unfold logging_info, emit. eexists. split; [reflexivity|].
    cbn [logs]. by rewrite last_snoc.
  - intros first Hfirst. unfold scripts. cbn [run_scripts]. unfold bind at 1 2.
    destruct (run_bq_script_escapes first s1) as (e & Hraises & Hrun2).
    { by rewrite Hfs1. }
    fold first. rewrite Hrun2. exists e. eexists. split; [|split; [reflexivity|]].
    + unfold read_raises in *. by rewrite Hfs1 in Hraises.
    + cbn [logs]. by rewrite last_snoc.
Qed.

End Runner.

(** ** The scheduled pipeline *)

Section Schedule.
Import RetailEtlDag.

Lemma dependency u d :
  In (u, d) dependencies → (u, d) ∈ dependencies.
Proof. apply list_elem_of_In. Qed.

(** Every task but the ingestion depends on some task. *)
Lemma has_upstream t :
  t ≠ task_ingest_crm → ∃ u, (u, t) ∈ dependencies.
Proof.
  destruct t; intros Ht; [done|..].
  - exists task_create_audit_table. apply dependency. cbn. tauto.
  - exists task_create_audit_table. apply dependency. cbn. tauto.
  - exists task_ingest_crm. apply dependency. cbn. tauto.
  - exists task_create_audit_table. apply dependency. cbn. tauto.
  - exists task_create_audit_table. apply dependency. cbn. tauto.
  - exists task_cleanse_pos. apply dependency. cbn. tauto.
  - exists task_build_facts. apply dependency. cbn. tauto.
Qed.

(** When the quality checks ran, every other task ran before them. *)
Lemma all_before_checks order i t :
  respects order →
  order !! i = Some task_data_quality_checks →
  t ≠ task_data_quality_checks →
  ∃ j, j < i ∧ order !! j = Some t.
Proof.
  intros Hr Hi Ht.
  destruct (Hr task_build_facts task_data_quality_checks i) as (j3 & Hlt3 & Hj3);
    [apply dependency; cbn; tauto | done |].
  assert (∀ u, In (u, task_build_facts) dependencies →
               ∃ j, j < j3 ∧ order !! j = Some u) as Htransform.
  { intros u Hu. apply (Hr u task_build_facts j3); [by apply dependency | done]. }
  destruct (Htransform task_cleanse_pos) as (j2 & Hlt2 & Hj2); [cbn; tauto|].
  destruct (Hr task_create_audit_table task_cleanse_pos j2) as (j1 & Hlt1 & Hj1);
    [apply dependency; cbn; tauto | done |].
  destruct (Hr task_ingest_crm task_create_audit_table j1) as (j0 & Hlt0 & Hj0);
    [apply dependency; cbn; tauto | done |].
  destruct t; try done.
  - exists j0. split; [lia | done].
  - destruct (Htransform task_update_dim_customers) as (j & ? & ?); [cbn; tauto|].
    exists j. split; [lia | done].
  - destruct (Htransform task_build_dim_product) as (j & ? & ?); [cbn; tauto|].
    exists j. split; [lia | done].
  - exists j1. split; [lia | done].
  - exists j2. split; [lia | done].
  - destruct (Htransform task_cleanse_ecommerce) as (j & ? & ?); [cbn; tauto|].
    exists j. split; [lia | done].
  - exists j3. split; [lia | done].
Qed.

(** X23. In every run of the pipeline in which no task ran twice, the
    ingestion is the first task to run, and when the quality checks ran
    then all eight tasks ran and the quality checks ran last. *)
Theorem ingestion_runs_first_and_checks_last order :
  NoDup order → respects order →
  (∀ t, head order = Some t → t = task_ingest_crm) ∧
  (task_data_quality_checks ∈ order →
   (∀ t, t ∈ order) ∧ last order = Some task_data_quality_checks).
Proof.
  intros Hnodup Hr. split.
  - intros t Hhead.
    destruct (decide (t = task_ingest_crm)) as [|Hne]; [done|].
    destruct (has_upstream t Hne) as [u Hu].
    destruct (Hr u t 0 Hu) as (j & Hj & _); [|lia].
    by destruct order; simplify_eq/=.
  - intros [i Hi]%list_elem_of_lookup. split.
    + intros t. destruct (decide (t = task_data_quality_checks)) as [->|Hne].
      * by apply list_elem_of_lookup_2 in Hi.
      * destruct (all_before_checks order i t Hr Hi Hne) as (j & _ & Hj).
        by apply list_elem_of_lookup_2 in Hj.
    + rewrite last_lookup.
      destruct (decide (length order = S i)) as [->|Hlen]; [done|].
      pose proof (lookup_lt_Some _ _ _ Hi) as Hlt.
      destruct (lookup_lt_is_Some_2 order (S i)) as [t Ht]; [lia|].
      destruct (decide (t = task_data_quality_checks)) as [->|Hne].
      * pose proof (NoDup_lookup _ _ _ _ Hnodup Hi Ht). lia.
      * destruct (all_before_checks order i t Hr Hi Hne) as (j & Hj & Hjt).
        pose proof (NoDup_lookup _ _ _ _ Hnodup Ht Hjt). lia.
Qed.

Lemma omap_head {A B} (f : A → option B) l x xs :
  omap f l = x :: xs →
  ∃ l1 a l2, l = l1 ++ a :: l2 ∧ Forall (λ a, f a = None) l1 ∧ f a = Some x.
Proof.
  induction l as [|a l IH]; [done|]. cbn.
  destruct (f a) as [y|] eqn:Hfa.
  - intros [= -> _]. by exists [], a, l.
  - intros (l1 & a' & l2 & -> & Hl1 & Ha')%IH.
    exists (a :: l1), a', l2. split; [done|]. split; [|done]. by constructor.
Qed.

Variable base_dir : string.

(** X24. The standalone runner does not follow the scheduled order. In
    every scheduled run the first script submitted is the one that
    creates the audit table, so the scripts of no scheduled run are, by
    file name and in order, the scripts the runner works through: it
    starts with the customer dimension and reaches the audit table
    fifth. *)
Theorem runner_order_is_no_scheduled_order order :
  respects order →
  (∀ file, head (omap read_sql_file order) = Some file → file = "audit_log_bq.sql") ∧
  (λ file, RunPipeline.path_join base_dir ("sql/" +:+ file)) <$> omap read_sql_file order
  ≠ RunPipeline.scripts base_dir.
Proof.
  intros Hr.
  assert (∀ file, head (omap read_sql_file order) = Some file → file = "audit_log_bq.sql")
    as Hfirst.
  { intros file Hhead.
    destruct (omap read_sql_file order) as [|file' files] eqn:Hfiles; [done|].
    injection Hhead as ->.
    apply omap_head in Hfiles as (l1 & t & l2 & -> & Hl1 & Ht).
    destruct (decide (t = task_create_audit_table)) as [->|Hne]; [by injection Ht|].
    assert (∃ u, (u, t) ∈ dependencies ∧ read_sql_file u ≠ None) as (u & Hu & Hsql).
    { destruct t; try done.
      1-4: exists task_create_audit_table.
      5: exists task_cleanse_pos.
      all: split; [apply dependency; cbn; tauto | done]. }
    destruct (Hr u t (length l1) Hu) as (j & Hj & Hbefore);
      [by apply list_lookup_middle|].
    rewrite lookup_app_l in Hbefore by done.
    rewrite Forall_lookup in Hl1. by apply Hl1 in Hbefore. }
  split; [done|]. intros Heq.
  destruct (omap read_sql_file order) as [|file files] eqn:Hfiles; [done|].
  rewrite (Hfirst file eq_refl) in Heq. unfold RunPipeline.scripts in Heq.
  cbn [fmap list_fmap] in Heq. injection Heq as Hpath _.
  unfold RunPipeline.path_join in Hpath. do 2 apply String.app_inj in Hpath.
  vm_compute in Hpath. discriminate Hpath.
Qed.

End Schedule.

(** *** Samples *)

Section GateChecksSamples.
Import CheckDataQuality GateSpec GateInvariants Scenarios.Gate.

Lemma null_check_iff_complete_witness :
  (run_test "Null Value Check (Critical Columns)" query_nulls 0 clean_run).1
    = Returned true
  ↔ complete clean.
Proof.
  destruct (null_check_iff_complete clean) as (n & _ & _ & Hrun).
  apply Hrun; reflexivity.
Defined.

Lemma scd_check_iff_temporally_valid_witness :
  (run_test "SCD Logic Check (Time Travel)" query_scd_logic 0 clean_run).1
    = Returned true
  ↔ temporally_valid clean.
Proof.
  destruct (scd_check_iff_temporally_valid clean) as (n & _ & _ & Hrun).
  apply Hrun; reflexivity.
Defined.

Lemma ref_integrity_check_iff_intact_witness :
  (run_test "Referential Integrity (Customer FK)" query_ref_integrity 0
     scenario_D_run).1 = Returned true
  ↔ referentially_intact scenario_D.
Proof.
  destruct (ref_integrity_check_iff_intact scenario_D) as (n & _ & _ & Hrun).
  apply Hrun; reflexivity.
Defined.

Lemma gate_passes_iff_all_invariants_witness :
  unique clean ∧ referentially_intact clean ∧ complete clean ∧ temporally_valid clean.
Proof.
  apply (proj1 (gate_passes_iff_all_invariants (Some "proj") clean_run
                  (λ n, eq_refl))).
  vm_compute. reflexivity.
Defined.

End GateChecksSamples.

Section LoaderSamples.
Import BigQuery IngestGcp IngestSpec IngestFacts Scenarios.Landing.

Lemma dataset_created_only_after_failed_lookup_witness :
  create_dataset_if_not_exists project landing
  = (Returned tt,
     {| world := record_call (get_dataset "proj.gigmart") (world landing);
        logs := [{| levelname := INFO;
                    msg := "Dataset proj.gigmart already exists." |}] |}).
Proof.
  exact (proj1 (dataset_created_only_after_failed_lookup project landing)
           eq_refl eq_refl).
Defined.

Lemma failed_lookup_of_existing_dataset_aborts_main_witness :
  main project bucket data landing_lookup_down
  = (Raised {| exn_class := "Conflict";
               exn_msg := "Already Exists: Dataset proj.gigmart" |},
     {| world := record_call (create_dataset "proj.gigmart")
                   (record_call (get_dataset "proj.gigmart")
                      (world landing_lookup_down));
        logs := [{| levelname := INFO; msg := "Looking for data in: /app/data" |}] |}).
Proof.
  exact (failed_lookup_of_existing_dataset_aborts_main project bucket data
           landing_lookup_down
           {| exn_class := "ServiceUnavailable"; exn_msg := "503 backend unavailable" |}
           eq_refl eq_refl eq_refl).
Defined.

Lemma first_load_creates_the_table_witness :
  ∃ s' t,
    load_csv_to_bq project "gs://landing/crm/customers.csv" "stg_crm_customers"
      crm_uploaded = (Returned tt, s') ∧
    tables (world s') !! "proj.gigmart.stg_crm_customers" = Some t ∧
    names (table_schema t) = ["customer_id"; "name"] ∧
    length (table_rows t) = 1.
Proof.
  destruct (first_load_creates_the_table project
              (load_csv_to_bq project) csv_job_config
              "gs://landing/crm/customers.csv" "stg_crm_customers" crm_uploaded
              customers_csv
              (or_introl (conj eq_refl eq_refl))
              (conj eq_refl (conj eq_refl eq_refl)) eq_refl eq_refl)
    as (s' & t & Hrun & Ht & Hschema & Hrows & _).
  - vm_compute. lia.
  - exists s', t. split; [exact Hrun|]. split; [exact Ht|].
    rewrite Hschema, Hrows. split; reflexivity.
Defined.

Lemma reloading_a_file_duplicates_its_rows_witness :
  ∃ s2 t2,
    (load_csv_to_bq project "gs://landing/crm/customers.csv" "stg_crm_customers";;
     load_csv_to_bq project "gs://landing/crm/customers.csv" "stg_crm_customers")
      crm_uploaded = (Returned tt, s2) ∧
    tables (world s2) !! "proj.gigmart.stg_crm_customers" = Some t2 ∧
    length (table_rows t2) = 2.
Proof.
  destruct (reloading_a_file_duplicates_its_rows project
              (load_csv_to_bq project) csv_job_config
              "gs://landing/crm/customers.csv" "stg_crm_customers" crm_uploaded
              customers_csv (detect_schema customers_csv) (detect_schema customers_csv)
              (or_introl (conj eq_refl eq_refl))
              (λ n a, eq_refl) eq_refl)
    as (s2 & t2 & Hrun & Ht & Hrows).
  - vm_compute. lia.
  - reflexivity.
  - reflexivity.
  - exists s2, t2. split; [exact Hrun|]. split; [exact Ht|].
    rewrite Hrows. reflexivity.
Defined.

Lemma load_of_missing_object_is_reported_witness :
  ∃ e,
    exn_class e = "NotFound" ∧
    load_csv_to_bq project "gs://landing/crm/missing.csv" "stg_crm_customers" crm_uploaded
    = (Returned tt,
       {| world := record_call (result "gs://landing/crm/missing.csv"
                                  "proj.gigmart.stg_crm_customers")
                     (record_call (load_table_from_uri "gs://landing/crm/missing.csv"
                                     "proj.gigmart.stg_crm_customers")
                        (world crm_uploaded));
          logs := [{| levelname := ERROR;
                      msg := "Failed to load stg_crm_customers: " +:+ str_exn e |}] |}).
Proof.
  exact (load_of_missing_object_is_reported project
           (load_csv_to_bq project) csv_job_config
           "gs://landing/crm/missing.csv" "stg_crm_customers" crm_uploaded
           (or_introl (conj eq_refl eq_refl))
           (conj eq_refl (conj eq_refl eq_refl)) eq_refl).
Defined.

Lemma json_load_into_other_table_cannot_widen_witness :
  ∃ s',
    load_json_to_bq project "gs://landing/returns/day1.json" "stg_returns"
      returns_uploaded = (Returned tt, s') ∧
    tables (world s') = tables (world returns_uploaded) ∧
    logs s' = [{| levelname := ERROR;
                  msg := "Failed to load stg_returns: Provided Schema does not match Table. Cannot add fields" |}].
Proof.
  destruct (json_load_into_other_table_cannot_widen project
              "gs://landing/returns/day1.json" "stg_returns" returns_uploaded
              returns_json stg_returns "reason" "STRING"
              eq_refl (conj eq_refl (conj eq_refl eq_refl)) eq_refl eq_refl)
    as (e & s' & Hrun & _ & Hmsg & Htables & Hlogs).
  - right. left.
  - intros Hin. apply list_elem_of_singleton in Hin. discriminate Hin.
  - exists s'. split; [exact Hrun|]. split; [exact Htables|].
    rewrite Hlogs. unfold str_exn. rewrite (Hmsg eq_refl). reflexivity.
Defined.

Lemma main_loads_only_uploaded_objects_witness :
  ∃ new,
    loads (trace (world (main project bucket data landing).2)) = [] ++ new ∧
    ∀ u t, (u, t) ∈ new →
      is_Some (blobs (world (main project bucket data landing).2) !! u) ∧
      t ∈ staging_tables project.
Proof.
  apply (proj2 (main_loads_only_uploaded_objects project bucket data landing
                  (Returned tt) (main project bucket data landing).2
                  ltac:(vm_compute; reflexivity))).
Defined.

Lemma run_without_source_folders_only_warns_witness :
  main project bucket data bare
  = (Returned tt,
     {| world := record_call (get_dataset "proj.gigmart") (world bare);
        logs := [{| levelname := INFO; msg := "Looking for data in: /app/data" |};
                 {| levelname := INFO; msg := "Dataset proj.gigmart already exists." |};
                 {| levelname := WARNING; msg := "Directory not found: /app/data/crm" |};
                 {| levelname := WARNING; msg := "Directory not found: /app/data/erp" |};
                 {| levelname := WARNING;
                    msg := "Directory not found: /app/data/ecommerce" |};
                 {| levelname := WARNING; msg := "Directory not found: /app/data/pos" |}] |}).
Proof.
  exact (run_without_source_folders_only_warns project bucket data bare
           (λ item _, lookup_empty _) eq_refl eq_refl).
Defined.



End LoaderSamples.


Section RunnerSamples.
Import RunPipeline PipelineSpec TransformScenarios.

Lemma qualified_text_has_no_bare_reference_witness :
  occurs_in "`gigmart." (qualified project dim_customers_sql) = false ∧
  qualified project (qualified project dim_customers_sql)
  = qualified project dim_customers_sql.
Proof.
  exact (proj2 (qualified_text_has_no_bare_reference project dim_customers_sql)
           eq_refl eq_refl).
Defined.

Lemma run_bq_script_outcomes_witness :
  ∃ text,
    fs (world fresh) !! "/app/sql/dim_customers_scd2_bq.sql" = Some (File text) ∧
    trace (world (run_bq_script project "/app/sql/dim_customers_scd2_bq.sql" fresh).2)
    = [] ++ calls_of (qualified project text) ∧
    no_faults 0 (query (qualified project text)) = None ∧
    no_faults 1 (result (qualified project text)) = None.
Proof.
  apply (proj2 (run_bq_script_outcomes project "/app/sql/dim_customers_scd2_bq.sql"
                  fresh (Returned true)
                  (run_bq_script project "/app/sql/dim_customers_scd2_bq.sql" fresh).2
                  ltac:(vm_compute; reflexivity))).
Defined.

Lemma pipeline_stops_at_first_failure_witness :
  ∃ s' attempted,
    run_scripts project (scripts home) fresh = (Returned tt, s') ∧
    trace (world s')
    = [] ++ ([dim_customers_sql] ≫= λ text, calls_of (qualified project text))
         ++ attempted ∧
    (∀ a, a ∈ attempted →
       calls_of_script project "/app/sql/dim_product_bq.sql" (world fresh) a) ∧
    last (logs s')
    = Some {| levelname := ERROR;
              msg := "Pipeline stopped due to failure in /app/sql/dim_product_bq.sql" |}.
Proof.
  apply (pipeline_stops_at_first_failure project
           ["/app/sql/dim_customers_scd2_bq.sql"] [dim_customers_sql]
           "/app/sql/dim_product_bq.sql"
           ["/app/sql/stg_pos_clean_bq.sql"; "/app/sql/stg_ecommerce_clean_bq.sql";
            "/app/sql/audit_log_bq.sql"; "/app/sql/fact_transactions_bq.sql"]
           fresh).
  - repeat constructor.
  - intros k a _. reflexivity.
  - left. reflexivity.
Defined.

Lemma pipeline_runs_every_script_in_order_witness :
  ∃ s',
    run_scripts project ["/app/sql/dim_customers_scd2_bq.sql"] fresh = (Returned tt, s') ∧
    trace (world s')
    = [] ++ ([dim_customers_sql] ≫= λ text, calls_of (qualified project text)) ∧
    submitted (trace (world s')) = [] ++ (qualified project <$> [dim_customers_sql]).
Proof.
  apply (pipeline_runs_every_script_in_order project
           ["/app/sql/dim_customers_scd2_bq.sql"] [dim_customers_sql] fresh).
  - repeat constructor.
  - intros k a _. reflexivity.
Defined.

Lemma main_always_reports_completion_witness :
  (∃ s',
     main project home fresh = (Returned tt, s') ∧
     last (logs s') = Some {| levelname := INFO;
                              msg := "Transformation Pipeline Completed." |}) ∧
  (∃ e s',
     read_raises "/app/sql/dim_customers_scd2_bq.sql" (world garbled) e ∧
     main project home garbled = (Raised e, s') ∧
     last (logs s')
     = Some {| levelname := INFO;
               msg := "Reading SQL script: /app/sql/dim_customers_scd2_bq.sql" |}).
Proof.
  split.
  - apply (proj1 (main_always_reports_completion project home fresh eq_refl eq_refl)).
    intros path Hpath.
    repeat (apply elem_of_cons in Hpath as [->|Hpath]);
      [right; by eexists | left; reflexivity .. | by apply elem_of_nil in Hpath].
  - apply (proj2 (main_always_reports_completion project home garbled eq_refl eq_refl)).
    right. by eexists.
Defined.

End RunnerSamples.

Section ScheduleSamples.
Import RetailEtlDag TransformScenarios.

Lemma serial_run_respects : respects serial_run.
Proof.
  intros u d i Hdep Hi. apply list_elem_of_In in Hdep. cbn in Hdep.
  repeat (destruct Hdep as [Hdep|Hdep]; [injection Hdep as <- <-|]); [..|done].
  all: destruct i as [|[|[|[|[|[|[|[|?]]]]]]]]; try discriminate Hi.
  - exists 0. split; [lia|done].
  - exists 1. split; [lia|done].
  - exists 1. split; [lia|done].
  - exists 1. split; [lia|done].
  - exists 1. split; [lia|done].
  - exists 2. split; [lia|done].
  - exists 3. split; [lia|done].
  - exists 4. split; [lia|done].
  - exists 5. split; [lia|done].
  - exists 6. split; [lia|done].
Qed.

Lemma serial_run_NoDup : NoDup serial_run.
Proof. apply (bool_decide_unpack _). vm_compute. exact I. Qed.

Lemma ingestion_runs_first_and_checks_last_witness :
  (∀ t, t ∈ serial_run) ∧ last serial_run = Some task_data_quality_checks.
Proof.
  apply (proj2 (ingestion_runs_first_and_checks_last serial_run
                  serial_run_NoDup serial_run_respects)).
  do 7 right. left.
Defined.

Lemma runner_order_is_no_scheduled_order_witness :
  (λ file, RunPipeline.path_join home ("sql/" +:+ file)) <$> omap read_sql_file serial_run
  ≠ RunPipeline.scripts home.
Proof.
  exact (proj2 (runner_order_is_no_scheduled_order home serial_run serial_run_respects)).
Defined.

End ScheduleSamples.
